(** * tinvest back end: authentication and per-user watchlist

    A shallow embedding of the three Express routers that are mounted by the
    server ([routes/auth-db], [routes/google-auth-db], [routes/watchlist]) and
    of the MySQL tables they talk to, followed by the properties of the
    service that the specification states.

    The npm packages the routers call (jsonwebtoken, bcryptjs,
    express-validator, google-auth-library) are not part of the repository:
    they are an interface ([Libs]) whose operations the handlers call and
    whose documented contracts appear as explicit hypotheses of the theorems
    that need them.  [RefLibs] is a small executable implementation of that
    interface used to run the handlers on concrete requests. *)

From Stdlib Require Import ZArith List String Ascii Bool Lia Permutation Sorted.
Import ListNotations.
Local Open Scope string_scope.
Local Open Scope Z_scope.

(** ** JavaScript values and strings *)

(** The scalar JSON values a request body can carry in a field. *)
Inductive JsValue :=
| JUndefined
| JNull
| JBool (b : bool)
| JNum (n : Z)
| JStr (s : string).

(** [typeof v === 'boolean'] *)
Definition is_boolean (v : JsValue) : bool :=
  match v with JBool _ => true | _ => false end.

(** [v !== undefined] *)
Definition is_defined (v : JsValue) : bool :=
  match v with JUndefined => false | _ => true end.

(** [typeof v === 'string'] *)
Definition is_text (v : JsValue) : bool :=
  match v with JStr _ => true | _ => false end.

(** A field that is a JSON string or missing, as a JSON value. *)
Definition json_field (o : option string) : JsValue :=
  match o with Some s => JStr s | None => JUndefined end.

(** Truthiness of a [string | null | undefined] value: [!s] is [negb (truthy s)]. *)
Definition truthy (s : option string) : bool :=
  match s with
  | None => false
  | Some s => negb (s =? "")%string
  end.

(** [a || d] for a [string | undefined] left operand. *)
Definition js_or (a : option string) (d : string) : string :=
  match a with
  | Some s => if (s =? "")%string then d else s
  | None => d
  end.

(** [a || null] *)
Definition or_null (a : option string) : option string :=
  if truthy a then a else None.

(** [s.split(sep)] for a one-character separator: the segments of [s]
    between occurrences of [sep], in order; never the empty list. *)
Fixpoint split (sep : ascii) (s : string) : list string :=
  match s with
  | EmptyString => [EmptyString]
  | String c rest =>
      if Ascii.eqb c sep then EmptyString :: split sep rest
      else match split sep rest with
           | seg :: segs => String c seg :: segs
           | [] => [String c EmptyString]
           end
  end.

(** [arr[i]], [undefined] out of range. *)
Definition js_index {A} (l : list A) (i : nat) : option A := nth_error l i.

Fixpoint has_char (c : ascii) (s : string) : bool :=
  match s with
  | EmptyString => false
  | String d rest => Ascii.eqb d c || has_char c rest
  end.

(** ** Rows of the two tables *)

Module User.
Record t := {
  id : Z;
  email : string;
  password : option string;
  google_id : option string;
  name : option string;
  picture : option string;
  created_at : Z
}.
End User.

Module WatchlistItem.
Record t := {
  id : Z;
  user_id : Z;
  symbol : string;
  name : string;
  is_favorite : bool;
  added_at : Z
}.
End WatchlistItem.

(** ** Tokens *)

(** A claim that a payload may or may not carry. *)
Inductive Claim (A : Type) :=
| Absent
| Present (a : A).
Arguments Absent {A}.
Arguments Present {A} a.

(** The object handed to [jwt.sign].  [googleId] is [string | null] when it
    is there. *)
Record JwtPayload := {
  userId : Z;
  email : string;
  googleId : Claim (option string)
}.

(** What [jwt.verify] hands to its callback: the signed payload together
    with the [iat] and [exp] claims jsonwebtoken adds when signing with
    [expiresIn]. *)
Record Decoded := {
  payload : JwtPayload;
  iat : Z;
  exp : Z
}.

(** The names of the claims of a payload, as the keys of the signed object. *)
Definition claim_names (p : JwtPayload) : list string :=
  ["userId"; "email"] ++
  match googleId p with Absent => [] | Present _ => ["googleId"] end.

(** ['7d'] in seconds. *)
Definition seven_days : Z := 7 * 24 * 60 * 60.

(** The verified Google identity ([ticket.getPayload()]). *)
Record GooglePayload := {
  sub : string;
  g_email : option string;
  g_name : option string;
  g_picture : option string
}.

Inductive Ticket :=
| VerifyThrows                       (* verifyIdToken rejects *)
| NoPayload                          (* getPayload() is undefined *)
| WithPayload (p : GooglePayload).

(** ** The libraries the routers call *)

Class Libs := {
  (* jsonwebtoken: sign payload secret expiresIn(seconds) now *)
  jwt_sign : JwtPayload -> string -> Z -> Z -> string;
  (* jsonwebtoken: verify token secret now; None is the err callback *)
  jwt_verify : string -> string -> Z -> option Decoded;
  (* bcryptjs: hash password salt *)
  bcrypt_hash : string -> string -> string;
  (* bcryptjs: compare password hash *)
  bcrypt_compare : string -> string -> bool;
  (* express-validator *)
  isEmail : string -> bool;
  normalizeEmail : string -> string;
  trim : string -> string;
  (* google-auth-library: verifyIdToken idToken audience *)
  verifyIdToken : string -> option string -> Ticket
}.

(** ** The database *)

(** The statements the routers send, with their bound parameters. *)
Inductive Stmt :=
| SelectWatchlist (user_id : Z)
| SelectWatchlistItem (user_id : Z) (symbol : string)
| InsertWatchlist (user_id : Z) (symbol name : string)
| UpdateFavorite (is_favorite : bool) (user_id : Z) (symbol : string)
| DeleteWatchlist (user_id : Z) (symbol : string)
| SelectUserByEmail (email : string)
| InsertUser (email password : string) (name : option string)
| SelectUserById (id : Z)
| SelectUserByGoogleOrEmail (google_id email : string)
| InsertGoogleUser (email google_id : string) (name picture : option string)
| UpdateGoogle (google_id : string) (name picture : option string) (id : Z).

(** The user id a watchlist statement is scoped by. *)
Definition stmt_scope (q : Stmt) : option Z :=
  match q with
  | SelectWatchlist u | SelectWatchlistItem u _ | InsertWatchlist u _ _
  | UpdateFavorite _ u _ | DeleteWatchlist u _ => Some u
  | _ => None
  end.

(** Modelled from the spec: the CREATE TABLE statements are not among the
    sources; the columns are those of the routers' row interfaces, and the
    specification's persisted-state layout gives the rest: ids assigned by
    the store, [email] unique in [users], (user_id, symbol) unique in
    [watchlist], timestamps set when a row is inserted.  String columns
    compare by equality.

    The two tables with their id counters, and the statements executed so
    far (most recent last). *)
Record Db := {
  users : list User.t;
  users_next : Z;
  watchlist : list WatchlistItem.t;
  watchlist_next : Z;
  executed : list Stmt
}.

Definition set_users (us : list User.t) (n : Z) (db : Db) : Db :=
  {| users := us; users_next := n; watchlist := watchlist db;
     watchlist_next := watchlist_next db; executed := executed db |}.

Definition set_watchlist (ws : list WatchlistItem.t) (n : Z) (db : Db) : Db :=
  {| users := users db; users_next := users_next db; watchlist := ws;
     watchlist_next := n; executed := executed db |}.

Definition record_stmt (q : Stmt) (db : Db) : Db :=
  {| users := users db; users_next := users_next db; watchlist := watchlist db;
     watchlist_next := watchlist_next db; executed := executed db ++ [q] |}.

(** An awaited promise either resolves or rejects; the database is threaded
    through. *)
Inductive Outcome (A : Type) :=
| Resolved (a : A)
| Rejected (e : string).
Arguments Resolved {A} a.
Arguments Rejected {A} e.

Definition M (A : Type) : Type := Db -> Outcome A * Db.

Definition ret {A} (a : A) : M A := fun db => (Resolved a, db).

Definition bind {A B} (m : M A) (k : A -> M B) : M B :=
  fun db =>
    match m db with
    | (Resolved a, db') => k a db'
    | (Rejected e, db') => (Rejected e, db')
    end.

Definition throw {A} (e : string) : M A := fun db => (Rejected e, db).

(** [try { m } catch (error) { h }] *)
Definition try_catch {A} (m : M A) (h : A) : Db -> A * Db :=
  fun db =>
    match m db with
    | (Resolved a, db') => (a, db')
    | (Rejected _, db') => (h, db')
    end.

Notation "x <- m ;; k" := (bind m (fun x => k))
  (at level 61, m at next level, right associativity).
Notation "m ;;; k" := (bind m (fun _ => k))
  (at level 61, right associativity).

(** [pool.query(sql, params)]: the statement reaches the server and is
    recorded, then [run] gives its result and its effect on the tables. *)
Definition pool_query {A} (q : Stmt) (run : Db -> Outcome A * Db) : M A :=
  fun db => run (record_stmt q db).

(** *** Statements on [watchlist] *)

Definition owns (uid : Z) (w : WatchlistItem.t) : bool :=
  WatchlistItem.user_id w =? uid.

Definition matches (uid : Z) (sym : string) (w : WatchlistItem.t) : bool :=
  owns uid w && (WatchlistItem.symbol w =? sym)%string.

(** [ORDER BY is_favorite DESC, added_at DESC]: [a] may come before [b]. *)
Definition order_before (a b : WatchlistItem.t) : bool :=
  match WatchlistItem.is_favorite a, WatchlistItem.is_favorite b with
  | true, false => true
  | false, true => false
  | _, _ => WatchlistItem.added_at b <=? WatchlistItem.added_at a
  end.

Fixpoint insert_row (a : WatchlistItem.t) (l : list WatchlistItem.t) :=
  match l with
  | [] => [a]
  | b :: l' => if order_before a b then a :: l else b :: insert_row a l'
  end.

(** Rows that compare equal keep their table order. *)
Definition order_by (l : list WatchlistItem.t) : list WatchlistItem.t :=
  fold_right insert_row [] l.

(** [SELECT * FROM watchlist WHERE user_id = ? ORDER BY is_favorite DESC, added_at DESC] *)
Definition select_watchlist (uid : Z) : M (list WatchlistItem.t) :=
  pool_query (SelectWatchlist uid)
    (fun db => (Resolved (order_by (filter (owns uid) (watchlist db))), db)).

(** [SELECT * FROM watchlist WHERE user_id = ? AND symbol = ?] *)
Definition select_watchlist_item (uid : Z) (sym : string) : M (list WatchlistItem.t) :=
  pool_query (SelectWatchlistItem uid sym)
    (fun db => (Resolved (filter (matches uid sym) (watchlist db)), db)).

(** [INSERT INTO watchlist (user_id, symbol, name, is_favorite) VALUES (?, ?, ?, FALSE)].
    The insert is rejected when (user_id, symbol) is already there;
    [added_at] is the time of the insert. *)
Definition insert_watchlist (now uid : Z) (sym nm : string) : M Z :=
  pool_query (InsertWatchlist uid sym nm)
    (fun db =>
       if existsb (matches uid sym) (watchlist db)
       then (Rejected "ER_DUP_ENTRY", db)
       else
         let row := {| WatchlistItem.id := watchlist_next db;
                       WatchlistItem.user_id := uid;
                       WatchlistItem.symbol := sym;
                       WatchlistItem.name := nm;
                       WatchlistItem.is_favorite := false;
                       WatchlistItem.added_at := now |} in
         (Resolved (watchlist_next db),
          set_watchlist (watchlist db ++ [row]) (watchlist_next db + 1) db)).

Definition set_favorite (fav : bool) (w : WatchlistItem.t) : WatchlistItem.t :=
  {| WatchlistItem.id := WatchlistItem.id w;
     WatchlistItem.user_id := WatchlistItem.user_id w;
     WatchlistItem.symbol := WatchlistItem.symbol w;
     WatchlistItem.name := WatchlistItem.name w;
     WatchlistItem.is_favorite := fav;
     WatchlistItem.added_at := WatchlistItem.added_at w |}.

(** [UPDATE watchlist SET is_favorite = ? WHERE user_id = ? AND symbol = ?].
    The result is [affectedRows]: the pool is created with mysql2's default
    connection flags, which include FOUND_ROWS, so it counts the rows the
    WHERE clause matched. *)
Definition update_favorite (fav : bool) (uid : Z) (sym : string) : M Z :=
  pool_query (UpdateFavorite fav uid sym)
    (fun db =>
       (Resolved (Z.of_nat (List.length (filter (matches uid sym) (watchlist db)))),
        set_watchlist
          (map (fun w => if matches uid sym w then set_favorite fav w else w)
               (watchlist db))
          (watchlist_next db) db)).

(** [DELETE FROM watchlist WHERE user_id = ? AND symbol = ?] *)
Definition delete_watchlist (uid : Z) (sym : string) : M unit :=
  pool_query (DeleteWatchlist uid sym)
    (fun db =>
       (Resolved tt,
        set_watchlist (filter (fun w => negb (matches uid sym w)) (watchlist db))
                      (watchlist_next db) db)).

(** *** Statements on [users] *)

Definition opt_eqb (a : option string) (b : string) : bool :=
  match a with
  | Some s => (s =? b)%string
  | None => false
  end.

Definition has_email (e : string) (u : User.t) : bool := (User.email u =? e)%string.

Definition has_id (i : Z) (u : User.t) : bool := User.id u =? i.

(** [SELECT * FROM users WHERE email = ?] *)
Definition select_users_by_email (e : string) : M (list User.t) :=
  pool_query (SelectUserByEmail e)
    (fun db => (Resolved (filter (has_email e) (users db)), db)).

(** [SELECT * FROM users WHERE id = ?] *)
Definition select_users_by_id (i : Z) : M (list User.t) :=
  pool_query (SelectUserById i)
    (fun db => (Resolved (filter (has_id i) (users db)), db)).

(** [SELECT * FROM users WHERE google_id = ? OR email = ?] *)
Definition select_users_by_google_or_email (g e : string) : M (list User.t) :=
  pool_query (SelectUserByGoogleOrEmail g e)
    (fun db =>
       (Resolved (filter (fun u => opt_eqb (User.google_id u) g || has_email e u)
                         (users db)), db)).

(** Appends a row under the next id, which is the statement's [insertId];
    the insert is rejected when the email is already there. *)
Definition insert_row_users (row : Z -> User.t) (e : string) (db : Db) : Outcome Z * Db :=
  if existsb (has_email e) (users db)
  then (Rejected "ER_DUP_ENTRY", db)
  else (Resolved (users_next db),
        set_users (users db ++ [row (users_next db)]) (users_next db + 1) db).

(** [INSERT INTO users (email, password, name) VALUES (?, ?, ?)] *)
Definition insert_user (now : Z) (e pw : string) (nm : option string) : M Z :=
  pool_query (InsertUser e pw nm)
    (insert_row_users
       (fun i => {| User.id := i; User.email := e; User.password := Some pw;
                    User.google_id := None; User.name := nm;
                    User.picture := None; User.created_at := now |}) e).

(** [INSERT INTO users (email, google_id, name, picture) VALUES (?, ?, ?, ?)] *)
Definition insert_google_user (now : Z) (e g : string) (nm pic : option string) : M Z :=
  pool_query (InsertGoogleUser e g nm pic)
    (insert_row_users
       (fun i => {| User.id := i; User.email := e; User.password := None;
                    User.google_id := Some g; User.name := nm;
                    User.picture := pic; User.created_at := now |}) e).

Definition link_google (g : option string) (nm pic : option string) (u : User.t) : User.t :=
  {| User.id := User.id u; User.email := User.email u;
     User.password := User.password u; User.google_id := g;
     User.name := nm; User.picture := pic;
     User.created_at := User.created_at u |}.

(** [UPDATE users SET google_id = ?, name = ?, picture = ? WHERE id = ?] *)
Definition update_google (g : string) (nm pic : option string) (i : Z) : M unit :=
  pool_query (UpdateGoogle g nm pic i)
    (fun db =>
       (Resolved tt,
        set_users (map (fun u => if has_id i u then link_google (Some g) nm pic u else u)
                       (users db))
                  (users_next db) db)).

(** ** Requests and responses *)

(** [process.env] *)
Record Env := {
  JWT_SECRET : option string;
  GOOGLE_CLIENT_ID : option string
}.

(** [process.env.JWT_SECRET || 'your-secret-key'] *)
Definition jwt_secret (env : Env) : string :=
  js_or (JWT_SECRET env) "your-secret-key".

(** The parts of an Express request the routers read.  Body fields are
    JSON strings or missing, except [isFavorite], which the handler
    type-checks itself; what Login does with a password that is another
    JSON value is [post_login_json].  [user] is the slot the middleware
    fills. *)
Record Request := {
  authorization : option string;      (* req.headers['authorization'] *)
  params_symbol : string;             (* req.params.symbol *)
  body_symbol : option string;
  body_name : option string;
  body_isFavorite : JsValue;
  body_email : option string;
  body_password : option string;
  body_credential : option string;
  user : option Decoded               (* req.user *)
}.

Definition set_user (d : Decoded) (req : Request) : Request :=
  {| authorization := authorization req; params_symbol := params_symbol req;
     body_symbol := body_symbol req; body_name := body_name req;
     body_isFavorite := body_isFavorite req; body_email := body_email req;
     body_password := body_password req; body_credential := body_credential req;
     user := Some d |}.

Record WatchlistView := {
  v_symbol : string;
  v_name : string;
  v_isFavorite : bool;
  v_addedAt : Z
}.

Record UserView := {
  v_id : Z;
  v_email : string;
  v_user_name : option string;
  v_picture : Claim (option string)
}.

Inductive ResBody :=
| Message (message : string)
| Errors (fields : list string)
| WatchlistBody (watchlist : list WatchlistView)
| AuthBody (message token : string) (user : UserView).

Record Response := {
  status : Z;
  body : ResBody
}.

Definition json (st : Z) (b : ResBody) : Response := {| status := st; body := b |}.

Definition Handler : Type := Db -> Response * Db.

(** A handler that answers without touching the database. *)
Definition respond (r : Response) : Handler := fun db => (r, db).

Definition server_error : Response := json 500 (Message "Server error").

(** ** routes/watchlist *)

(** [authHeader && authHeader.split(' ')[1]] *)
Definition header_token (authHeader : option string) : option string :=
  match authHeader with
  | None => None
  | Some h => if (h =? "")%string then Some h else js_index (split " " h) 1
  end.

Section Routes.
Context {L : Libs}.

Definition authenticateToken (env : Env) (now : Z) (req : Request)
    (next : Request -> Handler) : Handler :=
  let token := header_token (authorization req) in
  match token with
  | Some tok =>
      if (tok =? "")%string
      then respond (json 401 (Message "Access token required"))
      else match jwt_verify tok (jwt_secret env) now with
           | None => respond (json 403 (Message "Invalid or expired token"))
           | Some u => next (set_user u req)
           end
  | None => respond (json 401 (Message "Access token required"))
  end.

(** [req.user.userId]; reading it off a missing [req.user] throws. *)
Definition req_user_userId (req : Request) : M Z :=
  match user req with
  | Some u => ret (userId (payload u))
  | None => throw "TypeError"
  end.

Definition view_item (item : WatchlistItem.t) : WatchlistView :=
  {| v_symbol := WatchlistItem.symbol item;
     v_name := WatchlistItem.name item;
     v_isFavorite := WatchlistItem.is_favorite item;
     v_addedAt := WatchlistItem.added_at item |}.

(** [router.get('/')] *)
Definition get_watchlist (env : Env) (now : Z) (req : Request) : Handler :=
  authenticateToken env now req (fun req =>
    try_catch
      (userId <- req_user_userId req ;;
       rows <- select_watchlist userId ;;
       ret (json 200 (WatchlistBody (map view_item rows))))
      server_error).

(** [router.post('/add')] *)
Definition post_add (env : Env) (now : Z) (req : Request) : Handler :=
  authenticateToken env now req (fun req =>
    try_catch
      (userId <- req_user_userId req ;;
       match body_symbol req, body_name req with
       | Some symbol, Some name =>
           if (symbol =? "")%string || (name =? "")%string
           then ret (json 400 (Message "Symbol and name are required"))
           else
             existing <- select_watchlist_item userId symbol ;;
             if 0 <? Z.of_nat (List.length existing)
             then ret (json 400 (Message "Stock already in watchlist"))
             else
               insert_watchlist now userId symbol name ;;;
               ret (json 201 (Message "Stock added to watchlist"))
       | _, _ => ret (json 400 (Message "Symbol and name are required"))
       end)
      server_error).

(** What is left of [post_add] once its SELECT has come back empty: the
    INSERT and the answer, inside the handler's [try]/[catch].  The
    handler awaits each statement, so other requests' statements can run
    between the SELECT and this. *)
Definition post_add_insert (now userId : Z) (symbol name : string) : Handler :=
  try_catch
    (insert_watchlist now userId symbol name ;;;
     ret (json 201 (Message "Stock added to watchlist")))
    server_error.

(** [router.put('/favorite/:symbol')] *)
Definition put_favorite (env : Env) (now : Z) (req : Request) : Handler :=
  authenticateToken env now req (fun req =>
    try_catch
      (userId <- req_user_userId req ;;
       let symbol := params_symbol req in
       match body_isFavorite req with
       | JBool isFavorite =>
           affectedRows <- update_favorite isFavorite userId symbol ;;
           if affectedRows =? 0
           then ret (json 404 (Message "Stock not found in watchlist"))
           else ret (json 200 (Message
                  ("Stock " ++ (if isFavorite then "favorited" else "unfavorited")
                            ++ " successfully")))
       | _ => ret (json 400 (Message "isFavorite must be a boolean"))
       end)
      server_error).

(** [router.delete('/remove/:symbol')] *)
Definition delete_remove (env : Env) (now : Z) (req : Request) : Handler :=
  authenticateToken env now req (fun req =>
    try_catch
      (userId <- req_user_userId req ;;
       let symbol := params_symbol req in
       delete_watchlist userId symbol ;;;
       ret (json 200 (Message "Stock removed from watchlist")))
      server_error).

(** ** routes/auth-db *)

(** express-validator reads a missing field as the empty string. *)
Definition field (o : option string) : string :=
  match o with Some s => s | None => "" end.

(** [validationResult(req)] of a chain: the names of the fields that fail. *)
Definition failing (checks : list (string * bool)) : list string :=
  map fst (filter (fun c => negb (snd c)) checks).

Definition is_empty {A} (l : list A) : bool :=
  match l with [] => true | _ => false end.

Definition public_view (u : User.t) : UserView :=
  {| v_id := User.id u; v_email := User.email u;
     v_user_name := User.name u; v_picture := Absent |}.

(** [router.post('/register')]; [salt] is what [bcrypt.genSalt(10)] draws.
    [isLength] counts the characters of the password; [String.length]
    counts its bytes, the same number for a password of ASCII
    characters. *)
Definition post_register (env : Env) (now : Z) (salt : string) (req : Request) : Handler :=
  let errors :=
    failing [("email", isEmail (field (body_email req)));
             ("password", 6 <=? Z.of_nat (String.length (field (body_password req))))] in
  if negb (is_empty errors) then respond (json 400 (Errors errors))
  else
    let email := normalizeEmail (field (body_email req)) in
    let password := field (body_password req) in
    let name := option_map trim (body_name req) in
    try_catch
      (existingUsers <- select_users_by_email email ;;
       if 0 <? Z.of_nat (List.length existingUsers)
       then ret (json 400 (Message "User already exists with this email"))
       else
         let hashedPassword := bcrypt_hash password salt in
         insertId <- insert_user now email hashedPassword (or_null name) ;;
         newUserRows <- select_users_by_id insertId ;;
         match js_index newUserRows 0 with
         | None => throw "TypeError"
         | Some newUser =>
             let token :=
               jwt_sign {| userId := User.id newUser; email := User.email newUser;
                           googleId := Absent |}
                        (jwt_secret env) seven_days now in
             ret (json 201 (AuthBody "User created successfully" token
                                     (public_view newUser)))
         end)
      server_error.

(** [router.post('/login')] on a body whose password is a string or
    missing. *)
Definition post_login (env : Env) (now : Z) (req : Request) : Handler :=
  let errors :=
    failing [("email", isEmail (field (body_email req)));
             ("password", match body_password req with Some _ => true | None => false end)] in
  if negb (is_empty errors) then respond (json 400 (Errors errors))
  else
    let email := normalizeEmail (field (body_email req)) in
    let password := field (body_password req) in
    try_catch
      (rows <- select_users_by_email email ;;
       match rows with
       | [] => ret (json 401 (Message "Invalid credentials"))
       | user :: _ =>
           if negb (truthy (User.password user))
           then ret (json 401 (Message "Please sign in with Google"))
           else
             let isMatch := bcrypt_compare password (field (User.password user)) in
             if negb isMatch
             then ret (json 401 (Message "Invalid credentials"))
             else
               let token :=
                 jwt_sign {| userId := User.id user; email := User.email user;
                             googleId := Absent |}
                          (jwt_secret env) seven_days now in
               ret (json 200 (AuthBody "Login successful" token (public_view user)))
       end)
      server_error.

(** [router.post('/login')] for any JSON value in the [password] field of
    the body; [req] gives the rest of the request, and its own password
    field is not read.  [exists()] passes for every value but
    [undefined].  [bcrypt.compare] rejects a password that is not a
    string ("Illegal arguments"), which the handler's [catch] turns into
    the 500 answer. *)
Definition post_login_json (env : Env) (now : Z) (req : Request)
    (password : JsValue) : Handler :=
  let errors :=
    failing [("email", isEmail (field (body_email req)));
             ("password", is_defined password)] in
  if negb (is_empty errors) then respond (json 400 (Errors errors))
  else
    let email := normalizeEmail (field (body_email req)) in
    try_catch
      (rows <- select_users_by_email email ;;
       match rows with
       | [] => ret (json 401 (Message "Invalid credentials"))
       | user :: _ =>
           if negb (truthy (User.password user))
           then ret (json 401 (Message "Please sign in with Google"))
           else
             isMatch <-
               match password with
               | JStr password =>
                   ret (bcrypt_compare password (field (User.password user)))
               | _ => throw "Illegal arguments"
               end ;;
             if negb isMatch
             then ret (json 401 (Message "Invalid credentials"))
             else
               let token :=
                 jwt_sign {| userId := User.id user; email := User.email user;
                             googleId := Absent |}
                          (jwt_secret env) seven_days now in
               ret (json 200 (AuthBody "Login successful" token (public_view user)))
       end)
      server_error.

(** ** routes/google-auth-db *)

Definition google_view (u : User.t) : UserView :=
  {| v_id := User.id u; v_email := User.email u;
     v_user_name := User.name u; v_picture := Present (User.picture u) |}.

(** [router.post('/google')] *)
Definition post_google (env : Env) (now : Z) (req : Request) : Handler :=
  try_catch
    (if negb (truthy (body_credential req))
     then ret (json 400 (Message "No credential provided"))
     else
       match verifyIdToken (field (body_credential req)) (GOOGLE_CLIENT_ID env) with
       | VerifyThrows => throw "verifyIdToken"
       | NoPayload => ret (json 400 (Message "Invalid token"))
       | WithPayload payload =>
           let googleId := sub payload in
           let name := g_name payload in
           let picture := g_picture payload in
           if negb (truthy (g_email payload))
           then ret (json 400 (Message "Email not provided by Google"))
           else
             let email := field (g_email payload) in
             rows <- select_users_by_google_or_email googleId email ;;
             user <-
               match rows with
               | [] =>
                   insertId <- insert_google_user now email googleId name picture ;;
                   newUserRows <- select_users_by_id insertId ;;
                   match js_index newUserRows 0 with
                   | None => throw "TypeError"
                   | Some user => ret user
                   end
               | user :: _ =>
                   if negb (truthy (User.google_id user))
                   then
                     update_google googleId name picture (User.id user) ;;;
                     ret (link_google (Some googleId) (or_null name)
                                      (or_null picture) user)
                   else ret user
               end ;;
             let token :=
               jwt_sign {| userId := User.id user; email := User.email user;
                           googleId := Present (User.google_id user) |}
                        (jwt_secret env) seven_days now in
             ret (json 200 (AuthBody "Google login successful" token
                                     (google_view user)))
       end)
    server_error.

End Routes.

(** The four watchlist operations behind the middleware. *)
Inductive WatchlistOp := List | Add | ToggleFavorite | Remove.

Definition run_op {L : Libs} (op : WatchlistOp) : Env -> Z -> Request -> Handler :=
  match op with
  | List => get_watchlist
  | Add => post_add
  | ToggleFavorite => put_favorite
  | Remove => delete_remove
  end.

(** The three routes that issue a token. *)
Inductive AuthOp := Register (salt : string) | Login | LoginWithExternalIdentity.

Definition run_auth {L : Libs} (op : AuthOp) : Env -> Z -> Request -> Handler :=
  match op with
  | Register salt => fun env now => post_register env now salt
  | Login => post_login
  | LoginWithExternalIdentity => post_google
  end.

(** ** A reference implementation of the libraries

    Tokens are a self-delimiting text rendering of the payload, the two
    time claims and the signing key; [%] escapes the characters the
    rendering reserves, so a token never contains a space. *)
Module Ref.

Definition escape_char (c : ascii) : string :=
  if Ascii.eqb c " " then "%s"
  else if Ascii.eqb c "%" then "%%"
  else String c EmptyString.

Fixpoint enc_str (s : string) : string :=
  match s with
  | EmptyString => "%e"
  | String c rest => escape_char c ++ enc_str rest
  end.

Definition cons_fst (c : ascii) (r : option (string * string)) : option (string * string) :=
  match r with
  | Some (s, rest) => Some (String c s, rest)
  | None => None
  end.

Fixpoint dec_str (s : string) : option (string * string) :=
  match s with
  | EmptyString => None
  | String c rest =>
      if Ascii.eqb c "%" then
        match rest with
        | String d rest' =>
            if Ascii.eqb d "e" then Some (EmptyString, rest')
            else if Ascii.eqb d "s" then cons_fst " " (dec_str rest')
            else if Ascii.eqb d "%" then cons_fst "%" (dec_str rest')
            else None
        | EmptyString => None
        end
      else if Ascii.eqb c " " then None
      else cons_fst c (dec_str rest)
  end.

Fixpoint enc_pos (p : positive) : string :=
  match p with
  | xH => "."
  | xO q => String "0" (enc_pos q)
  | xI q => String "1" (enc_pos q)
  end.

Definition map_fst {A B} (f : A -> B) (r : option (A * string)) : option (B * string) :=
  match r with
  | Some (a, rest) => Some (f a, rest)
  | None => None
  end.

Fixpoint dec_pos (s : string) : option (positive * string) :=
  match s with
  | EmptyString => None
  | String c rest =>
      if Ascii.eqb c "." then Some (xH, rest)
      else if Ascii.eqb c "0" then map_fst xO (dec_pos rest)
      else if Ascii.eqb c "1" then map_fst xI (dec_pos rest)
      else None
  end.

Definition enc_Z (z : Z) : string :=
  match z with
  | Z0 => "z"
  | Zpos p => String "p" (enc_pos p)
  | Zneg p => String "n" (enc_pos p)
  end.

Definition dec_Z (s : string) : option (Z * string) :=
  match s with
  | EmptyString => None
  | String c rest =>
      if Ascii.eqb c "z" then Some (0, rest)
      else if Ascii.eqb c "p" then map_fst Zpos (dec_pos rest)
      else if Ascii.eqb c "n" then map_fst Zneg (dec_pos rest)
      else None
  end.

Definition enc_claim (g : Claim (option string)) : string :=
  match g with
  | Absent => "a"
  | Present None => "n"
  | Present (Some s) => String "s" (enc_str s)
  end.

Definition dec_claim (s : string) : option (Claim (option string) * string) :=
  match s with
  | EmptyString => None
  | String c rest =>
      if Ascii.eqb c "a" then Some (Absent, rest)
      else if Ascii.eqb c "n" then Some (Present None, rest)
      else if Ascii.eqb c "s" then map_fst (fun x => Present (Some x)) (dec_str rest)
      else None
  end.

Definition sign (p : JwtPayload) (key : string) (expiresIn now : Z) : string :=
  enc_Z (userId p) ++ enc_str (email p) ++ enc_claim (googleId p)
    ++ enc_Z now ++ enc_Z (now + expiresIn) ++ enc_str key.

Definition then_dec {A B} (r : option (A * string))
    (k : A -> string -> option B) : option B :=
  match r with
  | Some (a, rest) => k a rest
  | None => None
  end.

Definition verify (token key : string) (now : Z) : option Decoded :=
  then_dec (dec_Z token) (fun uid s1 =>
  then_dec (dec_str s1) (fun em s2 =>
  then_dec (dec_claim s2) (fun g s3 =>
  then_dec (dec_Z s3) (fun issued s4 =>
  then_dec (dec_Z s4) (fun expires s5 =>
  then_dec (dec_str s5) (fun k s6 =>
    if (s6 =? "")%string && (k =? key)%string && (now <? expires)
    then Some {| payload := {| userId := uid; email := em; googleId := g |};
                 iat := issued; exp := expires |}
    else None)))))).

(** Google's verifier, for two known identity tokens. *)
Definition verify_id_token (idToken : string) (audience : option string) : Ticket :=
  if (idToken =? "id-token-of-alice")%string then
    WithPayload {| sub := "g-alice"; g_email := Some "alice@example.com";
                   g_name := Some "Alice"; g_picture := Some "alice.png" |}
  else if (idToken =? "id-token-without-email")%string then
    WithPayload {| sub := "g-nobody"; g_email := None;
                   g_name := None; g_picture := None |}
  else VerifyThrows.

End Ref.

Definition RefLibs : Libs := {|
  jwt_sign := Ref.sign;
  jwt_verify := Ref.verify;
  bcrypt_hash := fun password salt => String "$" password;
  bcrypt_compare := fun password hash => (hash =? String "$" password)%string;
  isEmail := has_char "@";
  normalizeEmail := fun e => e;
  trim := fun s => s;
  verifyIdToken := Ref.verify_id_token
|}.

(** ** What the middleware decides

    [verified_user] is the identity a request carries: the claims its
    token verifies to, if it has a token and the token verifies. *)
Definition verified_user {L : Libs} (env : Env) (now : Z) (req : Request) : option Decoded :=
  match header_token (authorization req) with
  | Some tok => if (tok =? "")%string then None else jwt_verify tok (jwt_secret env) now
  | None => None
  end.

(** The rows of the watchlist that do not belong to [uid]. *)
Definition others (uid : Z) (ws : list WatchlistItem.t) : list WatchlistItem.t :=
  filter (fun w => negb (owns uid w)) ws.

(** The statements a handler added to the log. *)
Definition ran (db db' : Db) (qs : list Stmt) : Prop :=
  executed db' = (executed db ++ qs)%list.

(** The specification's order on entries: favorites first, then most
    recently added first. *)
Definition fav_then_recent (a b : WatchlistItem.t) : Prop :=
  (WatchlistItem.is_favorite a = true /\ WatchlistItem.is_favorite b = false) \/
  (WatchlistItem.is_favorite a = WatchlistItem.is_favorite b /\
   WatchlistItem.added_at b <= WatchlistItem.added_at a).

(** An entry of the List response shows a row: each of its four fields is
    the row's column. *)
Definition shows (v : WatchlistView) (w : WatchlistItem.t) : Prop :=
  v_symbol v = WatchlistItem.symbol w /\
  v_name v = WatchlistItem.name w /\
  v_isFavorite v = WatchlistItem.is_favorite w /\
  v_addedAt v = WatchlistItem.added_at w.

(** The specification's order, read on the entries of the response. *)
Definition listed_before (a b : WatchlistView) : Prop :=
  (v_isFavorite a = true /\ v_isFavorite b = false) \/
  (v_isFavorite a = v_isFavorite b /\ v_addedAt b <= v_addedAt a).

(** The request passes the validation chain of Login / of Register. *)
Definition login_valid {L : Libs} (req : Request) : bool :=
  isEmail (field (body_email req)) &&
  match body_password req with Some _ => true | None => false end.

Definition register_valid {L : Libs} (req : Request) : bool :=
  isEmail (field (body_email req)) &&
  (6 <=? Z.of_nat (String.length (field (body_password req)))).

(** The row Register inserts into a table whose counter stands at [i]. *)
Definition registered_row {L : Libs} (now : Z) (salt : string) (req : Request)
    (i : Z) : User.t :=
  {| User.id := i;
     User.email := normalizeEmail (field (body_email req));
     User.password := Some (bcrypt_hash (field (body_password req)) salt);
     User.google_id := None;
     User.name := or_null (option_map trim (body_name req));
     User.picture := None; User.created_at := now |}.

(** The user Login looks at: the first row with the normalised email. *)
Definition matched_user {L : Libs} (req : Request) (db : Db) : option User.t :=
  js_index (filter (has_email (normalizeEmail (field (body_email req)))) (users db)) 0.

Definition unknown_email {L : Libs} (req : Request) (db : Db) : Prop :=
  matched_user req db = None.

(** No password hash: the column is NULL (or empty, which [!user.password]
    does not tell apart). *)
Definition no_password_hash {L : Libs} (req : Request) (db : Db) : Prop :=
  exists user, matched_user req db = Some user /\ truthy (User.password user) = false.

(** The same for a body whose [password] field is the JSON value
    [password]. *)
Definition login_valid_json {L : Libs} (req : Request) (password : JsValue) : bool :=
  isEmail (field (body_email req)) && is_defined password.

(** The hash comparison fails: the password is a string that the stored
    hash does not match. *)
Definition password_mismatch {L : Libs} (req : Request) (password : JsValue)
    (db : Db) : Prop :=
  exists user s, matched_user req db = Some user /\
    truthy (User.password user) = true /\
    password = JStr s /\
    bcrypt_compare s (field (User.password user)) = false.

(** The email is that of an account with a password hash. *)
Definition known_with_hash {L : Libs} (req : Request) (db : Db) : Prop :=
  exists user, matched_user req db = Some user /\ truthy (User.password user) = true.

(** The claims each route signs. *)
Definition issued_claims (op : AuthOp) : list string :=
  match op with
  | LoginWithExternalIdentity => ["userId"; "email"; "googleId"]
  | _ => ["userId"; "email"]
  end.

(** A user row after a transition still has the credentials it had: the
    same password hash, and the same Google id when it had one
    ([!user.google_id] false). *)
Definition keeps_credentials (x x' : User.t) : Prop :=
  User.id x' = User.id x /\
  User.email x' = User.email x /\
  User.password x' = User.password x /\
  (User.google_id x <> None -> User.google_id x' <> None) /\
  (truthy (User.google_id x) = true -> User.google_id x' = User.google_id x).

(** Every row of [us] is still there in [us'], in place, with its
    credentials; [us'] may have new rows after them. *)
Definition users_kept (us us' : list User.t) : Prop :=
  exists kept added, us' = (kept ++ added)%list /\ Forall2 keeps_credentials us kept.

(** Every user id is below the counter the next insert will use. *)
Definition ids_below_counter (db : Db) : Prop :=
  Forall (fun u => User.id u < users_next db) (users db).

(** What [post_add] does for user [u] at time [now], by cases on the body
    and the table. *)
Inductive AddCase (now u : Z) (db : Db) : Response * Db -> Prop :=
| AddMissing :
    AddCase now u db (json 400 (Message "Symbol and name are required"), db)
| AddDuplicate s :
    AddCase now u db (json 400 (Message "Stock already in watchlist"),
                      record_stmt (SelectWatchlistItem u s) db)
| AddInserted s n :
    AddCase now u db
      (json 201 (Message "Stock added to watchlist"),
       set_watchlist
         (watchlist db ++
          [{| WatchlistItem.id := watchlist_next db;
              WatchlistItem.user_id := u;
              WatchlistItem.symbol := s;
              WatchlistItem.name := n;
              WatchlistItem.is_favorite := false;
              WatchlistItem.added_at := now |}])
         (watchlist_next db + 1)
         (record_stmt (InsertWatchlist u s n)
            (record_stmt (SelectWatchlistItem u s) db))).

(** The specification's wording for the token: the substring after the
    first space of the header. *)
Fixpoint after_first_space (h : string) : option string :=
  match h with
  | EmptyString => None
  | String c rest => if Ascii.eqb c " " then Some rest else after_first_space rest
  end.

(** ** The earlier, in-memory routers (routes/auth and routes/google-auth)

    They keep their users in a module-level array instead of the
    database, and sign tokens whose userId is a string. *)
Module InMemory.

(** The payload these routers sign: [{ userId, email }], with [name] in
    the Google router. *)
Record Claims := {
  userId : string;
  email : string;
  name : Claim string
}.

Inductive Body :=
| Message (message : string)
| Errors (fields : list string)
| Auth (message token id email : string) (name : Claim string)
       (picture : Claim (option string)).

Record Response := {
  status : Z;
  body : Body
}.

Definition json (st : Z) (b : Body) : Response := {| status := st; body := b |}.

(** routes/auth: [interface User] and the pre-defined credentials. *)
Record User := {
  id : string;
  u_email : string;
  password : string;
  createdAt : Z
}.

Definition users (loaded : Z) : list User :=
  [ {| id := "1";
       u_email := "admin@tinvest.com";
       password := "$2a$10$92IXUNpkjO0rOQ5byMi.Ye4oKoEa3Ro9llC/.og/at2.uheWG/igi";
       createdAt := loaded |} ].

(** routes/google-auth: [interface User]. *)
Record GoogleUser := {
  g_id : string;
  g_mail : string;
  g_user_name : string;
  g_pic : option string;
  googleId : string;
  g_createdAt : Z
}.

(** [users.find(pred)] *)
Definition find {A} (pred : A -> bool) (l : list A) : option A := List.find pred l.

Section Routers.
Context {L : Libs}.
(* jsonwebtoken on these payloads: sign payload secret expiresIn(seconds) now *)
Variable sign : Claims -> string -> Z -> Z -> string.
(* Number.prototype.toString *)
Variable toString : Z -> string.

(** routes/auth [router.post('/register')]: disabled. *)
Definition post_register (req : Request) : Response :=
  json 403 (Message
    "Registration is currently disabled. Please contact admin for access.").

(** [try { m } catch (error) { h }] in a handler without a database:
    [None] is a throw inside [m]. *)
Definition try_catch (m : option Response) (h : Response) : Response :=
  match m with Some r => r | None => h end.

(** routes/auth [router.post('/login')] for any JSON value in the
    [password] field of the body; [req] gives the rest of the request,
    [now] is in seconds.  [bcrypt.compare] rejects a password that is not
    a string, and the [catch] answers 500. *)
Definition post_login (env : Env) (loaded now : Z) (req : Request)
    (password : JsValue) : Response :=
  let errors :=
    failing [("email", isEmail (field (body_email req)));
             ("password", is_defined password)] in
  if negb (is_empty errors) then json 400 (Errors errors)
  else
    let email := normalizeEmail (field (body_email req)) in
    try_catch
      match find (fun u => (u_email u =? email)%string) (users loaded) with
      | None => Some (json 401 (Message "Invalid credentials"))
      | Some user =>
          match password with
          | JStr password =>
              let isMatch := bcrypt_compare password (InMemory.password user) in
              if negb isMatch then Some (json 401 (Message "Invalid credentials"))
              else
                let token :=
                  sign {| userId := id user; email := u_email user; name := Absent |}
                       (jwt_secret env) seven_days now in
                Some (json 200 (Auth "Login successful" token (id user) (u_email user)
                                     Absent Absent))
          | _ => None
          end
      end
      (json 500 (Message "Server error")).

(** routes/google-auth [router.post('/google')] on the array [users];
    [now_ms] is [Date.now()]. *)
Definition post_google (env : Env) (now_ms : Z) (req : Request)
    (users : list GoogleUser) : Response * list GoogleUser :=
  if negb (truthy (body_credential req))
  then (json 400 (Message "No credential provided"), users)
  else
    match verifyIdToken (field (body_credential req)) (GOOGLE_CLIENT_ID env) with
    | VerifyThrows => (json 500 (Message "Authentication failed"), users)
    | NoPayload => (json 400 (Message "Invalid token"), users)
    | WithPayload payload =>
        if negb (truthy (g_email payload))
        then (json 400 (Message "Email not provided by Google"), users)
        else
          let email := field (g_email payload) in
          let answer user users :=
            (json 200 (Auth "Login successful"
                         (sign {| userId := g_id user; email := g_mail user;
                                  name := Present (g_user_name user) |}
                               (jwt_secret env) seven_days (now_ms / 1000))
                         (g_id user) (g_mail user) (Present (g_user_name user))
                         (match g_pic user with
                          | Some pic => Present (Some pic)
                          | None => Absent
                          end)),
             users) in
          match find (fun u => (googleId u =? sub payload)%string) users with
          | Some user => answer user users
          | None =>
              let user :=
                {| g_id := toString now_ms;
                   g_mail := email;
                   g_user_name := js_or (g_name payload) email;
                   g_pic := g_picture payload;
                   googleId := sub payload;
                   g_createdAt := now_ms |} in
              answer user (users ++ [user])%list
          end
    end.

End Routers.
End InMemory.

(** ** The watchlist page (client) and the chart's time ranges *)

Fixpoint all_chars (p : ascii -> bool) (s : string) : bool :=
  match s with
  | EmptyString => true
  | String c rest => p c && all_chars p rest
  end.

(** A character that a URL path segment carries as it is, and that
    [decodeURIComponent] gives back as it is: a letter, a digit or one of
    [-], [.], [_], [~]. *)
Definition unreserved (c : ascii) : bool :=
  let n := Z.of_N (N_of_ascii c) in
  ((48 <=? n) && (n <=? 57)) || ((65 <=? n) && (n <=? 90)) ||
  ((97 <=? n) && (n <=? 122)) ||
  Ascii.eqb c "-" || Ascii.eqb c "." || Ascii.eqb c "_" || Ascii.eqb c "~".

(** A symbol that, put into the path as it is, reaches the route as its
    [:symbol] parameter: not empty, not a dot segment, unreserved
    characters only. *)
Definition url_plain (symbol : string) : bool :=
  negb (symbol =? "")%string && negb (symbol =? ".")%string &&
  negb (symbol =? "..")%string && all_chars unreserved symbol.

(** An element of the page's [watchlistStocks] state. *)
Record WatchedStock := {
  c_symbol : string;
  c_name : string;
  c_isFavorite : bool
}.

(** What [fetchUserWatchlist] keeps of an item of the List response. *)
Definition watched (item : WatchlistView) : WatchedStock :=
  {| c_symbol := v_symbol item; c_name := v_name item;
     c_isFavorite := v_isFavorite item |}.

(** The request [toggleFavorite(symbol, currentFavorite)] sends.  The page
    puts the symbol into the URL [/favorite/${symbol}] without encoding
    it, so only a [url_plain] symbol is what the route reads as
    [req.params.symbol]; what the server receives for another symbol (a
    cut, decoded or differently routed path) is not modelled: [None]. *)
Definition toggle_request (token symbol : string) (currentFavorite : bool)
    : option Request :=
  if url_plain symbol
  then Some {| authorization := Some ("Bearer " ++ token); params_symbol := symbol;
               body_symbol := None; body_name := None;
               body_isFavorite := JBool (negb currentFavorite);
               body_email := None; body_password := None; body_credential := None;
               user := None |}
  else None.

(** [response.ok] *)
Definition response_ok (r : Response) : bool := (200 <=? status r) && (status r <=? 299).

(** The page's state after [toggleFavorite]: updated in place when the
    server said ok, left alone otherwise. *)
Definition after_toggle (r : Response) (symbol : string) (currentFavorite : bool)
    (prev : list WatchedStock) : list WatchedStock :=
  if response_ok r
  then map (fun stock =>
              if (c_symbol stock =? symbol)%string
              then {| c_symbol := c_symbol stock; c_name := c_name stock;
                      c_isFavorite := negb currentFavorite |}
              else stock) prev
  else prev.

(** The chart's [timeRange]. *)
Inductive TimeRange := R1D | R5D | R1M | R6M | RYTD | R1Y | R5Y.

(** [cutoffDate] in [filterDataByTimeRange]; [now] is [Date.now()] and
    [yearStart] the first instant of the current year, both in ms. *)
Definition cutoffDate (now yearStart : Z) (timeRange : TimeRange) : Z :=
  match timeRange with
  | R1D => now - 86400000
  | R5D => now - 432000000
  | R1M => now - 2592000000
  | R6M => now - 15552000000
  | RYTD => yearStart
  | R1Y => now - 31536000000
  | R5Y => now - 157680000000
  end.

(** [filterDataByTimeRange(data)], for points whose timestamp is a number
    of milliseconds. *)
Definition filterDataByTimeRange {A} (timestamp : A -> Z) (now yearStart : Z)
    (timeRange : TimeRange) (data : list A) : list A :=
  filter (fun point => cutoffDate now yearStart timeRange <=? timestamp point) data.

(** ** Vocabulary for the tables' invariants *)

(** The pair that identifies a watchlist entry. *)
Definition entry_key (w : WatchlistItem.t) : Z * string :=
  (WatchlistItem.user_id w, WatchlistItem.symbol w).

(** No (user, symbol) pair occurs twice. *)
Definition unique_entries (db : Db) : Prop :=
  NoDup (map entry_key (watchlist db)).

(** Watchlist row ids are distinct and below the counter. *)
Definition watchlist_ids_ok (db : Db) : Prop :=
  NoDup (map WatchlistItem.id (watchlist db)) /\
  Forall (fun w => WatchlistItem.id w < watchlist_next db) (watchlist db).

(** User ids are distinct and below the counter. *)
Definition user_ids_ok (db : Db) : Prop :=
  NoDup (map User.id (users db)) /\
  Forall (fun u => User.id u < users_next db) (users db).

(** No email occurs twice. *)
Definition unique_emails (db : Db) : Prop :=
  NoDup (map User.email (users db)).

(** Every character of [s] is an ASCII character, so that the characters
    of the JavaScript string are the bytes of [s]. *)
Definition ascii_only (s : string) : bool :=
  all_chars (fun c => Z.of_N (N_of_ascii c) <? 128) s.

(** The row can sign in one way or the other. *)
Definition has_credential (u : User.t) : Prop :=
  User.password u <> None \/ User.google_id u <> None.

(** An Add request for [symbol] and [name]. *)
Definition asks_to_add (req : Request) (symbol name : string) : Prop :=
  body_symbol req = Some symbol /\ body_name req = Some name /\
  symbol <> "" /\ name <> "".

(** ** A small deployment to run the handlers on *)
Module Sample.

Definition env : Env :=
  {| JWT_SECRET := None; GOOGLE_CLIENT_ID := Some "tinvest-client" |}.

(** A password account and an account made by a Google login. *)
Definition alice : User.t :=
  {| User.id := 1; User.email := "alice@example.com";
     User.password := Some "$hunter22"; User.google_id := None;
     User.name := Some "Alice"; User.picture := None; User.created_at := 10 |}.

Definition bob : User.t :=
  {| User.id := 2; User.email := "bob@example.com";
     User.password := None; User.google_id := Some "g-bob";
     User.name := Some "Bob"; User.picture := Some "bob.png";
     User.created_at := 20 |}.

Definition aapl : WatchlistItem.t :=
  {| WatchlistItem.id := 1; WatchlistItem.user_id := 1;
     WatchlistItem.symbol := "AAPL"; WatchlistItem.name := "Apple Inc.";
     WatchlistItem.is_favorite := false; WatchlistItem.added_at := 100 |}.

Definition msft : WatchlistItem.t :=
  {| WatchlistItem.id := 2; WatchlistItem.user_id := 1;
     WatchlistItem.symbol := "MSFT"; WatchlistItem.name := "Microsoft";
     WatchlistItem.is_favorite := true; WatchlistItem.added_at := 200 |}.

Definition tsla : WatchlistItem.t :=
  {| WatchlistItem.id := 3; WatchlistItem.user_id := 2;
     WatchlistItem.symbol := "TSLA"; WatchlistItem.name := "Tesla";
     WatchlistItem.is_favorite := false; WatchlistItem.added_at := 300 |}.

Definition db : Db :=
  {| users := [alice; bob]; users_next := 3;
     watchlist := [aapl; msft; tsla]; watchlist_next := 4;
     executed := [] |}.

Definition alice_claims : JwtPayload :=
  {| userId := 1; email := "alice@example.com"; googleId := Absent |}.

(** The token Login hands alice at time 1000. *)
Definition alice_token : string :=
  Eval vm_compute in Ref.sign alice_claims "your-secret-key" seven_days 1000.

Definition alice_decoded : Decoded :=
  {| payload := alice_claims; iat := 1000; exp := 1000 + seven_days |}.

(** A request with nothing but an Authorization header, a route parameter
    and an [isFavorite] field. *)
Definition watch_request (auth : option string) (symbol : string)
    (isFavorite : JsValue) : Request :=
  {| authorization := auth; params_symbol := symbol;
     body_symbol := None; body_name := None; body_isFavorite := isFavorite;
     body_email := None; body_password := None; body_credential := None;
     user := None |}.

(** A request to the auth routes. *)
Definition auth_request (mail pass credential : option string) : Request :=
  {| authorization := None; params_symbol := "";
     body_symbol := None; body_name := None; body_isFavorite := JUndefined;
     body_email := mail; body_password := pass; body_credential := credential;
     user := None |}.

Definition as_alice : option string := Some ("Bearer " ++ alice_token).

End Sample.

(** More of the sample deployment. *)
Module More.

Definition add_request (auth symbol name : option string) : Request :=
  {| authorization := auth; params_symbol := "";
     body_symbol := symbol; body_name := name; body_isFavorite := JUndefined;
     body_email := None; body_password := None; body_credential := None;
     user := None |}.

Definition add_nvda : Request :=
  add_request Sample.as_alice (Some "NVDA") (Some "NVIDIA Corporation").

Definition list_request : Request := Sample.watch_request Sample.as_alice "" JUndefined.


Definition alice_linked : User.t :=
  {| User.id := 1; User.email := "alice@example.com";
     User.password := Some "$hunter22"; User.google_id := Some "g-alice";
     User.name := Some "Alice"; User.picture := Some "alice.png";
     User.created_at := 10 |}.

Definition db_linked : Db :=
  {| users := [alice_linked; Sample.bob]; users_next := 3;
     watchlist := [Sample.aapl; Sample.msft; Sample.tsla]; watchlist_next := 4;
     executed := [] |}.

Definition alice_google : GooglePayload :=
  {| sub := "g-alice"; g_email := Some "alice@example.com";
     g_name := Some "Alice"; g_picture := Some "alice.png" |}.

Definition google_request : Request :=
  Sample.auth_request None None (Some "id-token-of-alice").

Definition dave_request : Request :=
  Sample.auth_request (Some "dave@example.com") (Some "hunter22") None.

(** The in-memory routers' token and number printing, for running them. *)
Definition sign (c : InMemory.Claims) (key : string) (expiresIn now : Z) : string :=
  InMemory.userId c ++ "." ++ InMemory.email c.

Definition toString (n : Z) : string := Ref.enc_Z n.

End More.

(** * Properties *)

(** ** The middleware *)

Section Middleware.
Context {L : Libs}.
Variables (env : Env) (now : Z).

Lemma auth_accepts req d next :
  verified_user env now req = Some d ->
  authenticateToken env now req next = next (set_user d req).
Proof.
  unfold verified_user, authenticateToken.
  destruct (header_token (authorization req)) as [tok|]; [|discriminate].
  destruct (tok =? "")%string; [discriminate|].
  intros ->. reflexivity.
Qed.

Lemma auth_rejects req next db :
  verified_user env now req = None ->
  exists r, authenticateToken env now req next db = (r, db) /\
            (status r = 401 \/ status r = 403).
Proof.
  unfold verified_user, authenticateToken, respond.
  destruct (header_token (authorization req)) as [tok|].
  - destruct (tok =? "")%string.
    + intros _. eexists; split; [reflexivity|]. now left.
    + intros ->. eexists; split; [reflexivity|]. now right.
  - intros _. eexists; split; [reflexivity|]. now left.
Qed.

End Middleware.

(** ** Lists and the watchlist table *)

Lemma others_app u l1 l2 : others u (l1 ++ l2) = (others u l1 ++ others u l2)%list.
Proof. apply filter_app. Qed.

Lemma others_own_row u l w :
  WatchlistItem.user_id w = u -> others u (l ++ [w]) = others u l.
Proof.
  intros H. rewrite others_app. simpl. unfold owns. rewrite H, Z.eqb_refl. simpl.
  apply app_nil_r.
Qed.

Lemma matches_owns u s w : matches u s w = true -> owns u w = true.
Proof. unfold matches. intros H. now apply andb_prop in H. Qed.

Lemma owns_set_favorite u b w : owns u (set_favorite b w) = owns u w.
Proof. reflexivity. Qed.

Lemma matches_set_favorite u s b w : matches u s (set_favorite b w) = matches u s w.
Proof. reflexivity. Qed.

Lemma others_update u s b l :
  others u (map (fun w => if matches u s w then set_favorite b w else w) l) = others u l.
Proof.
  induction l as [|w l IH]; simpl; [reflexivity|].
  destruct (matches u s w) eqn:E.
  - rewrite owns_set_favorite, (matches_owns _ _ _ E). simpl. exact IH.
  - destruct (owns u w); simpl; now rewrite IH.
Qed.

Lemma others_delete u s l :
  others u (filter (fun w => negb (matches u s w)) l) = others u l.
Proof.
  induction l as [|w l IH]; simpl; [reflexivity|].
  destruct (matches u s w) eqn:E; simpl.
  - rewrite (matches_owns _ _ _ E). simpl. exact IH.
  - destruct (owns u w); simpl; now rewrite IH.
Qed.

Lemma filter_none {A} (f : A -> bool) l :
  existsb f l = false -> filter f l = [].
Proof.
  induction l as [|a l IH]; simpl; [reflexivity|].
  destruct (f a); simpl; [discriminate|exact IH].
Qed.

Lemma filter_all {A} (f : A -> bool) l :
  existsb (fun a => negb (f a)) l = false -> filter f l = l.
Proof.
  induction l as [|a l IH]; simpl; [reflexivity|].
  destruct (f a); simpl; [|discriminate]. intros H. now rewrite IH.
Qed.

Lemma existsb_filter_nil {A} (f : A -> bool) l :
  existsb f l = false <-> filter f l = [].
Proof.
  split; [apply filter_none|].
  induction l as [|a l IH]; simpl; [reflexivity|].
  destruct (f a); simpl; [discriminate|exact IH].
Qed.

Lemma update_none u s b l :
  existsb (matches u s) l = false ->
  map (fun w => if matches u s w then set_favorite b w else w) l = l.
Proof.
  induction l as [|w l IH]; simpl; [reflexivity|].
  destruct (matches u s w); simpl; [discriminate|]. intros H. now rewrite IH.
Qed.

Lemma delete_none u s l :
  existsb (matches u s) l = false ->
  filter (fun w => negb (matches u s w)) l = l.
Proof.
  induction l as [|w l IH]; simpl; [reflexivity|].
  destruct (matches u s w); simpl; [discriminate|]. intros H. now rewrite IH.
Qed.

Lemma delete_twice u s l :
  filter (fun w => negb (matches u s w)) (filter (fun w => negb (matches u s w)) l)
  = filter (fun w => negb (matches u s w)) l.
Proof.
  induction l as [|w l IH]; simpl; [reflexivity|].
  destruct (matches u s w) eqn:E; simpl; [exact IH|].
  rewrite E. simpl. now rewrite IH.
Qed.

Lemma update_twice u s b l :
  let f := fun w => if matches u s w then set_favorite b w else w in
  map f (map f l) = map f l.
Proof.
  intros f. rewrite map_map. apply map_ext. intros w. unfold f.
  destruct (matches u s w) eqn:E.
  - now rewrite matches_set_favorite, E.
  - now rewrite E.
Qed.

Lemma update_keeps_matches u s b l :
  filter (matches u s) (map (fun w => if matches u s w then set_favorite b w else w) l)
  = map (set_favorite b) (filter (matches u s) l).
Proof.
  induction l as [|w l IH]; simpl; [reflexivity|].
  destruct (matches u s w) eqn:E.
  - rewrite matches_set_favorite, E. simpl. now rewrite IH.
  - rewrite E. exact IH.
Qed.

(** *** ORDER BY *)

Lemma order_before_true a b : order_before a b = true -> fav_then_recent a b.
Proof.
  unfold order_before, fav_then_recent.
  destruct (WatchlistItem.is_favorite a), (WatchlistItem.is_favorite b);
    intros H; try discriminate; auto; right; split; auto; lia.
Qed.

Lemma order_before_false a b : order_before a b = false -> fav_then_recent b a.
Proof.
  unfold order_before, fav_then_recent.
  destruct (WatchlistItem.is_favorite a), (WatchlistItem.is_favorite b);
    intros H; try discriminate; auto; right; split; auto; lia.
Qed.

Lemma fav_then_recent_trans a b c :
  fav_then_recent a b -> fav_then_recent b c -> fav_then_recent a c.
Proof.
  unfold fav_then_recent.
  intros [[H1 H2]|[H1 H2]] [[H3 H4]|[H3 H4]]; try congruence.
  - left. split; congruence.
  - left. split; congruence.
  - right. split; [congruence|lia].
Qed.

Lemma insert_row_perm a l : Permutation (insert_row a l) (a :: l).
Proof.
  induction l as [|b l IH]; simpl; [reflexivity|].
  destruct (order_before a b); [reflexivity|].
  rewrite IH. apply perm_swap.
Qed.

Lemma order_by_perm l : Permutation (order_by l) l.
Proof.
  induction l as [|a l IH]; simpl; [constructor|].
  rewrite insert_row_perm. now constructor.
Qed.

Lemma insert_row_sorted a l :
  StronglySorted fav_then_recent l -> StronglySorted fav_then_recent (insert_row a l).
Proof.
  induction 1 as [|b l Hs IH Hb]; simpl.
  - constructor; constructor.
  - destruct (order_before a b) eqn:E.
    + constructor; [now constructor|].
      constructor; [now apply order_before_true|].
      eapply Forall_impl; [|exact Hb].
      intros c Hc. eapply fav_then_recent_trans; [|exact Hc].
      now apply order_before_true.
    + constructor; [exact IH|].
      eapply Permutation_Forall.
      * symmetry. apply insert_row_perm.
      * constructor; [now apply order_before_false|exact Hb].
Qed.

Lemma order_by_sorted l : StronglySorted fav_then_recent (order_by l).
Proof.
  induction l as [|a l IH]; simpl; [constructor|now apply insert_row_sorted].
Qed.

(** ** The watchlist routes behind a verified token *)

Section Watchlist.
Context {L : Libs}.
Variables (env : Env) (now : Z) (req : Request) (d : Decoded).
Hypothesis verified : verified_user env now req = Some d.

Let u := userId (payload d).
Let sym := params_symbol req.

Lemma get_watchlist_run db :
  get_watchlist env now req db =
  (json 200 (WatchlistBody (map view_item (order_by (filter (owns u) (watchlist db))))),
   record_stmt (SelectWatchlist u) db).
Proof. unfold get_watchlist. now rewrite (auth_accepts _ _ _ _ _ verified). Qed.

Lemma delete_remove_run db :
  delete_remove env now req db =
  (json 200 (Message "Stock removed from watchlist"),
   set_watchlist (filter (fun w => negb (matches u sym w)) (watchlist db))
                 (watchlist_next db) (record_stmt (DeleteWatchlist u sym) db)).
Proof. unfold delete_remove. now rewrite (auth_accepts _ _ _ _ _ verified). Qed.

Lemma put_favorite_bad db :
  is_boolean (body_isFavorite req) = false ->
  put_favorite env now req db = (json 400 (Message "isFavorite must be a boolean"), db).
Proof.
  intros H. unfold put_favorite. rewrite (auth_accepts _ _ _ _ _ verified).
  unfold try_catch, bind, req_user_userId. simpl.
  destruct (body_isFavorite req); try reflexivity. discriminate.
Qed.

Lemma put_favorite_run b db :
  body_isFavorite req = JBool b ->
  put_favorite env now req db =
  ((if existsb (matches u sym) (watchlist db)
    then json 200 (Message ("Stock " ++ (if b then "favorited" else "unfavorited")
                                     ++ " successfully"))
    else json 404 (Message "Stock not found in watchlist")),
   set_watchlist
     (map (fun w => if matches u sym w then set_favorite b w else w) (watchlist db))
     (watchlist_next db) (record_stmt (UpdateFavorite b u sym) db)).
Proof.
  intros H. unfold put_favorite. rewrite (auth_accepts _ _ _ _ _ verified).
  unfold try_catch, bind, req_user_userId. simpl. rewrite H.
  unfold update_favorite, pool_query, ret. simpl. fold u sym.
  destruct (existsb (matches u sym) (watchlist db)) eqn:E.
  - destruct (filter (matches u sym) (watchlist db)) eqn:F.
    + apply existsb_filter_nil in F. congruence.
    + reflexivity.
  - now rewrite (filter_none _ _ E).
Qed.

Lemma post_add_run db : AddCase now u db (post_add env now req db).
Proof.
  unfold post_add. rewrite (auth_accepts _ _ _ _ _ verified).
  unfold try_catch, bind, req_user_userId. simpl. fold u.
  destruct (body_symbol req) as [s|]; [|constructor].
  destruct (body_name req) as [n|]; [|constructor].
  destruct ((s =? "")%string || (n =? "")%string); [constructor|].
  unfold select_watchlist_item, insert_watchlist, pool_query, ret. simpl.
  destruct (filter (matches u s) (watchlist db)) eqn:F.
  - simpl. apply existsb_filter_nil in F. rewrite F. simpl. constructor.
  - simpl. constructor.
Qed.

End Watchlist.

Section AddFacts.
Context {L : Libs}.
Variables (env : Env) (now : Z) (req : Request) (d : Decoded).
Hypothesis verified : verified_user env now req = Some d.

Let u := userId (payload d).

Lemma post_add_missing db :
  truthy (body_symbol req) = false \/ truthy (body_name req) = false ->
  post_add env now req db = (json 400 (Message "Symbol and name are required"), db).
Proof.
  intros H. unfold post_add. rewrite (auth_accepts _ _ _ _ _ verified).
  unfold try_catch, bind, req_user_userId. simpl.
  destruct (body_symbol req) as [s|]; [|reflexivity].
  destruct (body_name req) as [n|]; [|reflexivity].
  simpl in H. destruct (s =? "")%string; [reflexivity|].
  destruct (n =? "")%string; [reflexivity|]. simpl in H. destruct H; discriminate.
Qed.

Lemma post_add_asked s n db :
  asks_to_add req s n ->
  post_add env now req db =
  if existsb (matches u s) (watchlist db)
  then (json 400 (Message "Stock already in watchlist"),
        record_stmt (SelectWatchlistItem u s) db)
  else (json 201 (Message "Stock added to watchlist"),
        set_watchlist
          (watchlist db ++
           [{| WatchlistItem.id := watchlist_next db;
               WatchlistItem.user_id := u;
               WatchlistItem.symbol := s;
               WatchlistItem.name := n;
               WatchlistItem.is_favorite := false;
               WatchlistItem.added_at := now |}])
          (watchlist_next db + 1)
          (record_stmt (InsertWatchlist u s n)
             (record_stmt (SelectWatchlistItem u s) db))).
Proof.
  intros [Hs [Hn [Hs' Hn']]]. unfold post_add. rewrite (auth_accepts _ _ _ _ _ verified).
  unfold try_catch, bind, req_user_userId. simpl. fold u. rewrite Hs, Hn.
  apply String.eqb_neq in Hs', Hn'. rewrite Hs', Hn'. simpl.
  unfold select_watchlist_item, insert_watchlist, pool_query, ret. simpl.
  destruct (existsb (matches u s) (watchlist db)) eqn:E.
  - destruct (filter (matches u s) (watchlist db)) eqn:F; [|reflexivity].
    apply existsb_filter_nil in F. congruence.
  - rewrite (filter_none _ _ E). simpl. rewrite E. reflexivity.
Qed.

End AddFacts.

(** ** Claims about the watchlist service *)

(** What every watchlist operation does and leaves alone behind a
    verified token. *)
Lemma run_op_frame {L : Libs} :
  forall env now op req d db,
    verified_user env now req = Some d ->
    let u := userId (payload d) in
    let r := fst (run_op op env now req db) in
    let db' := snd (run_op op env now req db) in
    (exists qs, ran db db' qs /\ Forall (fun q => stmt_scope q = Some u) qs) /\
    (forall rows, body r = WatchlistBody rows ->
       exists items, rows = map view_item items /\
         Forall (fun w => In w (watchlist db) /\ WatchlistItem.user_id w = u) items) /\
    others u (watchlist db') = others u (watchlist db) /\
    users db' = users db.
Proof.
  intros env now op req d db Hv u r db'. subst r db'.
  destruct op; simpl run_op.
  - rewrite (get_watchlist_run _ _ _ _ Hv). simpl. fold u. repeat split.
    + exists [SelectWatchlist u]. split; [reflexivity|]. now repeat constructor.
    + intros rows H. injection H as <-. eexists; split; [reflexivity|].
      apply Forall_forall. intros w Hw.
      apply (Permutation_in _ (order_by_perm _)) in Hw.
      apply filter_In in Hw. destruct Hw as [Hin Ho]. split; [exact Hin|].
      unfold owns in Ho. lia.
  - destruct (post_add_run _ _ _ _ Hv db) as [|s|s n]; simpl; fold u; repeat split;
      try discriminate.
    + exists []. split; [unfold ran; now rewrite app_nil_r|constructor].
    + exists [SelectWatchlistItem u s]. split; [reflexivity|]. now repeat constructor.
    + exists [SelectWatchlistItem u s; InsertWatchlist u s n]. split.
      * unfold ran. simpl. now rewrite <- app_assoc.
      * now repeat constructor.
    + now apply others_own_row.
  - destruct (body_isFavorite req) as [| |b| |] eqn:E;
      try (rewrite (put_favorite_bad _ _ _ _ Hv) by (rewrite E; reflexivity);
           simpl; repeat split; try discriminate;
           exists []; split; [unfold ran; now rewrite app_nil_r|constructor]).
    rewrite (put_favorite_run _ _ _ _ Hv b db E). simpl. fold u. repeat split.
    + exists [UpdateFavorite b u (params_symbol req)]. split; [reflexivity|].
      now repeat constructor.
    + destruct (existsb _ _); discriminate.
    + apply others_update.
  - rewrite (delete_remove_run _ _ _ _ Hv). simpl. fold u. repeat split.
    + exists [DeleteWatchlist u (params_symbol req)]. split; [reflexivity|].
      now repeat constructor.
    + discriminate.
    + apply others_delete.
Qed.

(** C1.  Behind a verified token for user [u], whatever else the request
    carries (body, route parameter, a pre-set [req.user]), each of List,
    Add, ToggleFavorite and Remove sends only statements whose user-id
    parameter is [u]; the rows List returns are rows of the table that
    belong to [u]; the rows of every other user, and the users table, are
    as they were.  A request that differs from this one in anything but
    the Authorization header is scoped by [u] all the same. *)
Theorem C1_watchlist_scoped_by_token {L : Libs} :
  forall env now op req d db,
    verified_user env now req = Some d ->
    let u := userId (payload d) in
    let r := fst (run_op op env now req db) in
    let db' := snd (run_op op env now req db) in
    (exists qs, ran db db' qs /\ Forall (fun q => stmt_scope q = Some u) qs) /\
    (forall rows, body r = WatchlistBody rows ->
       exists items, rows = map view_item items /\
         Forall (fun w => In w (watchlist db) /\ WatchlistItem.user_id w = u) items) /\
    others u (watchlist db') = others u (watchlist db) /\
    users db' = users db /\
    (forall req2, authorization req2 = authorization req ->
       exists qs, ran db (snd (run_op op env now req2 db)) qs /\
                  Forall (fun q => stmt_scope q = Some u) qs).
Proof.
  intros env now op req d db Hv u r db'.
  destruct (run_op_frame env now op req d db Hv) as [H1 [H2 [H3 H4]]].
  repeat split; try assumption.
  intros req2 Hh.
  assert (Hv2 : verified_user env now req2 = Some d)
    by (unfold verified_user in *; now rewrite Hh).
  now destruct (run_op_frame env now op req2 d db Hv2) as [H _].
Qed.

Lemma view_item_shows rows : Forall2 shows (map view_item rows) rows.
Proof. induction rows; simpl; constructor; [now repeat split|assumption]. Qed.

Lemma view_item_sorted rows :
  StronglySorted fav_then_recent rows ->
  StronglySorted listed_before (map view_item rows).
Proof.
  induction 1 as [|a l _ IH Hall]; simpl; constructor; [exact IH|].
  apply Forall_map. eapply Forall_impl; [|exact Hall].
  intros b Hab. exact Hab.
Qed.

(** C4.  List answers 200 with the caller's entries: the entries of the
    response show, field by field (symbol, name, isFavorite, addedAt), the
    caller's rows, each once, and are ordered favorites first and then by
    added-at descending; it changes neither table; with no entries the
    answer is the empty list; with two entries A (not favorite) and B
    (favorite) the answer is [B, A], spelled out on the four fields. *)
Theorem C4_list_order {L : Libs} :
  forall env now req d db,
    verified_user env now req = Some d ->
    let u := userId (payload d) in
    let mine := filter (owns u) (watchlist db) in
    exists views rows,
      fst (get_watchlist env now req db) = json 200 (WatchlistBody views) /\
      Forall2 shows views rows /\
      Permutation rows mine /\
      StronglySorted listed_before views /\
      StronglySorted fav_then_recent rows /\
      (mine = [] -> views = []) /\
      (forall A B, Permutation mine [A; B] ->
         WatchlistItem.is_favorite A = false ->
         WatchlistItem.is_favorite B = true ->
         rows = [B; A] /\
         views =
           [ {| v_symbol := WatchlistItem.symbol B; v_name := WatchlistItem.name B;
                v_isFavorite := true; v_addedAt := WatchlistItem.added_at B |};
             {| v_symbol := WatchlistItem.symbol A; v_name := WatchlistItem.name A;
                v_isFavorite := false; v_addedAt := WatchlistItem.added_at A |} ]) /\
      watchlist (snd (get_watchlist env now req db)) = watchlist db /\
      users (snd (get_watchlist env now req db)) = users db.
Proof.
  intros env now req d db Hv u mine.
  exists (map view_item (order_by mine)), (order_by mine).
  rewrite (get_watchlist_run _ _ _ _ Hv). simpl.
  split; [reflexivity|]. split; [apply view_item_shows|].
  split; [apply order_by_perm|].
  split; [apply view_item_sorted, order_by_sorted|].
  split; [apply order_by_sorted|]. split; [now intros ->|].
  split; [|split; reflexivity].
  intros A B HP HA HB.
  assert (HP' : Permutation [A; B] (order_by mine))
    by (rewrite <- HP; symmetry; apply order_by_perm).
  pose proof (order_by_sorted mine) as Hs.
  apply Permutation_length_2_inv in HP'. destruct HP' as [E|E].
  - rewrite E in Hs. inversion Hs as [|? ? _ Hf]; subst.
    inversion Hf as [|? ? Hab _]; subst.
    destruct Hab as [[H1 _]|[H1 _]]; congruence.
  - rewrite E. split; [reflexivity|]. simpl. unfold view_item.
    now rewrite HA, HB.
Qed.

(** C5.  ToggleFavorite answers 400 without touching the database when
    [isFavorite] is not a boolean.  With a boolean [b] it answers 404
    exactly when no row matches (user, symbol), and then the table is as
    it was; otherwise it answers 200 with the message for [b] and every
    matching row carries [b] while the other rows are as they were.
    Calling it again with the same [b] gives the same answer and the
    same table. *)
Theorem C5_toggle_favorite {L : Libs} :
  forall env now now2 req d d2 db,
    verified_user env now req = Some d ->
    verified_user env now2 req = Some d2 ->
    userId (payload d2) = userId (payload d) ->
    let u := userId (payload d) in
    let sym := params_symbol req in
    let r := fst (put_favorite env now req db) in
    let db' := snd (put_favorite env now req db) in
    (is_boolean (body_isFavorite req) = false ->
       put_favorite env now req db = (json 400 (Message "isFavorite must be a boolean"), db)) /\
    (forall b, body_isFavorite req = JBool b ->
       (status r = 404 <-> existsb (matches u sym) (watchlist db) = false) /\
       (existsb (matches u sym) (watchlist db) = false ->
          r = json 404 (Message "Stock not found in watchlist") /\
          watchlist db' = watchlist db) /\
       (existsb (matches u sym) (watchlist db) = true ->
          r = json 200 (Message ("Stock " ++ (if b then "favorited" else "unfavorited")
                                          ++ " successfully")) /\
          watchlist db' =
            map (fun w => if matches u sym w then set_favorite b w else w) (watchlist db) /\
          (forall w, In w (watchlist db') -> matches u sym w = true ->
                     WatchlistItem.is_favorite w = b) /\
          fst (put_favorite env now2 req db') = r /\
          watchlist (snd (put_favorite env now2 req db')) = watchlist db') /\
       users db' = users db).
Proof.
  intros env now now2 req d d2 db Hv Hv2 Hu u sym r db'. subst r db'.
  split; [apply (put_favorite_bad _ _ _ _ Hv)|].
  intros b Hb. rewrite (put_favorite_run _ _ _ _ Hv b db Hb). simpl. fold u sym.
  destruct (existsb (matches u sym) (watchlist db)) eqn:E; simpl.
  - split; [split; discriminate|]. split; [discriminate|]. split; [|reflexivity].
    intros _. split; [reflexivity|]. split; [reflexivity|]. split.
    + intros w Hin Hm. apply in_map_iff in Hin. destruct Hin as [w0 [Hw _]].
      destruct (matches u sym w0) eqn:E0; subst w; [reflexivity|congruence].
    + rewrite (put_favorite_run _ _ _ _ Hv2 b _ Hb). simpl. rewrite Hu. fold u sym.
      split; [|apply update_twice].
      assert (X : existsb (matches u sym)
                    (map (fun w => if matches u sym w then set_favorite b w else w)
                         (watchlist db)) = true).
      { apply existsb_exists in E. destruct E as [w [Hin Hm]].
        apply existsb_exists. exists (set_favorite b w). split.
        - apply in_map_iff. exists w. now rewrite Hm.
        - now rewrite matches_set_favorite. }
      now rewrite X.
  - split; [split; reflexivity|]. split; [|split; [discriminate|reflexivity]].
    intros _. split; [reflexivity|]. now apply update_none.
Qed.

(** C8.  Remove answers 200 whether or not a row matches (user, symbol);
    afterwards no row matches; when none matched before, both tables and
    the id counters are as they were; a second Remove gives the same
    answer and leaves the table as the first one left it. *)
Theorem C8_remove_idempotent {L : Libs} :
  forall env now now2 req d d2 db,
    verified_user env now req = Some d ->
    verified_user env now2 req = Some d2 ->
    userId (payload d2) = userId (payload d) ->
    let u := userId (payload d) in
    let sym := params_symbol req in
    let r := fst (delete_remove env now req db) in
    let db' := snd (delete_remove env now req db) in
    r = json 200 (Message "Stock removed from watchlist") /\
    existsb (matches u sym) (watchlist db') = false /\
    (existsb (matches u sym) (watchlist db) = false ->
       watchlist db' = watchlist db /\ users db' = users db /\
       watchlist_next db' = watchlist_next db /\ users_next db' = users_next db) /\
    fst (delete_remove env now2 req db') = r /\
    watchlist (snd (delete_remove env now2 req db')) = watchlist db'.
Proof.
  intros env now now2 req d d2 db Hv Hv2 Hu u sym r db'. subst r db'.
  rewrite (delete_remove_run _ _ _ _ Hv2), (delete_remove_run _ _ _ _ Hv).
  simpl. rewrite Hu. fold u sym.
  split; [reflexivity|]. split.
  - apply existsb_filter_nil.
    induction (watchlist db) as [|w l IH]; simpl; [reflexivity|].
    destruct (matches u sym w) eqn:E; simpl; [exact IH|]. now rewrite E.
  - split; [|split; [reflexivity|apply delete_twice]].
    intros E. split; [now apply delete_none|]. now repeat split.
Qed.

(** ** The Authorization header *)

Lemma split_no_sep sep s : has_char sep s = false -> split sep s = [s].
Proof.
  induction s as [|c s IH]; simpl; [reflexivity|].
  intros H. apply orb_false_iff in H. destruct H as [H1 H2].
  rewrite H1, (IH H2). reflexivity.
Qed.

Lemma split_app_sep sep a b :
  has_char sep a = false -> split sep (a ++ String sep b) = a :: split sep b.
Proof.
  induction a as [|c a IH]; simpl.
  - intros _. now rewrite Ascii.eqb_refl.
  - intros H. apply orb_false_iff in H. destruct H as [H1 H2].
    rewrite H1, (IH H2). reflexivity.
Qed.

Lemma append_empty_r s : s ++ "" = s.
Proof. induction s as [|c s IH]; simpl; [reflexivity|now rewrite IH]. Qed.

Lemma append_sep_nonempty a c b : (a ++ String c b =? "")%string = false.
Proof. destruct a; reflexivity. Qed.

(** The token is the part of the header between its first and second
    space, or all that follows the first space when there is no second. *)
Lemma header_token_second_word scheme tok tail :
  has_char " " scheme = false ->
  has_char " " tok = false ->
  tail = "" \/ (exists t, tail = String " " t) ->
  header_token (Some (scheme ++ String " " (tok ++ tail))) = Some tok.
Proof.
  intros Hs Ht Htail. unfold header_token, js_index.
  rewrite append_sep_nonempty, (split_app_sep _ _ _ Hs). simpl.
  destruct Htail as [->|[t ->]].
  - now rewrite append_empty_r, (split_no_sep _ _ Ht).
  - now rewrite (split_app_sep _ _ _ Ht).
Qed.

Lemma header_token_no_space h :
  has_char " " h = false -> truthy (header_token (Some h)) = false.
Proof.
  intros H. unfold header_token, js_index.
  destruct (h =? "")%string eqn:E.
  - simpl. now rewrite E.
  - now rewrite (split_no_sep _ _ H).
Qed.

(** C10, as stated, fails: with a third word in the header the middleware
    takes the second word only, not everything after the first space. *)
Lemma C10_token_is_not_the_rest_of_the_header :
  header_token (Some "Token x.y.z extra") = Some "x.y.z" /\
  after_first_space "Token x.y.z extra" = Some "x.y.z extra" /\
  header_token (Some "Token x.y.z extra") <> after_first_space "Token x.y.z extra".
Proof. repeat split; try reflexivity. discriminate. Qed.

(** C10, amended.  The middleware takes as token the part of the header
    between its first and second space (all that follows the first space
    when there is no second), whatever the first word is, and hands that
    to [jwt.verify]; an absent header, a header without a space, or an
    empty second part is answered 401 "Access token required" before any
    verification; a token that does not verify is answered 403; no
    rejection executes a statement or changes the database. *)
Theorem C10_authenticate_token {L : Libs} :
  forall env now req next db,
    (forall scheme tok tail,
       authorization req = Some (scheme ++ String " " (tok ++ tail)) ->
       has_char " " scheme = false -> has_char " " tok = false ->
       tail = "" \/ (exists t, tail = String " " t) ->
       header_token (authorization req) = Some tok) /\
    (forall tok,
       header_token (authorization req) = Some tok -> tok <> "" ->
       authenticateToken env now req next db =
       match jwt_verify tok (jwt_secret env) now with
       | Some u => next (set_user u req) db
       | None => (json 403 (Message "Invalid or expired token"), db)
       end) /\
    (authorization req = None \/
     (exists h, authorization req = Some h /\ has_char " " h = false) \/
     header_token (authorization req) = Some "" ->
     authenticateToken env now req next db =
     (json 401 (Message "Access token required"), db)) /\
    (verified_user env now req = None ->
     exists r, authenticateToken env now req next db = (r, db) /\
               (status r = 401 \/ status r = 403)).
Proof.
  intros env now req next db. repeat split.
  - intros scheme tok tail -> Hs Ht Htail. now apply header_token_second_word.
  - intros tok Htok Hne. unfold authenticateToken. rewrite Htok.
    destruct (String.eqb_spec tok ""); [contradiction|].
    now destruct (jwt_verify tok (jwt_secret env) now).
  - intros H. unfold authenticateToken, respond.
    destruct H as [H|[[h [H Hh]]|H]].
    + now rewrite H.
    + rewrite H. pose proof (header_token_no_space _ Hh) as T.
      destruct (header_token (Some h)) as [t|]; [|reflexivity].
      simpl in T. destruct (t =? "")%string; [reflexivity|discriminate].
    + now rewrite H.
  - apply auth_rejects.
Qed.

(** ** The auth routes *)

Lemma failing_two a x b y : is_empty (failing [(a, x); (b, y)]) = x && y.
Proof. now destruct x, y. Qed.

Section Auth.
Context {L : Libs}.
Variables (env : Env) (now : Z) (req : Request).

Let e := normalizeEmail (field (body_email req)).
Let pw := field (body_password req).

Lemma post_login_invalid db :
  login_valid req = false ->
  exists fields, post_login env now req db = (json 400 (Errors fields), db).
Proof.
  unfold login_valid, post_login. rewrite failing_two. intros ->. simpl.
  eexists. reflexivity.
Qed.

Lemma post_login_run db :
  login_valid req = true ->
  post_login env now req db =
  (match filter (has_email e) (users db) with
   | [] => json 401 (Message "Invalid credentials")
   | user :: _ =>
       if truthy (User.password user)
       then if bcrypt_compare pw (field (User.password user))
            then json 200 (AuthBody "Login successful"
                   (jwt_sign {| userId := User.id user; email := User.email user;
                                googleId := Absent |}
                             (jwt_secret env) seven_days now)
                   (public_view user))
            else json 401 (Message "Invalid credentials")
       else json 401 (Message "Please sign in with Google")
   end,
   record_stmt (SelectUserByEmail e) db).
Proof.
  unfold login_valid, post_login. rewrite failing_two. intros ->. simpl.
  unfold try_catch, bind, select_users_by_email, pool_query, ret. simpl. fold e pw.
  destruct (filter (has_email e) (users db)) as [|user rest]; [reflexivity|].
  destruct (truthy (User.password user)); simpl; [|reflexivity].
  destruct (bcrypt_compare pw (field (User.password user))); reflexivity.
Qed.

Lemma post_login_json_invalid password db :
  login_valid_json req password = false ->
  exists fields, post_login_json env now req password db = (json 400 (Errors fields), db).
Proof.
  unfold login_valid_json, post_login_json. rewrite failing_two. intros ->. simpl.
  eexists. reflexivity.
Qed.

Lemma post_login_json_run password db :
  login_valid_json req password = true ->
  post_login_json env now req password db =
  (match filter (has_email e) (users db) with
   | [] => json 401 (Message "Invalid credentials")
   | user :: _ =>
       if truthy (User.password user)
       then match password with
            | JStr s =>
                if bcrypt_compare s (field (User.password user))
                then json 200 (AuthBody "Login successful"
                       (jwt_sign {| userId := User.id user; email := User.email user;
                                    googleId := Absent |}
                                 (jwt_secret env) seven_days now)
                       (public_view user))
                else json 401 (Message "Invalid credentials")
            | _ => json 500 (Message "Server error")
            end
       else json 401 (Message "Please sign in with Google")
   end,
   record_stmt (SelectUserByEmail e) db).
Proof.
  unfold login_valid_json, post_login_json. rewrite failing_two. intros ->. simpl.
  unfold try_catch, bind, select_users_by_email, pool_query, ret, throw. simpl. fold e.
  destruct (filter (has_email e) (users db)) as [|user rest]; [reflexivity|].
  destruct (truthy (User.password user)); simpl; [|reflexivity].
  destruct password as [| | | |s]; try reflexivity.
  destruct (bcrypt_compare s (field (User.password user))); reflexivity.
Qed.

(** On a body whose password is a string or missing, the handler is
    [post_login]. *)
Lemma post_login_json_text db :
  post_login_json env now req (json_field (body_password req)) db =
  post_login env now req db.
Proof.
  destruct (login_valid req) eqn:V.
  - rewrite (post_login_run db V).
    assert (V' : login_valid_json req (json_field (body_password req)) = true).
    { unfold login_valid, login_valid_json in *.
      destruct (body_password req); exact V. }
    rewrite (post_login_json_run _ db V'). fold e. unfold pw.
    unfold login_valid in V. apply andb_true_iff in V. destruct V as [_ V].
    destruct (body_password req); [reflexivity|discriminate].
  - unfold post_login, post_login_json. unfold login_valid in V.
    rewrite !failing_two.
    destruct (body_password req); simpl in *; rewrite V; reflexivity.
Qed.

End Auth.

Lemma filter_last_only {A} (f : A -> bool) l a :
  filter f l = [] -> f a = true -> filter f (l ++ [a]) = [a].
Proof. intros H Ha. rewrite filter_app, H. simpl. now rewrite Ha. Qed.

Lemma no_email_filter eml us :
  (forall u, In u us -> User.email u <> eml) -> filter (has_email eml) us = [].
Proof.
  intros H. apply filter_none. apply not_true_is_false. intros E.
  apply existsb_exists in E. destruct E as [u [Hin Hu]].
  apply (H u Hin). unfold has_email in Hu. now apply String.eqb_eq.
Qed.

Lemma fresh_id_filter n us :
  (forall u, In u us -> User.id u < n) -> filter (has_id n) us = [].
Proof.
  intros H. apply filter_none. apply not_true_is_false. intros E.
  apply existsb_exists in E. destruct E as [u [Hin Hu]].
  specialize (H u Hin). unfold has_id in Hu. lia.
Qed.

Section Registration.
Context {L : Libs}.
Variables (env : Env) (now : Z) (salt : string) (req : Request).

Let e := normalizeEmail (field (body_email req)).
Let pw := field (body_password req).

Lemma post_register_run db :
  register_valid req = true ->
  filter (has_email e) (users db) = [] ->
  filter (has_id (users_next db)) (users db) = [] ->
  let row := registered_row now salt req (users_next db) in
  post_register env now salt req db =
  (json 201 (AuthBody "User created successfully"
               (jwt_sign {| userId := users_next db; email := e; googleId := Absent |}
                         (jwt_secret env) seven_days now)
               (public_view row)),
   set_users (users db ++ [row]) (users_next db + 1)
     (record_stmt (SelectUserById (users_next db))
        (record_stmt (InsertUser e (bcrypt_hash pw salt)
                                 (or_null (option_map trim (body_name req))))
           (record_stmt (SelectUserByEmail e) db)))).
Proof.
  unfold register_valid, post_register. rewrite failing_two. intros -> He Hi. simpl.
  unfold try_catch, bind, select_users_by_email, insert_user, select_users_by_id,
    insert_row_users, pool_query, ret. simpl. fold e pw.
  rewrite He. simpl.
  apply existsb_filter_nil in He. rewrite He. simpl.
  rewrite filter_app, Hi. simpl. unfold has_id at 1. simpl. rewrite Z.eqb_refl. simpl.
  reflexivity.
Qed.

End Registration.

(** ** Claims about Login and Register *)

(** C2.  For any JSON value in the password field, Login answers 401
    exactly when the request passes validation and either no user has the
    email, or the matched user has no password hash, or the password is a
    string that the hash does not match.  The first and the third case
    give one and the same response, "Invalid credentials"; the second
    gives "Please sign in with Google".  Login never changes a table.
    But the answers do tell a known email from an unknown one: with a
    password that is there and is not a string (a number, a boolean,
    null), an email no user has is answered 401 "Invalid credentials",
    while the email of an account with a password hash is answered 500
    "Server error". *)
Theorem C2_login_unauthorized {L : Libs} :
  forall env now,
    (forall req password db,
       let r := fst (post_login_json env now req password db) in
       (status r = 401 <->
        login_valid_json req password = true /\
        (unknown_email req db \/ no_password_hash req db \/
         password_mismatch req password db)) /\
       (login_valid_json req password = true -> unknown_email req db ->
        r = json 401 (Message "Invalid credentials")) /\
       (login_valid_json req password = true -> no_password_hash req db ->
        r = json 401 (Message "Please sign in with Google")) /\
       (login_valid_json req password = true -> password_mismatch req password db ->
        r = json 401 (Message "Invalid credentials")) /\
       (login_valid_json req password = true -> is_text password = false ->
        known_with_hash req db ->
        r = json 500 (Message "Server error")) /\
       users (snd (post_login_json env now req password db)) = users db /\
       watchlist (snd (post_login_json env now req password db)) = watchlist db) /\
    (forall req1 password1 db1 req2 password2 db2,
       login_valid_json req1 password1 = true -> unknown_email req1 db1 ->
       login_valid_json req2 password2 = true -> password_mismatch req2 password2 db2 ->
       fst (post_login_json env now req1 password1 db1) =
       fst (post_login_json env now req2 password2 db2)) /\
    (forall req1 req2 password db,
       is_defined password = true -> is_text password = false ->
       isEmail (field (body_email req1)) = true ->
       isEmail (field (body_email req2)) = true ->
       unknown_email req1 db -> known_with_hash req2 db ->
       fst (post_login_json env now req1 password db) =
         json 401 (Message "Invalid credentials") /\
       fst (post_login_json env now req2 password db) =
         json 500 (Message "Server error")).
Proof.
  intros env now.
  assert (A : forall req password db,
            login_valid_json req password = true -> unknown_email req db ->
            fst (post_login_json env now req password db) =
            json 401 (Message "Invalid credentials")).
  { intros req password db Hv Hu. rewrite (post_login_json_run _ _ _ _ _ Hv). simpl.
    unfold unknown_email, matched_user, js_index in Hu.
    destruct (filter _ (users db)); [reflexivity|discriminate]. }
  assert (B : forall req password db,
            login_valid_json req password = true -> password_mismatch req password db ->
            fst (post_login_json env now req password db) =
            json 401 (Message "Invalid credentials")).
  { intros req password db Hv [user [s [Hm [Ht [Hp Hc]]]]].
    rewrite (post_login_json_run _ _ _ _ _ Hv). simpl.
    unfold matched_user, js_index in Hm.
    destruct (filter _ (users db)); [discriminate|]. simpl in Hm.
    injection Hm as ->. subst password. now rewrite Ht, Hc. }
  assert (C : forall req password db,
            login_valid_json req password = true -> no_password_hash req db ->
            fst (post_login_json env now req password db) =
            json 401 (Message "Please sign in with Google")).
  { intros req password db Hv [user [Hm Ht]].
    rewrite (post_login_json_run _ _ _ _ _ Hv). simpl.
    unfold matched_user, js_index in Hm.
    destruct (filter _ (users db)); [discriminate|]. simpl in Hm.
    injection Hm as ->. now rewrite Ht. }
  assert (D : forall req password db,
            login_valid_json req password = true -> is_text password = false ->
            known_with_hash req db ->
            fst (post_login_json env now req password db) =
            json 500 (Message "Server error")).
  { intros req password db Hv Hp [user [Hm Ht]].
    rewrite (post_login_json_run _ _ _ _ _ Hv). simpl.
    unfold matched_user, js_index in Hm.
    destruct (filter _ (users db)); [discriminate|]. simpl in Hm.
    injection Hm as ->. rewrite Ht.
    destruct password; try reflexivity. discriminate. }
  split; [|split].
  - intros req password db r. subst r.
    split; [|split; [apply A|split; [apply C|split; [apply B|split; [apply D|]]]]].
    + split.
      * intros H. destruct (login_valid_json req password) eqn:Hv.
        -- split; [reflexivity|].
           rewrite (post_login_json_run _ _ _ _ _ Hv) in H. simpl in H.
           unfold unknown_email, no_password_hash, password_mismatch, matched_user,
             js_index.
           destruct (filter _ (users db)) as [|user rest]; [now left|]. right. simpl.
           destruct (truthy (User.password user)) eqn:Ht.
           ++ destruct password as [| | | |s]; try discriminate.
              destruct (bcrypt_compare _ _) eqn:Hc; [discriminate|].
              right. exists user, s. auto.
           ++ left. exists user. auto.
        -- destruct (post_login_json_invalid env now req password db Hv) as [fields Hf].
           rewrite Hf in H. discriminate.
      * intros [Hv [H|[H|H]]].
        -- now rewrite (A _ _ _ Hv H).
        -- now rewrite (C _ _ _ Hv H).
        -- now rewrite (B _ _ _ Hv H).
    + destruct (login_valid_json req password) eqn:Hv.
      * now rewrite (post_login_json_run _ _ _ _ _ Hv).
      * destruct (post_login_json_invalid env now req password db Hv) as [fields Hf].
        now rewrite Hf.
  - intros req1 password1 db1 req2 password2 db2 H1 U1 H2 W2.
    now rewrite (A _ _ _ H1 U1), (B _ _ _ H2 W2).
  - intros req1 req2 password db Hd Ht H1 H2 Hu Hk.
    assert (V1 : login_valid_json req1 password = true)
      by (unfold login_valid_json; now rewrite H1, Hd).
    assert (V2 : login_valid_json req2 password = true)
      by (unfold login_valid_json; now rewrite H2, Hd).
    split; [now apply A|now apply D].
Qed.

(** C3.  For a valid email and a password of at least 6 characters, on a
    store that holds no user with that (normalised) email and whose ids
    lie below the AUTO_INCREMENT counter, Register answers 201 and creates
    a user; Login with the same email and password, at any later moment,
    then answers 200 for that same user, and the token it returns verifies,
    for the seven days it lives, to claims whose user id is the id Register
    created.  The libraries are assumed to keep their contracts: a hash
    is never empty and matches the password it was made from, and a token
    verifies under its key until it expires. *)
Theorem C3_register_then_login {L : Libs} :
  forall env now now2 salt req db,
    isEmail (field (body_email req)) = true ->
    (6 <= String.length (field (body_password req)))%nat ->
    (forall u, In u (users db) ->
       User.email u <> normalizeEmail (field (body_email req))) ->
    (forall u, In u (users db) -> User.id u < users_next db) ->
    (forall p s, bcrypt_compare p (bcrypt_hash p s) = true) ->
    (forall p s, bcrypt_hash p s <> "") ->
    (forall p k ttl t t', t' < t + ttl ->
       jwt_verify (jwt_sign p k ttl t) k t' =
       Some {| payload := p; iat := t; exp := t + ttl |}) ->
    let db1 := snd (post_register env now salt req db) in
    exists uid tok1 tok2 view,
      fst (post_register env now salt req db) =
        json 201 (AuthBody "User created successfully" tok1 view) /\
      v_id view = uid /\
      v_email view = normalizeEmail (field (body_email req)) /\
      (exists row, In row (users db1) /\ User.id row = uid /\
                   User.email row = v_email view /\ ~ In row (users db)) /\
      fst (post_login env now2 req db1) =
        json 200 (AuthBody "Login successful" tok2 view) /\
      (forall t, t < now2 + seven_days ->
         exists dec, jwt_verify tok2 (jwt_secret env) t = Some dec /\
                     userId (payload dec) = uid /\ exp dec = now2 + seven_days).
Proof.
  intros env now now2 salt req db Hmail Hlen Hnew Hids Hcmp Hne Hjwt db1.
  set (e := normalizeEmail (field (body_email req))) in *.
  assert (Hreg : register_valid req = true).
  { unfold register_valid. rewrite Hmail. simpl. apply Z.leb_le. lia. }
  assert (Hlog : login_valid req = true).
  { unfold login_valid. rewrite Hmail. simpl.
    destruct (body_password req); [reflexivity|]. simpl in Hlen. lia. }
  pose proof (post_register_run env now salt req db Hreg
                (no_email_filter _ _ Hnew) (fresh_id_filter _ _ Hids)) as R.
  simpl in R. fold e in R. subst db1. rewrite R. simpl.
  set (row := registered_row now salt req (users_next db)).
  exists (users_next db). eexists. eexists. exists (public_view row).
  split; [reflexivity|]. split; [reflexivity|]. split; [reflexivity|]. split.
  - exists row. split; [apply in_or_app; right; now left|].
    split; [reflexivity|]. split; [reflexivity|].
    intros Hin. apply Hids in Hin. simpl in Hin. lia.
  - rewrite (post_login_run _ _ _ _ Hlog). simpl. fold e.
    rewrite (filter_last_only _ _ row (no_email_filter _ _ Hnew))
      by (unfold has_email; simpl; apply String.eqb_refl).
    assert (Ht : truthy (User.password row) = true).
    { simpl. apply negb_true_iff. apply String.eqb_neq. apply Hne. }
    rewrite Ht. simpl. rewrite Hcmp. split; [reflexivity|].
    intros t Hlt. eexists. split; [apply Hjwt; exact Hlt|]. split; reflexivity.
Qed.

(** ** Tokens and credentials across the three issuing routes *)

Ltac break_match :=
  match goal with
  | H : context [match ?x with _ => _ end] |- _ => destruct x eqn:?
  | |- context [match ?x with _ => _ end] => destruct x eqn:?
  end.

Ltac run_handler :=
  unfold try_catch, bind, ret, throw, respond,
    select_users_by_email, select_users_by_id, select_users_by_google_or_email,
    insert_user, insert_google_user, update_google, pool_query, insert_row_users in *;
  simpl in *.

Ltac same_result :=
  repeat match goal with
  | H : (_, _) = (_, _) |- _ => inversion H; clear H; subst
  | H : Resolved _ = Resolved _ |- _ => inversion H; clear H; subst
  | H : Rejected _ = Rejected _ |- _ => inversion H; clear H; subst
  | H : Some _ = Some _ |- _ => inversion H; clear H; subst
  | H : json _ _ = json _ _ |- _ => inversion H; clear H; subst
  | H : {| status := _; body := _ |} = json _ _ |- _ => inversion H; clear H; subst
  end.

Ltac first_of_filter :=
  match goal with
  | H : filter ?f ?l = ?u :: _ |- _ =>
      let Hin := fresh "Hin" in
      assert (Hin : In u (filter f l)) by (rewrite H; now left);
      apply filter_In in Hin; destruct Hin as [Hin ?]
  end.

Ltac by_cases :=
  repeat (break_match; simpl in *; same_result; try discriminate).

Lemma run_auth_issues {L : Libs} op env now req db st m tok v :
  fst (run_auth op env now req db) = json st (AuthBody m tok v) ->
  exists p,
    tok = jwt_sign p (jwt_secret env) seven_days now /\
    userId p = v_id v /\ email p = v_email v /\
    claim_names p = issued_claims op /\
    (st = 200 \/ st = 201).
Proof.
  destruct op as [salt| |]; simpl run_auth.
  - unfold post_register. run_handler. intros H. by_cases.
    all: eexists; repeat split; auto.
  - unfold post_login. run_handler. intros H. by_cases.
    all: eexists; repeat split; auto.
  - unfold post_google. run_handler. intros H. by_cases.
    all: eexists; repeat split; auto.
Qed.

Lemma run_auth_signs_row {L : Libs} op env now req db st m tok v :
  fst (run_auth op env now req db) = json st (AuthBody m tok v) ->
  exists p row,
    tok = jwt_sign p (jwt_secret env) seven_days now /\
    In row (users (snd (run_auth op env now req db))) /\
    userId p = User.id row /\ email p = User.email row /\
    v_id v = User.id row /\ v_email v = User.email row /\
    match op with
    | LoginWithExternalIdentity =>
        googleId p = Present (User.google_id row) /\
        (ids_below_counter db -> exists g, User.google_id row = Some g)
    | _ => googleId p = Absent
    end.
Proof.
  destruct op as [salt| |]; simpl run_auth.
  - unfold post_register. run_handler. intros H. by_cases.
    all: first_of_filter; eexists; eexists; repeat split; eauto.
  - unfold post_login. run_handler. intros H. by_cases.
    all: first_of_filter; eexists; eexists; repeat split; eauto.
  - unfold post_google. run_handler. intros H. by_cases.
    + first_of_filter. eexists. exists a0. repeat split; auto.
      intros Hb. simpl in Hin. apply in_app_or in Hin. destruct Hin as [Hin|[<-|[]]].
      * unfold ids_below_counter in Hb. rewrite Forall_forall in Hb.
        apply Hb in Hin. unfold has_id in *. lia.
      * simpl. eauto.
    + first_of_filter. eexists.
      exists (link_google (Some (sub p)) (g_name p) (g_picture p) t).
      repeat split; simpl; eauto.
      apply in_map_iff. exists t. split; [|exact Hin].
      unfold has_id. now rewrite Z.eqb_refl.
    + first_of_filter. eexists. exists a0. repeat split; auto.
      intros _. destruct (User.google_id a0); [eauto|discriminate].
Qed.

Lemma keeps_refl us : Forall2 keeps_credentials us us.
Proof. induction us; constructor; auto. now repeat split. Qed.

Lemma same_id_same_row (us : list User.t) x u :
  NoDup (map User.id us) -> In x us -> In u us -> User.id x = User.id u -> x = u.
Proof.
  induction us as [|a us IH]; simpl; [contradiction|].
  intros Hn Hx Hu E. inversion Hn as [|? ? Ha Hn']; subst.
  destruct Hx as [->|Hx], Hu as [->|Hu]; auto.
  - exfalso. apply Ha. rewrite E. now apply in_map.
  - exfalso. apply Ha. rewrite <- E. now apply in_map.
Qed.

Lemma keeps_link u g nm pic us :
  NoDup (map User.id us) -> In u us -> truthy (User.google_id u) = false ->
  Forall2 keeps_credentials us
    (map (fun x => if has_id (User.id u) x then link_google (Some g) nm pic x else x) us).
Proof.
  intros Hn Hu Hg.
  assert (H : forall l, (forall x, In x l -> In x us) ->
            Forall2 keeps_credentials l
              (map (fun x => if has_id (User.id u) x
                             then link_google (Some g) nm pic x else x) l)).
  { induction l as [|x l IH]; intros Hl; simpl; constructor.
    - unfold has_id. destruct (Z.eqb_spec (User.id x) (User.id u)) as [E|E].
      + assert (X : x = u) by (apply (same_id_same_row us); auto; apply Hl; now left).
        subst x. repeat split; simpl; auto; [discriminate|congruence].
      + now repeat split.
    - apply IH. intros y Hy. apply Hl. now right. }
  apply H. auto.
Qed.

Lemma users_kept_same us : users_kept us us.
Proof. exists us, []. split; [now rewrite app_nil_r|apply keeps_refl]. Qed.

Lemma users_kept_insert us row : users_kept us (us ++ [row]).
Proof. exists us, [row]. split; [reflexivity|apply keeps_refl]. Qed.

Lemma users_kept_link u g nm pic us :
  NoDup (map User.id us) -> In u us -> truthy (User.google_id u) = false ->
  users_kept us
    (map (fun x => if has_id (User.id u) x then link_google (Some g) nm pic x else x) us).
Proof.
  intros Hn Hu Hg. eexists _, [].
  split; [now rewrite app_nil_r|now apply keeps_link].
Qed.

Lemma run_auth_keeps {L : Libs} op env now req db :
  NoDup (map User.id (users db)) ->
  users_kept (users db) (users (snd (run_auth op env now req db))) /\
  watchlist (snd (run_auth op env now req db)) = watchlist db.
Proof.
  intros Hn. destruct op as [salt| |]; simpl run_auth.
  - unfold post_register. run_handler. by_cases.
    all: split; [|reflexivity];
      first [apply users_kept_same | apply users_kept_insert].
  - unfold post_login. run_handler. by_cases.
    all: split; [|reflexivity]; apply users_kept_same.
  - unfold post_google. run_handler. by_cases.
    all: split; [|reflexivity];
      try first [apply users_kept_same | apply users_kept_insert].
    first_of_filter. apply users_kept_link; auto.
    now apply negb_true_iff.
Qed.

Section GoogleLink.
Context {L : Libs}.
Variables (env : Env) (now : Z) (req : Request) (db : Db).
Variables (p : GooglePayload) (u : User.t) (rest : list User.t).
Hypothesis credential : truthy (body_credential req) = true.
Hypothesis ticket :
  verifyIdToken (field (body_credential req)) (GOOGLE_CLIENT_ID env) = WithPayload p.
Hypothesis has_mail : truthy (g_email p) = true.
Hypothesis found :
  filter (fun x => opt_eqb (User.google_id x) (sub p) || has_email (field (g_email p)) x)
         (users db) = u :: rest.
Hypothesis unlinked : truthy (User.google_id u) = false.

Lemma post_google_link_run :
  let user := link_google (Some (sub p)) (or_null (g_name p)) (or_null (g_picture p)) u in
  post_google env now req db =
  (json 200 (AuthBody "Google login successful"
               (jwt_sign {| userId := User.id u; email := User.email u;
                            googleId := Present (Some (sub p)) |}
                         (jwt_secret env) seven_days now)
               (google_view user)),
   set_users
     (map (fun x => if has_id (User.id u) x
                    then link_google (Some (sub p)) (g_name p) (g_picture p) x else x)
          (users db))
     (users_next db)
     (record_stmt (UpdateGoogle (sub p) (g_name p) (g_picture p) (User.id u))
        (record_stmt (SelectUserByGoogleOrEmail (sub p) (field (g_email p))) db))).
Proof.
  unfold post_google. rewrite credential, ticket, has_mail. run_handler.
  rewrite found, unlinked. reflexivity.
Qed.

End GoogleLink.

(** ** The reference libraries keep the contracts *)

Lemma append_assoc3 (a b c : string) : (a ++ b) ++ c = a ++ b ++ c.
Proof. induction a as [|x a IH]; simpl; [reflexivity|now rewrite IH]. Qed.

Lemma has_char_app c a b : has_char c (a ++ b) = has_char c a || has_char c b.
Proof.
  induction a as [|x a IH]; simpl; [reflexivity|].
  now rewrite IH, orb_assoc.
Qed.

Lemma dec_enc_str s rest : Ref.dec_str (Ref.enc_str s ++ rest) = Some (s, rest).
Proof.
  induction s as [|c s IH]; simpl; [reflexivity|].
  rewrite append_assoc3. unfold Ref.escape_char.
  destruct (Ascii.eqb c " ") eqn:E1.
  - apply Ascii.eqb_eq in E1. subst c. simpl. now rewrite IH.
  - destruct (Ascii.eqb c "%") eqn:E2.
    + apply Ascii.eqb_eq in E2. subst c. simpl. now rewrite IH.
    + simpl. now rewrite E2, E1, IH.
Qed.

Lemma dec_enc_pos p rest : Ref.dec_pos (Ref.enc_pos p ++ rest) = Some (p, rest).
Proof. induction p as [p IH|p IH|]; simpl; try rewrite IH; reflexivity. Qed.

Lemma dec_enc_Z z rest : Ref.dec_Z (Ref.enc_Z z ++ rest) = Some (z, rest).
Proof. destruct z; simpl; try rewrite dec_enc_pos; reflexivity. Qed.

Lemma dec_enc_claim g rest : Ref.dec_claim (Ref.enc_claim g ++ rest) = Some (g, rest).
Proof. destruct g as [|[s|]]; simpl; try rewrite dec_enc_str; reflexivity. Qed.

Lemma enc_str_no_space s : has_char " " (Ref.enc_str s) = false.
Proof.
  induction s as [|c s IH]; simpl; [reflexivity|].
  rewrite has_char_app, IH, orb_false_r. unfold Ref.escape_char.
  destruct (Ascii.eqb c " ") eqn:E1; [reflexivity|].
  destruct (Ascii.eqb c "%"); [reflexivity|]. simpl. now rewrite E1.
Qed.

Lemma enc_pos_no_space p : has_char " " (Ref.enc_pos p) = false.
Proof. induction p; simpl; auto. Qed.

Lemma enc_Z_no_space z : has_char " " (Ref.enc_Z z) = false.
Proof. destruct z; simpl; auto using enc_pos_no_space. Qed.

Lemma enc_claim_no_space g : has_char " " (Ref.enc_claim g) = false.
Proof. destruct g as [|[s|]]; simpl; auto using enc_str_no_space. Qed.

Lemma Ref_verify_sign p k ttl t t' :
  t' < t + ttl ->
  Ref.verify (Ref.sign p k ttl t) k t' =
  Some {| payload := p; iat := t; exp := t + ttl |}.
Proof.
  intros H. unfold Ref.verify, Ref.sign.
  rewrite dec_enc_Z. simpl. rewrite dec_enc_str. simpl.
  rewrite dec_enc_claim. simpl. rewrite dec_enc_Z. simpl. rewrite dec_enc_Z. simpl.
  rewrite <- (append_empty_r (Ref.enc_str k)), dec_enc_str. simpl.
  rewrite String.eqb_refl. simpl.
  destruct (Z.ltb_spec t' (t + ttl)); [|lia]. now destruct p.
Qed.

Lemma Ref_sign_word p k ttl t :
  has_char " " (Ref.sign p k ttl t) = false /\ Ref.sign p k ttl t <> "".
Proof.
  unfold Ref.sign. split.
  - rewrite !has_char_app, !enc_Z_no_space, !enc_str_no_space, enc_claim_no_space.
    reflexivity.
  - destruct (userId p); discriminate.
Qed.

(** ** The id counter stays ahead of the rows *)

Lemma ids_below_insert us n row :
  Forall (fun u => User.id u < n) us -> User.id row = n ->
  Forall (fun u => User.id u < n + 1) (us ++ [row]).
Proof.
  intros H E. apply Forall_app. split.
  - eapply Forall_impl; [|exact H]. simpl. intros. lia.
  - constructor; [lia|constructor].
Qed.

Lemma ids_below_link i g nm pic n us :
  Forall (fun u => User.id u < n) us ->
  Forall (fun u => User.id u < n)
    (map (fun u => if has_id i u then link_google (Some g) nm pic u else u) us).
Proof.
  induction 1 as [|u us Hu _ IH]; simpl; constructor; [|exact IH].
  now destruct (has_id i u).
Qed.

(** Register, Login and the Google login keep every user id below the
    counter the next insert will use. *)
Lemma run_auth_ids_below {L : Libs} op env now req db :
  ids_below_counter db -> ids_below_counter (snd (run_auth op env now req db)).
Proof.
  unfold ids_below_counter. intros H.
  destruct op as [salt| |]; simpl run_auth.
  - unfold post_register. run_handler. by_cases.
    all: first [exact H | now apply ids_below_insert].
  - unfold post_login. run_handler. by_cases. all: exact H.
  - unfold post_google. run_handler. by_cases.
    all: first [exact H | now apply ids_below_insert | now apply ids_below_link].
Qed.

(** ** Claims about tokens and credentials *)

(** C6, amended.  Every token a successful Register or Login issues is
    signed over exactly the claims userId and email; every token a
    successful Google login issues is signed over userId, email and
    googleId.  In all three the user id and the email are those of the
    user in the response and of a row of the users table as the request
    leaves it, and on the Google route the googleId claim is that row's
    google_id column, which is not NULL in a table whose ids are below
    the counter; a Register or Login token has no googleId claim.  The key
    is the server's secret and the lifetime is seven days (604800
    seconds) from the moment of issue; a library that verifies what it
    signed gives back those claims with that expiry. *)
Theorem C6_token_claims {L : Libs} :
  forall op env now req db st m tok v,
    fst (run_auth op env now req db) = json st (AuthBody m tok v) ->
    exists p,
      tok = jwt_sign p (jwt_secret env) seven_days now /\
      userId p = v_id v /\ email p = v_email v /\
      claim_names p = issued_claims op /\
      seven_days = 604800 /\
      ((forall p k ttl t t', t' < t + ttl ->
          jwt_verify (jwt_sign p k ttl t) k t' =
          Some {| payload := p; iat := t; exp := t + ttl |}) ->
       forall t, t < now + seven_days ->
         jwt_verify tok (jwt_secret env) t =
         Some {| payload := p; iat := now; exp := now + 604800 |}) /\
      exists row,
        In row (users (snd (run_auth op env now req db))) /\
        User.id row = userId p /\ User.email row = email p /\
        match op with
        | LoginWithExternalIdentity =>
            googleId p = Present (User.google_id row) /\
            (ids_below_counter db -> exists g, User.google_id row = Some g)
        | _ => googleId p = Absent
        end.
Proof.
  intros op env now req db st m tok v H.
  destruct (run_auth_signs_row _ _ _ _ _ _ _ _ _ H)
    as [p [row [Ht [Hin [Hi [He [Hvi [Hve Hg]]]]]]]].
  exists p. split; [exact Ht|]. split; [congruence|]. split; [congruence|].
  split.
  { unfold claim_names. destruct op; simpl in *;
      try (now rewrite Hg); destruct Hg as [-> _]; reflexivity. }
  split; [reflexivity|]. split.
  { intros Hjwt t Hlt. subst tok. now apply Hjwt. }
  exists row. split; [exact Hin|]. split; [congruence|]. split; [congruence|].
  exact Hg.
Qed.

(** C7.  When the Google login finds an existing user without a Google id,
    it answers 200 and the users table is the old one with that user's
    google_id, name and picture set from the verified identity: the row
    keeps its id, email, password hash and creation time, rows with
    another id are untouched, and the watchlist is untouched.  And
    whatever Register, Login or the Google login does in a table whose
    ids are distinct, every user row that was there is still there with
    the same id, email and password hash, and with the same Google id if
    it had one: a stored Google id is never replaced or removed. *)
Theorem C7_linking_keeps_credentials {L : Libs} :
  forall env now db,
    (forall req p u rest,
       truthy (body_credential req) = true ->
       verifyIdToken (field (body_credential req)) (GOOGLE_CLIENT_ID env) = WithPayload p ->
       truthy (g_email p) = true ->
       filter (fun x => opt_eqb (User.google_id x) (sub p)
                        || has_email (field (g_email p)) x) (users db) = u :: rest ->
       truthy (User.google_id u) = false ->
       let db' := snd (post_google env now req db) in
       status (fst (post_google env now req db)) = 200 /\
       Forall2 (fun x x' =>
                  User.id x' = User.id x /\ User.email x' = User.email x /\
                  User.password x' = User.password x /\
                  User.created_at x' = User.created_at x /\
                  (User.id x <> User.id u -> x' = x) /\
                  (User.id x = User.id u ->
                   User.google_id x' = Some (sub p) /\
                   User.name x' = g_name p /\ User.picture x' = g_picture p))
               (users db) (users db') /\
       (exists u', In u' (users db') /\
          User.id u' = User.id u /\ User.email u' = User.email u /\
          User.password u' = User.password u /\
          User.created_at u' = User.created_at u /\
          User.google_id u' = Some (sub p) /\
          User.name u' = g_name p /\ User.picture u' = g_picture p) /\
       watchlist db' = watchlist db) /\
    (forall op req,
       NoDup (map User.id (users db)) ->
       users_kept (users db) (users (snd (run_auth op env now req db)))).
Proof.
  intros env now db. split; [|intros op req Hn; now apply run_auth_keeps].
  intros req p u rest Hc Ht Hm Hf Hu. cbv zeta.
  rewrite (post_google_link_run env now req db p u rest Hc Ht Hm Hf Hu). simpl.
  split; [reflexivity|]. split; [|split; [|reflexivity]].
  - clear Hf. induction (users db) as [|x us IH]; simpl; constructor; [|exact IH].
    unfold has_id. destruct (Z.eqb_spec (User.id x) (User.id u)) as [E|E]; simpl.
    + repeat split; auto; contradiction.
    + repeat split; auto; contradiction.
  - assert (Hin : In u (users db)).
    { assert (X : In u (u :: rest)) by now left.
      rewrite <- Hf in X. now apply filter_In in X. }
    exists (link_google (Some (sub p)) (g_name p) (g_picture p) u).
    split; [|now repeat split].
    apply in_map_iff. exists u. split; [|exact Hin].
    unfold has_id. now rewrite Z.eqb_refl.
Qed.

Lemma bearer_header tok :
  has_char " " tok = false -> header_token (Some ("Bearer " ++ tok)) = Some tok.
Proof.
  intros H. pose proof (header_token_second_word "Bearer" tok "" eq_refl H (or_introl eq_refl)) as X.
  now rewrite append_empty_r in X.
Qed.

(** C9.  A token that a successful Register, Login or Google login has
    just issued, sent as [Authorization: Bearer <token>] at any moment
    before its seven days are over, is accepted by the middleware: the
    token is signed with the key expression the middleware verifies with,
    and the claims the middleware puts into [req.user] carry, as userId,
    the id of the user in the issuing response.  Each watchlist operation
    then runs for that user: List answers 200 with that user's entries
    and sends the one SELECT for that id, Add inserts for that id or
    reports the duplicate or the missing field, ToggleFavorite updates
    that user's entry or answers 404, Remove deletes that user's entry;
    every statement sent is scoped by that id.  Assumed of jsonwebtoken:
    a token verifies under its key until it expires, and is a non-empty
    word without spaces. *)
Theorem C9_issued_token_accepted {L : Libs} :
  forall op env now req db st m tok v,
    fst (run_auth op env now req db) = json st (AuthBody m tok v) ->
    (forall p k ttl t t', t' < t + ttl ->
       jwt_verify (jwt_sign p k ttl t) k t' =
       Some {| payload := p; iat := t; exp := t + ttl |}) ->
    (forall p k ttl t,
       has_char " " (jwt_sign p k ttl t) = false /\ jwt_sign p k ttl t <> "") ->
    forall t req',
      t < now + seven_days ->
      authorization req' = Some ("Bearer " ++ tok) ->
      let u := v_id v in
      let sym := params_symbol req' in
      exists dec,
        verified_user env t req' = Some dec /\
        userId (payload dec) = u /\
        (forall next, authenticateToken env t req' next = next (set_user dec req')) /\
        (forall wop db2,
           exists qs, ran db2 (snd (run_op wop env t req' db2)) qs /\
                      Forall (fun q => stmt_scope q = Some u) qs) /\
        tok = jwt_sign (payload dec) (jwt_secret env) seven_days now /\
        email (payload dec) = v_email v /\
        exp dec = now + seven_days /\
        user (set_user dec req') = Some dec /\
        (forall db2, exists views rows,
           get_watchlist env t req' db2 =
             (json 200 (WatchlistBody views), record_stmt (SelectWatchlist u) db2) /\
           Forall2 shows views rows /\
           Permutation rows (filter (owns u) (watchlist db2)) /\
           StronglySorted listed_before views) /\
        (forall db2,
           truthy (body_symbol req') = false \/ truthy (body_name req') = false ->
           post_add env t req' db2 =
             (json 400 (Message "Symbol and name are required"), db2)) /\
        (forall db2 s n, asks_to_add req' s n ->
           post_add env t req' db2 =
             if existsb (matches u s) (watchlist db2)
             then (json 400 (Message "Stock already in watchlist"),
                   record_stmt (SelectWatchlistItem u s) db2)
             else (json 201 (Message "Stock added to watchlist"),
                   set_watchlist
                     (watchlist db2 ++
                      [{| WatchlistItem.id := watchlist_next db2;
                          WatchlistItem.user_id := u;
                          WatchlistItem.symbol := s;
                          WatchlistItem.name := n;
                          WatchlistItem.is_favorite := false;
                          WatchlistItem.added_at := t |}])
                     (watchlist_next db2 + 1)
                     (record_stmt (InsertWatchlist u s n)
                        (record_stmt (SelectWatchlistItem u s) db2)))) /\
        (forall db2 b, body_isFavorite req' = JBool b ->
           put_favorite env t req' db2 =
             ((if existsb (matches u sym) (watchlist db2)
               then json 200 (Message ("Stock " ++ (if b then "favorited" else "unfavorited")
                                                ++ " successfully"))
               else json 404 (Message "Stock not found in watchlist")),
              set_watchlist
                (map (fun w => if matches u sym w then set_favorite b w else w)
                     (watchlist db2))
                (watchlist_next db2) (record_stmt (UpdateFavorite b u sym) db2))) /\
        (forall db2,
           delete_remove env t req' db2 =
             (json 200 (Message "Stock removed from watchlist"),
              set_watchlist (filter (fun w => negb (matches u sym w)) (watchlist db2))
                            (watchlist_next db2) (record_stmt (DeleteWatchlist u sym) db2))).
Proof.
  intros op env now req db st m tok v H Hjwt Hword t req' Hlt Hauth u sym.
  destruct (run_auth_issues _ _ _ _ _ _ _ _ _ H) as [p [Ht [Hi [He _]]]].
  destruct (Hword p (jwt_secret env) seven_days now) as [Hsp Hne]. rewrite <- Ht in *.
  assert (Hv : verified_user env t req' =
               Some {| payload := p; iat := now; exp := now + seven_days |}).
  { unfold verified_user. rewrite Hauth, (bearer_header _ Hsp).
    destruct (String.eqb_spec tok ""); [contradiction|].
    rewrite Ht. now apply Hjwt. }
  fold u in Hi.
  eexists. split; [exact Hv|]. split; [exact Hi|]. split.
  { intros next. now apply auth_accepts. }
  split.
  { intros wop db2.
    destruct (run_op_frame env t wop req' _ db2 Hv) as [X _].
    simpl in X. now rewrite Hi in X. }
  split; [exact Ht|]. split; [exact He|]. split; [reflexivity|].
  split; [reflexivity|]. split.
  { intros db2. rewrite (get_watchlist_run _ _ _ _ Hv). simpl. rewrite Hi.
    exists (map view_item (order_by (filter (owns u) (watchlist db2)))),
           (order_by (filter (owns u) (watchlist db2))).
    split; [reflexivity|]. split; [apply view_item_shows|].
    split; [apply order_by_perm|]. apply view_item_sorted, order_by_sorted. }
  split.
  { intros db2 Hm. exact (post_add_missing _ _ _ _ Hv db2 Hm). }
  split.
  { intros db2 s n Ha. rewrite (post_add_asked _ _ _ _ Hv s n db2 Ha). simpl.
    now rewrite Hi. }
  split.
  { intros db2 b Hb. rewrite (put_favorite_run _ _ _ _ Hv b db2 Hb). simpl.
    now rewrite Hi. }
  intros db2. rewrite (delete_remove_run _ _ _ _ Hv). simpl. now rewrite Hi.
Qed.

(** ** The handlers on the sample deployment *)

Example alice_lists_her_watchlist :
  get_watchlist (L := RefLibs) Sample.env 2000
    (Sample.watch_request Sample.as_alice "" JUndefined) Sample.db
  = (json 200 (WatchlistBody [view_item Sample.msft; view_item Sample.aapl]),
     record_stmt (SelectWatchlist 1) Sample.db).
Proof. vm_compute. reflexivity. Qed.

Example expired_token_is_refused :
  fst (get_watchlist (L := RefLibs) Sample.env (1000 + seven_days)
         (Sample.watch_request Sample.as_alice "" JUndefined) Sample.db)
  = json 403 (Message "Invalid or expired token").
Proof. vm_compute. reflexivity. Qed.

Example bob_cannot_log_in_with_a_password :
  fst (post_login (L := RefLibs) Sample.env 1000
         (Sample.auth_request (Some "bob@example.com") (Some "anything") None)
         Sample.db)
  = json 401 (Message "Please sign in with Google").
Proof. vm_compute. reflexivity. Qed.

(** ** The claims at work on the sample deployment *)

Lemma C1_witness :
  let req := Sample.watch_request Sample.as_alice "AAPL" (JBool true) in
  verified_user (L := RefLibs) Sample.env 2000 req = Some Sample.alice_decoded /\
  others 1 (watchlist (snd (run_op (L := RefLibs) ToggleFavorite Sample.env 2000 req Sample.db)))
  = [Sample.tsla].
Proof.
  split; [reflexivity|].
  exact (proj1 (proj2 (proj2
    (C1_watchlist_scoped_by_token (L := RefLibs) Sample.env 2000 ToggleFavorite
       (Sample.watch_request Sample.as_alice "AAPL" (JBool true))
       Sample.alice_decoded Sample.db eq_refl)))).
Defined.

Lemma C4_witness :
  fst (get_watchlist (L := RefLibs) Sample.env 2000
         (Sample.watch_request Sample.as_alice "" JUndefined) Sample.db)
  = json 200 (WatchlistBody
      [ {| v_symbol := "MSFT"; v_name := "Microsoft";
           v_isFavorite := true; v_addedAt := 200 |};
        {| v_symbol := "AAPL"; v_name := "Apple Inc.";
           v_isFavorite := false; v_addedAt := 100 |} ]).
Proof.
  destruct (C4_list_order (L := RefLibs) Sample.env 2000
              (Sample.watch_request Sample.as_alice "" JUndefined)
              Sample.alice_decoded Sample.db eq_refl)
    as [views [rows [H1 [_ [_ [_ [_ [_ [H5 _]]]]]]]]].
  rewrite H1.
  destruct (H5 Sample.aapl Sample.msft (Permutation_refl _) eq_refl eq_refl) as [_ ->].
  reflexivity.
Defined.

Lemma C5_witness :
  let req := Sample.watch_request Sample.as_alice "AAPL" (JBool true) in
  let db' := snd (put_favorite (L := RefLibs) Sample.env 2000 req Sample.db) in
  fst (put_favorite (L := RefLibs) Sample.env 2000 req Sample.db)
    = json 200 (Message "Stock favorited successfully") /\
  fst (put_favorite (L := RefLibs) Sample.env 3000 req db')
    = fst (put_favorite (L := RefLibs) Sample.env 2000 req Sample.db) /\
  watchlist (snd (put_favorite (L := RefLibs) Sample.env 3000 req db')) = watchlist db'.
Proof.
  intros req db'.
  pose proof (C5_toggle_favorite (L := RefLibs) Sample.env 2000 3000 req
                Sample.alice_decoded Sample.alice_decoded Sample.db
                eq_refl eq_refl eq_refl) as [_ H].
  destruct (H true eq_refl) as [_ [_ [H3 _]]].
  destruct (H3 eq_refl) as [A [_ [_ [B C]]]].
  split; [exact A|]. split; [exact B|exact C].
Defined.

Lemma C8_witness :
  let req := Sample.watch_request Sample.as_alice "TSLA" JUndefined in
  fst (delete_remove (L := RefLibs) Sample.env 2000 req Sample.db)
    = json 200 (Message "Stock removed from watchlist") /\
  watchlist (snd (delete_remove (L := RefLibs) Sample.env 2000 req Sample.db))
    = [Sample.aapl; Sample.msft; Sample.tsla].
Proof.
  intros req.
  pose proof (C8_remove_idempotent (L := RefLibs) Sample.env 2000 3000 req
                Sample.alice_decoded Sample.alice_decoded Sample.db
                eq_refl eq_refl eq_refl) as [A [_ [B _]]].
  split; [exact A|]. exact (proj1 (B eq_refl)).
Defined.

Lemma C10_witness :
  let req := Sample.watch_request (Some ("Token " ++ Sample.alice_token)) "" JUndefined in
  authenticateToken (L := RefLibs) Sample.env 2000 req
    (fun r => respond (json 200 (Message "next"))) Sample.db
  = (json 200 (Message "next"), Sample.db).
Proof.
  intros req.
  pose proof (C10_authenticate_token (L := RefLibs) Sample.env 2000 req
                (fun r => respond (json 200 (Message "next"))) Sample.db)
    as [A [B _]].
  rewrite (B Sample.alice_token).
  - reflexivity.
  - apply (A "Token" Sample.alice_token ""); [reflexivity|reflexivity|reflexivity|now left].
  - discriminate.
Defined.

Lemma C2_witness :
  fst (post_login_json (L := RefLibs) Sample.env 1000
         (Sample.auth_request (Some "nobody@example.com") None None)
         (JNum 12345678) Sample.db)
    = json 401 (Message "Invalid credentials") /\
  fst (post_login_json (L := RefLibs) Sample.env 1000
         (Sample.auth_request (Some "alice@example.com") None None)
         (JNum 12345678) Sample.db)
    = json 500 (Message "Server error").
Proof.
  apply (proj2 (proj2 (C2_login_unauthorized (L := RefLibs) Sample.env 1000))).
  - reflexivity.
  - reflexivity.
  - reflexivity.
  - reflexivity.
  - reflexivity.
  - exists Sample.alice. split; reflexivity.
Defined.

Lemma C3_witness :
  let req := Sample.auth_request (Some "dave@example.com") (Some "hunter22") None in
  let db1 := snd (post_register (L := RefLibs) Sample.env 1000 "salt" req Sample.db) in
  exists tok view,
    fst (post_login (L := RefLibs) Sample.env 5000 req db1)
      = json 200 (AuthBody "Login successful" tok view) /\
    exists dec, @jwt_verify RefLibs tok (jwt_secret Sample.env) 6000 = Some dec /\
                userId (payload dec) = v_id view.
Proof.
  intros req db1.
  destruct (C3_register_then_login (L := RefLibs) Sample.env 1000 5000 "salt" req Sample.db)
    as [uid [tok1 [tok2 [view [_ [Hid [_ [_ [Hlogin Hdec]]]]]]]]].
  - reflexivity.
  - simpl. lia.
  - intros u [<-|[<-|[]]]; discriminate.
  - intros u [<-|[<-|[]]]; simpl; lia.
  - intros p s. apply String.eqb_refl.
  - intros p s. discriminate.
  - intros p k ttl t t'. apply Ref_verify_sign.
  - exists tok2, view. split; [exact Hlogin|].
    destruct (Hdec 6000) as [dec [H1 [H2 _]]]; [unfold seven_days; lia|].
    exists dec. split; [exact H1|]. now rewrite Hid.
Defined.

Lemma C6_witness :
  exists p,
    Sample.alice_token = @jwt_sign RefLibs p (jwt_secret Sample.env) seven_days 1000 /\
    claim_names p = ["userId"; "email"] /\ googleId p = Absent.
Proof.
  destruct (C6_token_claims (L := RefLibs) Login Sample.env 1000
              (Sample.auth_request (Some "alice@example.com") (Some "hunter22") None)
              Sample.db 200 "Login successful" Sample.alice_token
              (public_view Sample.alice) eq_refl)
    as [p [H1 [_ [_ [H2 [_ [_ [row [_ [_ [_ H3]]]]]]]]]]].
  exists p. split; [exact H1|]. split; [exact H2|exact H3].
Defined.

(** C6, as stated, fails on the Google route: the token alice gets when
    she signs in with Google carries a third claim, googleId. *)
Lemma C6_google_token_carries_googleId :
  exists tok view dec,
    fst (run_auth (L := RefLibs) LoginWithExternalIdentity Sample.env 1000
           (Sample.auth_request None None (Some "id-token-of-alice")) Sample.db)
      = json 200 (AuthBody "Google login successful" tok view) /\
    @jwt_verify RefLibs tok (jwt_secret Sample.env) 1000 = Some dec /\
    googleId (payload dec) = Present (Some "g-alice") /\
    claim_names (payload dec) = ["userId"; "email"; "googleId"] /\
    claim_names (payload dec) <> ["userId"; "email"].
Proof.
  do 3 eexists. split; [vm_compute; reflexivity|].
  split; [vm_compute; reflexivity|].
  split; [reflexivity|]. split; [reflexivity|]. discriminate.
Qed.

Lemma C7_witness :
  let req := Sample.auth_request None None (Some "id-token-of-alice") in
  let db' := snd (post_google (L := RefLibs) Sample.env 1000 req Sample.db) in
  status (fst (post_google (L := RefLibs) Sample.env 1000 req Sample.db)) = 200 /\
  (exists u', In u' (users db') /\
    User.id u' = 1 /\ User.password u' = Some "$hunter22" /\
    User.google_id u' = Some "g-alice") /\
  users_kept (users Sample.db) (users db').
Proof.
  intros req db'.
  assert (Hn : NoDup (map User.id (users Sample.db))).
  { simpl. constructor; [intros [H|[]]; discriminate|].
    constructor; [intros []|constructor]. }
  pose proof (proj2 (C7_linking_keeps_credentials (L := RefLibs) Sample.env 1000 Sample.db)
                LoginWithExternalIdentity req Hn) as K.
  destruct (proj1 (C7_linking_keeps_credentials (L := RefLibs) Sample.env 1000 Sample.db)
              req
              {| sub := "g-alice"; g_email := Some "alice@example.com";
                 g_name := Some "Alice"; g_picture := Some "alice.png" |}
              Sample.alice [] eq_refl eq_refl eq_refl eq_refl eq_refl)
    as [A [_ [[u' [B1 [B2 [_ [B3 [_ [B4 _]]]]]]] _]]].
  split; [exact A|]. split; [|exact K]. exists u'. repeat split; assumption.
Defined.

Lemma C9_witness :
  let req' := Sample.watch_request Sample.as_alice "AAPL" JUndefined in
  (exists dec,
     verified_user (L := RefLibs) Sample.env 2000 req' = Some dec /\
     userId (payload dec) = 1) /\
  fst (delete_remove (L := RefLibs) Sample.env 2000 req' Sample.db)
    = json 200 (Message "Stock removed from watchlist") /\
  watchlist (snd (delete_remove (L := RefLibs) Sample.env 2000 req' Sample.db))
    = [Sample.msft; Sample.tsla].
Proof.
  intros req'.
  destruct (C9_issued_token_accepted (L := RefLibs) Login Sample.env 1000
              (Sample.auth_request (Some "alice@example.com") (Some "hunter22") None)
              Sample.db 200 "Login successful" Sample.alice_token
              (public_view Sample.alice) eq_refl
              (fun p k ttl t t' => Ref_verify_sign p k ttl t t')
              (fun p k ttl t => Ref_sign_word p k ttl t)
              2000 req')
    as [dec [H1 [H2 [_ [_ [_ [_ [_ [_ [_ [_ [_ [_ H3]]]]]]]]]]]]].
  - unfold seven_days. lia.
  - reflexivity.
  - split; [exists dec; split; [exact H1|exact H2]|].
    rewrite (H3 Sample.db). split; reflexivity.
Defined.

(** * Further properties of the routers *)

(** ** Add *)

(** X1.  Add answers 400 "Symbol and name are required" when the symbol or
    the name is missing or the empty string, before any statement is sent:
    the database, its log included, is as it was. *)
Theorem add_requires_symbol_and_name {L : Libs} :
  forall env now req d db,
    verified_user env now req = Some d ->
    body_symbol req = None \/ body_symbol req = Some "" \/
    body_name req = None \/ body_name req = Some "" ->
    post_add env now req db =
    (json 400 (Message "Symbol and name are required"), db).
Proof.
  intros env now req d db Hv H. apply (post_add_missing _ _ _ _ Hv).
  destruct H as [H|[H|[H|H]]]; rewrite H; auto.
Qed.

(** X2.  For a request with a symbol and a name, Add answers 201 exactly
    when the caller has no entry for that symbol, and 400 "Stock already
    in watchlist" otherwise.  On 400 both tables are as they were.  On 201
    the table is the old one followed by one row: the caller's id, the
    symbol and the name exactly as sent, not a favorite, added now, under
    the id the counter stood at. *)
Theorem add_inserts_or_reports_duplicate {L : Libs} :
  forall env now req d db s n,
    verified_user env now req = Some d ->
    asks_to_add req s n ->
    let u := userId (payload d) in
    let r := fst (post_add env now req db) in
    let db' := snd (post_add env now req db) in
    (status r = 201 <-> existsb (matches u s) (watchlist db) = false) /\
    (existsb (matches u s) (watchlist db) = true ->
       r = json 400 (Message "Stock already in watchlist") /\
       watchlist db' = watchlist db /\ watchlist_next db' = watchlist_next db) /\
    (existsb (matches u s) (watchlist db) = false ->
       r = json 201 (Message "Stock added to watchlist") /\
       watchlist db' =
         (watchlist db ++
          [{| WatchlistItem.id := watchlist_next db;
              WatchlistItem.user_id := u;
              WatchlistItem.symbol := s;
              WatchlistItem.name := n;
              WatchlistItem.is_favorite := false;
              WatchlistItem.added_at := now |}])%list /\
       watchlist_next db' = watchlist_next db + 1) /\
    users db' = users db.
Proof.
  intros env now req d db s n Hv Ha u r db'. subst r db'.
  rewrite (post_add_asked _ _ _ _ Hv s n db Ha). fold u.
  destruct (existsb (matches u s) (watchlist db)); simpl.
  - split; [split; discriminate|]. split; [auto|]. split; [discriminate|reflexivity].
  - split; [split; reflexivity|]. split; [discriminate|]. split; [auto|reflexivity].
Qed.

(** X3.  After Add has answered 201, List for the same user answers with
    the entries it had before plus the new one, which is not a favorite;
    for a user who had no entries it answers with exactly that one. *)
Theorem add_then_list {L : Libs} :
  forall env now now2 req req2 d d2 db s n,
    verified_user env now req = Some d ->
    verified_user env now2 req2 = Some d2 ->
    userId (payload d2) = userId (payload d) ->
    asks_to_add req s n ->
    existsb (matches (userId (payload d)) s) (watchlist db) = false ->
    let u := userId (payload d) in
    let db' := snd (post_add env now req db) in
    let added := {| v_symbol := s; v_name := n; v_isFavorite := false; v_addedAt := now |} in
    exists views,
      fst (get_watchlist env now2 req2 db') = json 200 (WatchlistBody views) /\
      Permutation views (map view_item (filter (owns u) (watchlist db)) ++ [added]) /\
      In added views /\
      (filter (owns u) (watchlist db) = [] -> views = [added]).
Proof.
  intros env now now2 req req2 d d2 db s n Hv Hv2 Hu Ha Hnew u db' added. subst db'.
  rewrite (post_add_asked _ _ _ _ Hv s n db Ha). rewrite Hnew.
  rewrite (get_watchlist_run _ _ _ _ Hv2). simpl. rewrite Hu. fold u.
  rewrite filter_app. simpl. unfold owns at 2. simpl. rewrite Z.eqb_refl.
  set (row := {| WatchlistItem.id := watchlist_next db; WatchlistItem.user_id := u;
                 WatchlistItem.symbol := s; WatchlistItem.name := n;
                 WatchlistItem.is_favorite := false; WatchlistItem.added_at := now |}).
  set (mine := filter (owns u) (watchlist db)).
  assert (P : Permutation (map view_item (order_by (mine ++ [row])))
                          (map view_item mine ++ [added])).
  { rewrite (order_by_perm (mine ++ [row])), map_app. reflexivity. }
  eexists. split; [reflexivity|]. split; [exact P|]. split.
  - apply (Permutation_in _ (Permutation_sym P)). apply in_or_app. right. now left.
  - intros E. now rewrite E.
Qed.

(** X4.  Add is not repeatable: once it has answered 201, another Add of the
    same symbol by the same user, whatever the name and whenever it comes,
    answers 400 "Stock already in watchlist" and leaves the table as the
    first Add left it. *)
Theorem add_twice_conflicts {L : Libs} :
  forall env now now2 req req2 d d2 db s n n2,
    verified_user env now req = Some d ->
    verified_user env now2 req2 = Some d2 ->
    userId (payload d2) = userId (payload d) ->
    asks_to_add req s n ->
    asks_to_add req2 s n2 ->
    status (fst (post_add env now req db)) = 201 ->
    let db' := snd (post_add env now req db) in
    fst (post_add env now2 req2 db') = json 400 (Message "Stock already in watchlist") /\
    watchlist (snd (post_add env now2 req2 db')) = watchlist db'.
Proof.
  intros env now now2 req req2 d d2 db s n n2 Hv Hv2 Hu Ha Ha2 H201 db'. subst db'.
  rewrite (post_add_asked _ _ _ _ Hv s n db Ha) in *.
  destruct (existsb (matches (userId (payload d)) s) (watchlist db)) eqn:E;
    [discriminate|]. simpl.
  rewrite (post_add_asked _ _ _ _ Hv2 s n2 _ Ha2). simpl. rewrite Hu.
  assert (X : existsb (matches (userId (payload d)) s)
                (watchlist db ++
                 [{| WatchlistItem.id := watchlist_next db;
                     WatchlistItem.user_id := userId (payload d);
                     WatchlistItem.symbol := s; WatchlistItem.name := n;
                     WatchlistItem.is_favorite := false;
                     WatchlistItem.added_at := now |}]) = true).
  { rewrite existsb_app. simpl. unfold matches, owns. simpl.
    now rewrite Z.eqb_refl, String.eqb_refl, !orb_true_r. }
  rewrite X. split; reflexivity.
Qed.

(** ** What the watchlist operations do to the tables *)

Lemma post_add_cases {L : Libs} env now req d db :
  verified_user env now req = Some d ->
  post_add env now req db = (json 400 (Message "Symbol and name are required"), db) \/
  exists s n, asks_to_add req s n.
Proof.
  intros Hv.
  destruct (body_symbol req) as [s|] eqn:Es;
    [|left; apply (post_add_missing _ _ _ _ Hv); rewrite Es; auto].
  destruct (body_name req) as [n|] eqn:En;
    [|left; apply (post_add_missing _ _ _ _ Hv); rewrite En; auto].
  destruct (String.eqb_spec s "") as [->|Hs];
    [left; apply (post_add_missing _ _ _ _ Hv); rewrite Es; auto|].
  destruct (String.eqb_spec n "") as [->|Hn];
    [left; apply (post_add_missing _ _ _ _ Hv); rewrite En; auto|].
  right. exists s, n. now repeat split.
Qed.

Lemma try_catch_fst_ok {A} (m : M A) (h : A) db a db' :
  m db = (Resolved a, db') -> try_catch m h db = (a, db').
Proof. unfold try_catch. now intros ->. Qed.

(** The effect of a watchlist request on the tables is one of four. *)
Lemma run_op_effect {L : Libs} op env now req db :
  let db' := snd (run_op op env now req db) in
  users db' = users db /\ users_next db' = users_next db /\
  ((watchlist db' = watchlist db /\ watchlist_next db' = watchlist_next db) \/
   (exists u s n,
      existsb (matches u s) (watchlist db) = false /\
      watchlist db' =
        (watchlist db ++
         [{| WatchlistItem.id := watchlist_next db; WatchlistItem.user_id := u;
             WatchlistItem.symbol := s; WatchlistItem.name := n;
             WatchlistItem.is_favorite := false; WatchlistItem.added_at := now |}])%list /\
      watchlist_next db' = watchlist_next db + 1) \/
   (exists u s b,
      watchlist db' =
        map (fun w => if matches u s w then set_favorite b w else w) (watchlist db) /\
      watchlist_next db' = watchlist_next db) \/
   (exists u s,
      watchlist db' = filter (fun w => negb (matches u s w)) (watchlist db) /\
      watchlist_next db' = watchlist_next db)).
Proof.
  intros db'. subst db'.
  destruct (verified_user env now req) as [d|] eqn:Hv.
  2:{ assert (R : exists r, run_op op env now req db = (r, db)).
      { destruct op; simpl;
          unfold get_watchlist, post_add, put_favorite, delete_remove;
          match goal with
          | |- exists r, authenticateToken _ _ _ ?next _ = _ =>
              destruct (auth_rejects env now req next db Hv) as [r [Hr _]]; eauto
          end. }
      destruct R as [r ->]. simpl. auto. }
  destruct op; simpl run_op.
  - rewrite (get_watchlist_run _ _ _ _ Hv). simpl. auto.
  - destruct (post_add_cases env now req d db Hv) as [->|[s [n Ha]]]; [simpl; auto|].
    rewrite (post_add_asked _ _ _ _ Hv s n db Ha).
    destruct (existsb (matches (userId (payload d)) s) (watchlist db)) eqn:E; simpl; auto.
    split; [reflexivity|]. split; [reflexivity|]. right. left.
    exists (userId (payload d)), s, n. auto.
  - destruct (body_isFavorite req) as [| |b| |] eqn:E;
      try (rewrite (put_favorite_bad _ _ _ _ Hv) by (rewrite E; reflexivity);
           simpl; auto).
    rewrite (put_favorite_run _ _ _ _ Hv b db E). simpl.
    split; [reflexivity|]. split; [reflexivity|]. right. right. left. eauto.
  - rewrite (delete_remove_run _ _ _ _ Hv). simpl.
    split; [reflexivity|]. split; [reflexivity|]. right. right. right. eauto.
Qed.

Lemma no_match_no_key u s ws :
  existsb (matches u s) ws = false -> ~ In (u, s) (map entry_key ws).
Proof.
  intros E Hin. apply in_map_iff in Hin. destruct Hin as [w [Hk Hw]].
  assert (X : existsb (matches u s) ws = true).
  { apply existsb_exists. exists w. split; [exact Hw|].
    unfold entry_key in Hk. injection Hk as H1 H2.
    unfold matches, owns. rewrite H1, H2, Z.eqb_refl, String.eqb_refl. reflexivity. }
  congruence.
Qed.

Lemma NoDup_map_filter {A B} (f : A -> B) (g : A -> bool) l :
  NoDup (map f l) -> NoDup (map f (filter g l)).
Proof.
  induction l as [|a l IH]; simpl; [auto|].
  intros H. inversion H as [|? ? Hn Hd]; subst.
  destruct (g a); simpl; [|auto]. constructor; [|auto].
  intros Hin. apply Hn. apply in_map_iff in Hin. destruct Hin as [x [Hx Hf]].
  apply filter_In in Hf. apply in_map_iff. exists x. tauto.
Qed.

Lemma NoDup_app_one {A} (l : list A) a : NoDup l -> ~ In a l -> NoDup (l ++ [a]).
Proof.
  intros H Hn. induction H as [|x l Hx Hl IH]; simpl.
  - constructor; [auto|constructor].
  - constructor.
    + intros Hin. apply in_app_or in Hin. destruct Hin as [Hin|[->|[]]]; [auto|].
      apply Hn. now left.
    + apply IH. intros Hin. apply Hn. now right.
Qed.

Lemma toggle_keeps_keys u s b ws :
  map entry_key (map (fun w => if matches u s w then set_favorite b w else w) ws)
  = map entry_key ws.
Proof. rewrite map_map. apply map_ext. intros w. now destruct (matches u s w). Qed.

Lemma toggle_keeps_ids u s b ws :
  map WatchlistItem.id (map (fun w => if matches u s w then set_favorite b w else w) ws)
  = map WatchlistItem.id ws.
Proof. rewrite map_map. apply map_ext. intros w. now destruct (matches u s w). Qed.

(** X5.  No watchlist request, authenticated or not, ever makes a
    (user, symbol) pair occur twice: if the pairs of the table are
    distinct before List, Add, ToggleFavorite or Remove, they are
    distinct after it. *)
Theorem watchlist_entries_stay_unique {L : Libs} :
  forall op env now req db,
    unique_entries db -> unique_entries (snd (run_op op env now req db)).
Proof.
  unfold unique_entries. intros op env now req db H.
  destruct (run_op_effect op env now req db)
    as [_ [_ [[-> _]|[[u [s [n [E [-> _]]]]]|[[u [s [b [-> _]]]]|[u [s [-> _]]]]]]]].
  - exact H.
  - rewrite map_app. simpl. apply NoDup_app_one; [exact H|].
    now apply no_match_no_key.
  - now rewrite toggle_keeps_keys.
  - now apply NoDup_map_filter.
Qed.

(** X6.  No watchlist request ever reuses a row id: if the ids of the
    table are distinct and below the counter before List, Add,
    ToggleFavorite or Remove, they are so after it; the users table and
    its counter are never touched. *)
Theorem watchlist_ids_stay_fresh {L : Libs} :
  forall op env now req db,
    watchlist_ids_ok db ->
    let db' := snd (run_op op env now req db) in
    watchlist_ids_ok db' /\ users db' = users db /\ users_next db' = users_next db.
Proof.
  unfold watchlist_ids_ok. intros op env now req db [Hd Hb]. cbv zeta.
  destruct (run_op_effect op env now req db)
    as [Hu [Hn [[-> ->]|[[u [s [n [E [-> ->]]]]]|[[u [s [b [-> ->]]]]|[u [s [-> ->]]]]]]]];
    (split; [|split; assumption]).
  - auto.
  - split.
    + rewrite map_app. simpl. apply NoDup_app_one; [exact Hd|].
      intros Hin. apply in_map_iff in Hin. destruct Hin as [w [Hw Hin]].
      rewrite Forall_forall in Hb. specialize (Hb w Hin). lia.
    + apply Forall_app. split.
      * eapply Forall_impl; [|exact Hb]. simpl. intros. lia.
      * constructor; [simpl; lia|constructor].
  - split; [now rewrite toggle_keeps_ids|].
    apply Forall_forall. intros w Hin. apply in_map_iff in Hin.
    destruct Hin as [w0 [<- Hin]]. rewrite Forall_forall in Hb.
    specialize (Hb w0 Hin). now destruct (matches u s w0).
  - split; [now apply NoDup_map_filter|].
    apply Forall_forall. intros w Hin. apply filter_In in Hin.
    rewrite Forall_forall in Hb. now apply Hb.
Qed.

(** ** How the watchlist operations compose *)

(** X7.  Add and then Remove of a symbol the caller did not have gives the
    watchlist table back exactly as it was, row for row. *)
Theorem add_then_remove_restores {L : Libs} :
  forall env now now2 req req2 d d2 db s n,
    verified_user env now req = Some d ->
    verified_user env now2 req2 = Some d2 ->
    userId (payload d2) = userId (payload d) ->
    asks_to_add req s n ->
    params_symbol req2 = s ->
    existsb (matches (userId (payload d)) s) (watchlist db) = false ->
    let db' := snd (post_add env now req db) in
    status (fst (post_add env now req db)) = 201 /\
    fst (delete_remove env now2 req2 db') = json 200 (Message "Stock removed from watchlist") /\
    watchlist (snd (delete_remove env now2 req2 db')) = watchlist db.
Proof.
  intros env now now2 req req2 d d2 db s n Hv Hv2 Hu Ha Hs Hnew db'. subst db'.
  rewrite (post_add_asked _ _ _ _ Hv s n db Ha), Hnew. simpl.
  rewrite (delete_remove_run _ _ _ _ Hv2). simpl. rewrite Hu, Hs.
  split; [reflexivity|]. split; [reflexivity|].
  rewrite filter_app. simpl. unfold matches at 2, owns. simpl.
  rewrite Z.eqb_refl, String.eqb_refl. simpl.
  rewrite app_nil_r. now apply delete_none.
Qed.

(** X8.  After Remove the entry is gone for good: ToggleFavorite of that
    symbol answers 404 whatever boolean it carries, and Add of that symbol
    answers 201 again. *)
Theorem remove_then_toggle_or_add {L : Libs} :
  forall env now now2 req req2 d d2 db,
    verified_user env now req = Some d ->
    verified_user env now2 req2 = Some d2 ->
    userId (payload d2) = userId (payload d) ->
    params_symbol req2 = params_symbol req ->
    let db' := snd (delete_remove env now req db) in
    (forall b, body_isFavorite req2 = JBool b ->
       fst (put_favorite env now2 req2 db') =
       json 404 (Message "Stock not found in watchlist")) /\
    (forall n, asks_to_add req2 (params_symbol req) n ->
       fst (post_add env now2 req2 db') = json 201 (Message "Stock added to watchlist")).
Proof.
  intros env now now2 req req2 d d2 db Hv Hv2 Hu Hs db'. subst db'.
  rewrite (delete_remove_run _ _ _ _ Hv). simpl.
  set (u := userId (payload d)). set (s := params_symbol req).
  assert (G : existsb (matches u s)
                (filter (fun w => negb (matches u s w)) (watchlist db)) = false).
  { apply existsb_filter_nil.
    induction (watchlist db) as [|w l IH]; simpl; [reflexivity|].
    destruct (matches u s w) eqn:E; simpl; [exact IH|]. now rewrite E. }
  split.
  - intros b Hb. rewrite (put_favorite_run _ _ _ _ Hv2 b _ Hb). simpl.
    rewrite Hu, Hs. fold u s. now rewrite G.
  - intros n Ha. rewrite (post_add_asked _ _ _ _ Hv2 _ n _ Ha). simpl.
    rewrite Hu. fold u s. now rewrite G.
Qed.

Lemma sorted_head_is_favorite l :
  StronglySorted fav_then_recent l ->
  (exists x, In x l /\ WatchlistItem.is_favorite x = true) ->
  exists h t, l = h :: t /\ WatchlistItem.is_favorite h = true.
Proof.
  intros Hs [x [Hin Hx]]. destruct l as [|h t]; [contradiction|].
  exists h, t. split; [reflexivity|].
  destruct Hin as [->|Hin]; [exact Hx|].
  inversion Hs as [|? ? _ Hf]; subst. rewrite Forall_forall in Hf.
  destruct (Hf x Hin) as [[H _]|[H _]]; congruence.
Qed.

(** X9.  After ToggleFavorite has answered 200 for a symbol and a boolean,
    List shows as many entries as before, every entry of that symbol
    carries the boolean, and there is such an entry; when the boolean is
    true the first entry of the list is a favorite. *)
Theorem toggle_then_list {L : Libs} :
  forall env now now2 req req2 d d2 db b,
    verified_user env now req = Some d ->
    verified_user env now2 req2 = Some d2 ->
    userId (payload d2) = userId (payload d) ->
    body_isFavorite req = JBool b ->
    status (fst (put_favorite env now req db)) = 200 ->
    let u := userId (payload d) in
    let sym := params_symbol req in
    let db' := snd (put_favorite env now req db) in
    exists views,
      fst (get_watchlist env now2 req2 db') = json 200 (WatchlistBody views) /\
      List.length views = List.length (filter (owns u) (watchlist db)) /\
      (forall v, In v views -> v_symbol v = sym -> v_isFavorite v = b) /\
      (exists v, In v views /\ v_symbol v = sym) /\
      (b = true -> exists v rest, views = v :: rest /\ v_isFavorite v = true).
Proof.
  intros env now now2 req req2 d d2 db b Hv Hv2 Hu Hb H200 u sym db'. subst db'.
  rewrite (put_favorite_run _ _ _ _ Hv b db Hb) in *. fold u sym in H200 |- *.
  destruct (existsb (matches u sym) (watchlist db)) eqn:E; [|discriminate]. simpl.
  rewrite (get_watchlist_run _ _ _ _ Hv2). simpl. rewrite Hu. fold u.
  set (f := fun w => if matches u sym w then set_favorite b w else w).
  set (rows := order_by (filter (owns u) (map f (watchlist db)))).
  assert (Hf : forall w, owns u (f w) = owns u w).
  { intros w. unfold f. now destruct (matches u sym w). }
  assert (Hall : forall l, filter (owns u) (map f l) = map f (filter (owns u) l)).
  { induction l as [|w l IH]; simpl; [reflexivity|].
    rewrite Hf. destruct (owns u w); simpl; now rewrite IH. }
  pose proof (Hall (watchlist db)) as Hmine.
  assert (Hin : forall r, In r rows <->
                  exists w, In w (watchlist db) /\ owns u w = true /\ r = f w).
  { intros r. unfold rows. split.
    - intros H. apply (Permutation_in _ (order_by_perm _)) in H.
      rewrite Hmine in H. apply in_map_iff in H. destruct H as [w [<- H]].
      apply filter_In in H. exists w. tauto.
    - intros [w [H1 [H2 ->]]]. apply (Permutation_in _ (Permutation_sym (order_by_perm _))).
      rewrite Hmine. apply in_map. apply filter_In. tauto. }
  apply existsb_exists in E. destruct E as [w0 [Hw0 Hm0]].
  assert (Hrow0 : In (set_favorite b w0) rows).
  { apply Hin. exists w0. split; [exact Hw0|]. split; [now apply matches_owns in Hm0|].
    unfold f. now rewrite Hm0. }
  exists (map view_item rows). split; [reflexivity|]. split; [|split; [|split]].
  - rewrite length_map. unfold rows.
    rewrite (Permutation_length (order_by_perm _)), Hmine. apply length_map.
  - intros v Hv' Hs. apply in_map_iff in Hv'. destruct Hv' as [r [<- Hr]].
    apply Hin in Hr. destruct Hr as [w [_ [Ho ->]]]. simpl in Hs. unfold f in *.
    destruct (matches u sym w) eqn:Em; [reflexivity|].
    simpl in Hs. unfold matches in Em. rewrite Ho in Em. simpl in Em.
    apply String.eqb_neq in Em. contradiction.
  - exists (view_item (set_favorite b w0)). split; [now apply in_map|].
    simpl. unfold matches in Hm0. apply andb_prop in Hm0.
    now apply String.eqb_eq.
  - intros ->.
    destruct (sorted_head_is_favorite rows (order_by_sorted _)) as [h [t [Hr Hh]]].
    + exists (set_favorite true w0). auto.
    + exists (view_item h), (map view_item t). rewrite Hr. auto.
Qed.

Lemma post_add_insert_run {L : Libs} now u s n db :
  post_add_insert now u s n db =
  if existsb (matches u s) (watchlist db)
  then (json 500 (Message "Server error"), record_stmt (InsertWatchlist u s n) db)
  else (json 201 (Message "Stock added to watchlist"),
        set_watchlist
          (watchlist db ++
           [{| WatchlistItem.id := watchlist_next db;
               WatchlistItem.user_id := u;
               WatchlistItem.symbol := s;
               WatchlistItem.name := n;
               WatchlistItem.is_favorite := false;
               WatchlistItem.added_at := now |}])
          (watchlist_next db + 1)
          (record_stmt (InsertWatchlist u s n) db)).
Proof.
  unfold post_add_insert, try_catch, bind, insert_watchlist, pool_query, ret. simpl.
  now destruct (existsb (matches u s) (watchlist db)).
Qed.

Lemma watchlist_statuses_alone {L : Libs} op env now req db :
  In (status (fst (run_op op env now req db)))
     match op with
     | List => [200; 401; 403]
     | Add => [201; 400; 401; 403]
     | ToggleFavorite => [200; 400; 404; 401; 403]
     | Remove => [200; 401; 403]
     end.
Proof.
  destruct (verified_user env now req) as [d|] eqn:Hv.
  2:{ assert (R : exists r, run_op op env now req db = (r, db) /\
                            (status r = 401 \/ status r = 403)).
      { destruct op; simpl;
          unfold get_watchlist, post_add, put_favorite, delete_remove;
          apply auth_rejects; exact Hv. }
      destruct R as [r [-> [H|H]]]; simpl; rewrite H; destruct op; simpl; auto 6. }
  destruct op; simpl run_op.
  - rewrite (get_watchlist_run _ _ _ _ Hv). simpl. auto.
  - destruct (post_add_cases env now req d db Hv) as [->|[s [n Ha]]]; [simpl; auto|].
    rewrite (post_add_asked _ _ _ _ Hv s n db Ha).
    destruct (existsb _ _); simpl; auto.
  - destruct (body_isFavorite req) as [| |b| |] eqn:E;
      try (rewrite (put_favorite_bad _ _ _ _ Hv) by (rewrite E; reflexivity);
           simpl; auto).
    rewrite (put_favorite_run _ _ _ _ Hv b db E). simpl.
    destruct (existsb _ _); simpl; auto.
  - rewrite (delete_remove_run _ _ _ _ Hv). simpl. auto.
Qed.

(** X10.  The answers a watchlist route can give to a request whose body
    fields are strings or missing.  When the statements of the request
    run with no statement of another request between them (an
    unreachable database is outside this model): List 200, 401 or 403;
    Add 201, 400, 401 or 403; ToggleFavorite 200, 400, 404, 401 or 403;
    Remove 200, 401 or 403.  Add's check and insert are two awaited
    statements: run one after the other, the insert cannot be rejected;
    but when another request has stored the same (user, symbol) between
    them, the insert is rejected by the uniqueness constraint and Add
    answers 500 "Server error" and stores nothing.  So of two Adds of one
    pair whose checks both ran before either insert, the first answers
    201, the second 500, and one row is stored. *)
Theorem watchlist_statuses {L : Libs} :
  forall env now,
    (forall op req db,
       In (status (fst (run_op op env now req db)))
          match op with
          | List => [200; 401; 403]
          | Add => [201; 400; 401; 403]
          | ToggleFavorite => [200; 400; 404; 401; 403]
          | Remove => [200; 401; 403]
          end) /\
    (forall req d db s n,
       verified_user env now req = Some d ->
       asks_to_add req s n ->
       let u := userId (payload d) in
       let checked := record_stmt (SelectWatchlistItem u s) db in
       existsb (matches u s) (watchlist db) = false ->
       post_add env now req db = post_add_insert now u s n checked /\
       status (fst (post_add_insert now u s n checked)) = 201 /\
       (forall mid,
          existsb (matches u s) (watchlist mid) = true ->
          post_add_insert now u s n mid =
          (json 500 (Message "Server error"), record_stmt (InsertWatchlist u s n) mid)) /\
       (forall now2 n2,
          let both_checked := record_stmt (SelectWatchlistItem u s) checked in
          let first := post_add_insert now u s n both_checked in
          let second := post_add_insert now2 u s n2 (snd first) in
          status (fst first) = 201 /\
          fst second = json 500 (Message "Server error") /\
          watchlist (snd second) =
            (watchlist db ++
             [{| WatchlistItem.id := watchlist_next db;
                 WatchlistItem.user_id := u;
                 WatchlistItem.symbol := s;
                 WatchlistItem.name := n;
                 WatchlistItem.is_favorite := false;
                 WatchlistItem.added_at := now |}])%list)).
Proof.
  intros env now. split; [intros op req db; apply watchlist_statuses_alone|].
  intros req d db s n Hv Ha u checked E.
  assert (Hs : matches u s
                 {| WatchlistItem.id := watchlist_next db;
                    WatchlistItem.user_id := u;
                    WatchlistItem.symbol := s;
                    WatchlistItem.name := n;
                    WatchlistItem.is_favorite := false;
                    WatchlistItem.added_at := now |} = true).
  { unfold matches, owns. simpl. now rewrite Z.eqb_refl, String.eqb_refl. }
  split; [|split; [|split]].
  - rewrite (post_add_asked _ _ _ _ Hv s n db Ha). fold u. rewrite E.
    rewrite post_add_insert_run. unfold checked. simpl. now rewrite E.
  - rewrite post_add_insert_run. unfold checked. simpl. now rewrite E.
  - intros mid Hm. rewrite post_add_insert_run. now rewrite Hm.
  - intros now2 n2 both_checked first second. subst first second both_checked checked.
    rewrite (post_add_insert_run now). simpl. rewrite E. simpl.
    rewrite post_add_insert_run. simpl.
    rewrite existsb_app. simpl. rewrite Hs, orb_true_r. simpl.
    repeat split.
Qed.

(** ** More on the Authorization header *)

Lemma split_not_nil sep s : split sep s <> [].
Proof.
  destruct s as [|c s]; simpl; [discriminate|].
  destruct (Ascii.eqb c sep); [discriminate|].
  destruct (split sep s); discriminate.
Qed.

Lemma split_segments_no_sep sep s seg :
  In seg (split sep s) -> has_char sep seg = false.
Proof.
  revert seg. induction s as [|c s IH]; simpl; intros seg H.
  - destruct H as [<-|[]]. reflexivity.
  - destruct (Ascii.eqb c sep) eqn:E.
    + destruct H as [<-|H]; [reflexivity|auto].
    + destruct (split sep s) as [|seg0 segs] eqn:S.
      * destruct H as [<-|[]]. simpl. now rewrite E.
      * destruct H as [<-|H].
        -- simpl. rewrite E. simpl. apply IH. now left.
        -- apply IH. now right.
Qed.

(** X11.  Whenever the middleware lets a request through, the header had a
    space in it and what was verified is its second space-separated
    segment: a non-empty word that itself contains no space.  A token
    with a space in it can never authenticate. *)
Theorem authenticated_token_is_one_word {L : Libs} :
  forall env now req d,
    verified_user env now req = Some d ->
    exists h tok,
      authorization req = Some h /\
      has_char " " h = true /\
      js_index (split " " h) 1 = Some tok /\
      tok <> "" /\
      has_char " " tok = false /\
      jwt_verify tok (jwt_secret env) now = Some d.
Proof.
  intros env now req d. unfold verified_user.
  destruct (authorization req) as [h|] eqn:Hh; [|simpl; discriminate].
  destruct (header_token (Some h)) as [tok|] eqn:Ht; [|discriminate].
  destruct (String.eqb_spec tok "") as [->|Hne]; [discriminate|].
  intros Hv. exists h, tok.
  assert (Hidx : js_index (split " " h) 1 = Some tok).
  { unfold header_token in Ht. destruct (String.eqb_spec h "") as [->|]; [|exact Ht].
    injection Ht as <-. contradiction. }
  repeat split; auto.
  - destruct (has_char " " h) eqn:E; [reflexivity|].
    pose proof (header_token_no_space h E) as T. rewrite Ht in T. simpl in T.
    apply negb_false_iff, String.eqb_eq in T. contradiction.
  - apply (split_segments_no_sep " " h). eapply nth_error_In. exact Hidx.
Qed.

(** X12.  Two spaces after the scheme word make the second segment empty:
    such a header is answered 401 "Access token required" without
    verification, whatever follows, and the database is not touched. *)
Theorem double_space_header_is_rejected {L : Libs} :
  forall env now req next db scheme rest,
    authorization req = Some (scheme ++ String " " (String " " rest)) ->
    has_char " " scheme = false ->
    authenticateToken env now req next db =
    (json 401 (Message "Access token required"), db).
Proof.
  intros env now req next db scheme rest Hh Hs.
  unfold authenticateToken, respond. rewrite Hh. unfold header_token, js_index.
  rewrite append_sep_nonempty, (split_app_sep _ _ _ Hs). simpl.
  reflexivity.
Qed.

(** ** Validation and conflict in Register and Login *)

Lemma failing_two_fields a x b y :
  failing [(a, x); (b, y)] =
  ((if x then [] else [a]) ++ (if y then [] else [b]))%list.
Proof. now destruct x, y. Qed.

(** X13.  A request that fails validation is answered 400 with the names
    of the failing fields, in the order email, password, and no statement
    reaches the database.  Register, for a password of ASCII characters
    (where characters and bytes are the same count), fails the email
    field when it is not an email and the password field when it is
    missing or shorter than 6 characters; Login fails the password field
    only when it is missing. *)
Theorem invalid_requests_touch_nothing {L : Libs} :
  forall env now salt req db,
    let bad_email := if isEmail (field (body_email req)) then [] else ["email"] in
    (register_valid req = false ->
     ascii_only (field (body_password req)) = true ->
     post_register env now salt req db =
     (json 400 (Errors
        (bad_email ++
         if 6 <=? Z.of_nat (String.length (field (body_password req)))
         then [] else ["password"])), db)) /\
    (login_valid req = false ->
     post_login env now req db =
     (json 400 (Errors
        (bad_email ++
         match body_password req with Some _ => [] | None => ["password"] end)), db)).
Proof.
  intros env now salt req db bad_email. subst bad_email. split.
  - unfold register_valid, post_register. rewrite failing_two, failing_two_fields.
    intros -> _. reflexivity.
  - unfold login_valid, post_login. rewrite failing_two, failing_two_fields.
    intros ->. simpl. now destruct (body_password req).
Qed.

Lemma post_register_conflict {L : Libs} env now salt req db :
  register_valid req = true ->
  existsb (has_email (normalizeEmail (field (body_email req)))) (users db) = true ->
  post_register env now salt req db =
  (json 400 (Message "User already exists with this email"),
   record_stmt (SelectUserByEmail (normalizeEmail (field (body_email req)))) db).
Proof.
  unfold register_valid, post_register. rewrite failing_two. intros -> He. simpl.
  unfold try_catch, bind, select_users_by_email, pool_query, ret. simpl.
  destruct (filter _ (users db)) eqn:F; [|reflexivity].
  apply existsb_filter_nil in F. congruence.
Qed.

(** X14.  Register with an email (after normalisation) that some user
    already has answers 400 "User already exists with this email",
    whatever the password, the name and the salt; only the look-up was
    sent and both tables are as they were. *)
Theorem register_existing_email_conflicts {L : Libs} :
  forall env now salt req db u,
    register_valid req = true ->
    In u (users db) ->
    User.email u = normalizeEmail (field (body_email req)) ->
    let db' := snd (post_register env now salt req db) in
    fst (post_register env now salt req db) =
      json 400 (Message "User already exists with this email") /\
    users db' = users db /\ users_next db' = users_next db /\
    watchlist db' = watchlist db /\
    ran db db' [SelectUserByEmail (normalizeEmail (field (body_email req)))].
Proof.
  intros env now salt req db u Hv Hin He db'. subst db'.
  rewrite (post_register_conflict env now salt req db Hv).
  - simpl. repeat split.
  - apply existsb_exists. exists u. split; [exact Hin|].
    unfold has_email. rewrite He. apply String.eqb_refl.
Qed.

(** X15.  Register is not repeatable: after it has created a user, another
    Register with the same email, whatever the password, answers 400 and
    the users table stays as the first one left it, with one row for that
    email. *)
Theorem register_twice_conflicts {L : Libs} :
  forall env now now2 salt salt2 req req2 db,
    register_valid req = true ->
    register_valid req2 = true ->
    normalizeEmail (field (body_email req2)) = normalizeEmail (field (body_email req)) ->
    (forall u, In u (users db) ->
       User.email u <> normalizeEmail (field (body_email req))) ->
    (forall u, In u (users db) -> User.id u < users_next db) ->
    let db' := snd (post_register env now salt req db) in
    status (fst (post_register env now salt req db)) = 201 /\
    fst (post_register env now2 salt2 req2 db') =
      json 400 (Message "User already exists with this email") /\
    users (snd (post_register env now2 salt2 req2 db')) = users db' /\
    List.length (filter (has_email (normalizeEmail (field (body_email req)))) (users db')) = 1%nat.
Proof.
  intros env now now2 salt salt2 req req2 db Hv Hv2 He Hnew Hids db'. subst db'.
  rewrite (post_register_run env now salt req db Hv
             (no_email_filter _ _ Hnew) (fresh_id_filter _ _ Hids)). simpl.
  split; [reflexivity|].
  set (e := normalizeEmail (field (body_email req))) in *.
  set (row := registered_row now salt req (users_next db)).
  assert (X : filter (has_email e) (users db ++ [row]) = [row]).
  { apply filter_last_only; [now apply no_email_filter|].
    unfold has_email. simpl. apply String.eqb_refl. }
  rewrite (post_register_conflict env now2 salt2 req2 _ Hv2).
  - simpl. rewrite X. auto.
  - simpl. rewrite He. fold e. apply not_false_is_true. intros F.
    apply existsb_filter_nil in F. rewrite X in F. discriminate.
Qed.

(** ** What the auth routes do to the tables *)

Lemma filter_with_own_id us n row :
  User.id row = n -> filter (has_id n) (us ++ [row]) <> [].
Proof.
  intros H F. assert (X : In row (filter (has_id n) (us ++ [row]))).
  { apply filter_In. split; [apply in_or_app; right; now left|].
    unfold has_id. rewrite H. apply Z.eqb_refl. }
  rewrite F in X. contradiction.
Qed.

(** The effect of an auth request on the tables is one of three; only a
    request answered 200 or 201 has any. *)
Lemma run_auth_effect {L : Libs} op env now req db :
  let r := fst (run_auth op env now req db) in
  let db' := snd (run_auth op env now req db) in
  watchlist db' = watchlist db /\ watchlist_next db' = watchlist_next db /\
  ((users db' = users db /\ users_next db' = users_next db) \/
   (exists row,
      users db' = (users db ++ [row])%list /\
      users_next db' = users_next db + 1 /\
      User.id row = users_next db /\
      existsb (has_email (User.email row)) (users db) = false /\
      has_credential row /\
      (status r = 200 \/ status r = 201)) \/
   (exists i g nm pic,
      users db' =
        map (fun u => if has_id i u then link_google (Some g) nm pic u else u) (users db) /\
      users_next db' = users_next db /\
      status r = 200)).
Proof.
  destruct op as [salt| |]; simpl run_auth.
  - unfold post_register. run_handler. by_cases.
    all: try (exfalso; unfold set_users, record_stmt in *; simpl in *;
              eapply filter_with_own_id; [|eassumption]; reflexivity).
    all: split; [reflexivity|]; split; [reflexivity|]; auto.
    all: right; left; eexists; repeat split; eauto; first [now left | now right].
  - unfold post_login. run_handler. by_cases.
    all: split; [reflexivity|]; split; [reflexivity|]; auto.
  - unfold post_google. run_handler. by_cases.
    all: try (exfalso; unfold set_users, record_stmt in *; simpl in *;
              eapply filter_with_own_id; [|eassumption]; reflexivity).
    all: split; [reflexivity|]; split; [reflexivity|]; auto.
    all: try (right; left; eexists; repeat split; eauto; first [now left | now right]).
    all: right; right; do 4 eexists; repeat split.
Qed.

Lemma link_keeps_ids i g nm pic us :
  map User.id (map (fun u => if has_id i u then link_google (Some g) nm pic u else u) us)
  = map User.id us.
Proof. rewrite map_map. apply map_ext. intros u. now destruct (has_id i u). Qed.

Lemma link_keeps_emails i g nm pic us :
  map User.email (map (fun u => if has_id i u then link_google (Some g) nm pic u else u) us)
  = map User.email us.
Proof. rewrite map_map. apply map_ext. intros u. now destruct (has_id i u). Qed.

Lemma no_email_not_in e us :
  existsb (has_email e) us = false -> ~ In e (map User.email us).
Proof.
  intros E Hin. apply in_map_iff in Hin. destruct Hin as [u [He Hu]].
  assert (X : existsb (has_email e) us = true).
  { apply existsb_exists. exists u. split; [exact Hu|].
    unfold has_email. rewrite He. apply String.eqb_refl. }
  congruence.
Qed.

(** X16.  Register, Login and the Google login never reuse a user id: if
    the ids of the users table are distinct and below the counter before
    a request, they are so after it. *)
Theorem user_ids_stay_fresh {L : Libs} :
  forall op env now req db,
    user_ids_ok db -> user_ids_ok (snd (run_auth op env now req db)).
Proof.
  unfold user_ids_ok. intros op env now req db [Hd Hb].
  destruct (run_auth_effect op env now req db)
    as [_ [_ [[-> ->]|[[row [-> [-> [Hid _]]]]|[i [g [nm [pic [-> [-> _]]]]]]]]]].
  - auto.
  - split.
    + rewrite map_app. simpl. apply NoDup_app_one; [exact Hd|].
      intros Hin. apply in_map_iff in Hin. destruct Hin as [u [Hu Hin]].
      rewrite Forall_forall in Hb. specialize (Hb u Hin). lia.
    + apply Forall_app. split.
      * eapply Forall_impl; [|exact Hb]. simpl. intros. lia.
      * constructor; [lia|constructor].
  - split; [now rewrite link_keeps_ids|now apply ids_below_link].
Qed.

(** X17.  Register, Login and the Google login never give two users the
    same email: if the emails of the users table are distinct before a
    request, they are distinct after it. *)
Theorem emails_stay_unique {L : Libs} :
  forall op env now req db,
    unique_emails db -> unique_emails (snd (run_auth op env now req db)).
Proof.
  unfold unique_emails. intros op env now req db H.
  destruct (run_auth_effect op env now req db)
    as [_ [_ [[-> _]|[[row [-> [_ [_ [He _]]]]]|[i [g [nm [pic [-> _]]]]]]]]].
  - exact H.
  - rewrite map_app. simpl. apply NoDup_app_one; [exact H|].
    now apply no_email_not_in.
  - now rewrite link_keeps_emails.
Qed.

(** X18.  Every account can always sign in one way or the other: if each
    user row has a password hash or a Google id before a Register, Login
    or Google login request, each row has one after it, the new row
    included. *)
Theorem every_user_keeps_a_credential {L : Libs} :
  forall op env now req db,
    Forall has_credential (users db) ->
    Forall has_credential (users (snd (run_auth op env now req db))).
Proof.
  intros op env now req db H.
  destruct (run_auth_effect op env now req db)
    as [_ [_ [[-> _]|[[row [-> [_ [_ [_ [Hc _]]]]]]|[i [g [nm [pic [-> _]]]]]]]]].
  - exact H.
  - apply Forall_app. split; [exact H|]. constructor; [exact Hc|constructor].
  - apply Forall_forall. intros u Hin. apply in_map_iff in Hin.
    destruct Hin as [u0 [<- Hin]]. rewrite Forall_forall in H.
    destruct (has_id i u0); [|now apply H].
    right. simpl. discriminate.
Qed.

(** X19.  An auth request that is not answered 200 or 201 writes nothing:
    the users table, its counter and the watchlist are as they were.  No
    auth request ever touches the watchlist. *)
Theorem failed_auth_writes_nothing {L : Libs} :
  forall op env now req db,
    let r := fst (run_auth op env now req db) in
    let db' := snd (run_auth op env now req db) in
    watchlist db' = watchlist db /\ watchlist_next db' = watchlist_next db /\
    (status r <> 200 -> status r <> 201 ->
     users db' = users db /\ users_next db' = users_next db).
Proof.
  intros op env now req db r db'. subst r db'.
  destruct (run_auth_effect op env now req db)
    as [Hw [Hn [[Hu Hc]|[[row [_ [_ [_ [_ [_ Hs]]]]]]|[i [g [nm [pic [_ [_ Hs]]]]]]]]]].
  - auto.
  - split; [exact Hw|]. split; [exact Hn|]. intros H1 H2. destruct Hs; contradiction.
  - split; [exact Hw|]. split; [exact Hn|]. intros H1 H2. contradiction.
Qed.

(** ** The Google login, case by case *)

Section GoogleRuns.
Context {L : Libs}.
Variables (env : Env) (now : Z) (req : Request) (db : Db) (p : GooglePayload).
Hypothesis credential : truthy (body_credential req) = true.
Hypothesis ticket :
  verifyIdToken (field (body_credential req)) (GOOGLE_CLIENT_ID env) = WithPayload p.
Hypothesis has_mail : truthy (g_email p) = true.

Let found :=
  filter (fun x => opt_eqb (User.google_id x) (sub p) || has_email (field (g_email p)) x)
         (users db).

Lemma post_google_known_run u rest :
  found = u :: rest ->
  truthy (User.google_id u) = true ->
  post_google env now req db =
  (json 200 (AuthBody "Google login successful"
               (jwt_sign {| userId := User.id u; email := User.email u;
                            googleId := Present (User.google_id u) |}
                         (jwt_secret env) seven_days now)
               (google_view u)),
   record_stmt (SelectUserByGoogleOrEmail (sub p) (field (g_email p))) db).
Proof.
  unfold found. intros Hf Hg.
  unfold post_google. rewrite credential, ticket, has_mail. run_handler.
  rewrite Hf, Hg. reflexivity.
Qed.

Lemma post_google_new_run :
  found = [] ->
  filter (has_id (users_next db)) (users db) = [] ->
  let row := {| User.id := users_next db; User.email := field (g_email p);
                User.password := None; User.google_id := Some (sub p);
                User.name := g_name p; User.picture := g_picture p;
                User.created_at := now |} in
  post_google env now req db =
  (json 200 (AuthBody "Google login successful"
               (jwt_sign {| userId := users_next db; email := field (g_email p);
                            googleId := Present (Some (sub p)) |}
                         (jwt_secret env) seven_days now)
               (google_view row)),
   set_users (users db ++ [row]) (users_next db + 1)
     (record_stmt (SelectUserById (users_next db))
        (record_stmt (InsertGoogleUser (field (g_email p)) (sub p) (g_name p) (g_picture p))
           (record_stmt (SelectUserByGoogleOrEmail (sub p) (field (g_email p))) db)))).
Proof.
  unfold found. intros Hf Hi.
  assert (He : existsb (has_email (field (g_email p))) (users db) = false).
  { apply not_true_is_false. intros E. apply existsb_exists in E.
    destruct E as [x [Hin Hx]].
    assert (X : In x []).
    { rewrite <- Hf. apply filter_In. split; [exact Hin|]. rewrite Hx. apply orb_true_r. }
    contradiction. }
  unfold post_google. rewrite credential, ticket, has_mail. run_handler.
  rewrite Hf. simpl. rewrite He. simpl.
  rewrite filter_app, Hi. simpl. unfold has_id at 1. simpl. rewrite Z.eqb_refl.
  reflexivity.
Qed.

End GoogleRuns.

(** X20.  The Google login answers without sending any statement when it
    has nothing to look up: 400 "No credential provided" for a missing
    or empty credential, 500 "Server error" when the verifier rejects the
    identity token, 400 "Invalid token" when the ticket has no payload,
    400 "Email not provided by Google" when the payload has no email.  In
    each case the database is as it was. *)
Theorem google_login_rejections {L : Libs} :
  forall env now req db,
    let ticket := verifyIdToken (field (body_credential req)) (GOOGLE_CLIENT_ID env) in
    (truthy (body_credential req) = false ->
     post_google env now req db = (json 400 (Message "No credential provided"), db)) /\
    (truthy (body_credential req) = true -> ticket = VerifyThrows ->
     post_google env now req db = (json 500 (Message "Server error"), db)) /\
    (truthy (body_credential req) = true -> ticket = NoPayload ->
     post_google env now req db = (json 400 (Message "Invalid token"), db)) /\
    (forall p, truthy (body_credential req) = true -> ticket = WithPayload p ->
       truthy (g_email p) = false ->
       post_google env now req db =
       (json 400 (Message "Email not provided by Google"), db)).
Proof.
  intros env now req db ticket. subst ticket. unfold post_google.
  repeat split.
  - intros ->. reflexivity.
  - intros -> ->. reflexivity.
  - intros -> ->. reflexivity.
  - intros p -> -> ->. reflexivity.
Qed.

Lemma below_counter_fresh (db : Db) :
  user_ids_ok db -> filter (has_id (users_next db)) (users db) = [].
Proof.
  intros [_ Hb]. apply fresh_id_filter. now apply Forall_forall.
Qed.


(** X22.  The Google login never overwrites a Google id: when the first
    matching row already has one, only the look-up is sent, both tables
    are as they were, and the token is issued for that row, with the
    Google id stored in the row as its googleId claim. *)
Theorem google_login_keeps_existing_google_id {L : Libs} :
  forall env now req db p u rest,
    truthy (body_credential req) = true ->
    verifyIdToken (field (body_credential req)) (GOOGLE_CLIENT_ID env) = WithPayload p ->
    truthy (g_email p) = true ->
    filter (fun x => opt_eqb (User.google_id x) (sub p)
                     || has_email (field (g_email p)) x) (users db) = u :: rest ->
    truthy (User.google_id u) = true ->
    let db' := snd (post_google env now req db) in
    fst (post_google env now req db) =
      json 200 (AuthBody "Google login successful"
                  (jwt_sign {| userId := User.id u; email := User.email u;
                               googleId := Present (User.google_id u) |}
                            (jwt_secret env) seven_days now)
                  (google_view u)) /\
    users db' = users db /\ users_next db' = users_next db /\
    watchlist db' = watchlist db /\
    ran db db' [SelectUserByGoogleOrEmail (sub p) (field (g_email p))].
Proof.
  intros env now req db p u rest Hc Ht Hm Hf Hg db'. subst db'.
  rewrite (post_google_known_run env now req db p Hc Ht Hm u rest Hf Hg).
  simpl. repeat split.
Qed.

Lemma first_match_after_link (P : User.t -> bool) f u us rest :
  (forall x, User.id x <> User.id u -> f x = x) ->
  P (f u) = true ->
  NoDup (map User.id us) ->
  filter P us = u :: rest ->
  exists rest', filter P (map f us) = f u :: rest'.
Proof.
  intros Hother Hu. revert rest. induction us as [|x us IH]; simpl; intros rest Hd Hf.
  - discriminate.
  - inversion Hd as [|? ? Hn Hd']; subst.
    destruct (P x) eqn:Px.
    + injection Hf as -> _. rewrite Hu. eauto.
    + assert (Hin : In u us).
      { assert (X : In u (u :: rest)) by now left.
        rewrite <- Hf in X. now apply filter_In in X. }
      assert (Hne : User.id x <> User.id u).
      { intros E. apply Hn. rewrite E. now apply in_map. }
      rewrite (Hother x Hne), Px. eauto.
Qed.

(** X23.  The Google login is repeatable: with distinct user ids and a
    non-empty Google subject, a second login with the same identity,
    whenever it comes, is answered 200 for the same user id and email as
    the first and writes nothing; whatever the first one created or linked
    is found again. *)
Theorem google_login_twice {L : Libs} :
  forall env now now2 req db p,
    truthy (body_credential req) = true ->
    verifyIdToken (field (body_credential req)) (GOOGLE_CLIENT_ID env) = WithPayload p ->
    truthy (g_email p) = true ->
    sub p <> "" ->
    user_ids_ok db ->
    let db' := snd (post_google env now req db) in
    exists tok tok2 v v2,
      fst (post_google env now req db) =
        json 200 (AuthBody "Google login successful" tok v) /\
      fst (post_google env now2 req db') =
        json 200 (AuthBody "Google login successful" tok2 v2) /\
      v_id v2 = v_id v /\ v_email v2 = v_email v /\
      users (snd (post_google env now2 req db')) = users db' /\
      users_next (snd (post_google env now2 req db')) = users_next db'.
Proof.
  intros env now now2 req db p Hc Ht Hm Hsub Hids db'. subst db'.
  set (P := fun x => opt_eqb (User.google_id x) (sub p)
                     || has_email (field (g_email p)) x).
  assert (Htr : truthy (Some (sub p)) = true).
  { simpl. apply negb_true_iff. now apply String.eqb_neq. }
  destruct (filter P (users db)) as [|u rest] eqn:Hf.
  - rewrite (post_google_new_run env now req db p Hc Ht Hm Hf (below_counter_fresh db Hids)).
    simpl.
    set (row := {| User.id := users_next db; User.email := field (g_email p);
                   User.password := None; User.google_id := Some (sub p);
                   User.name := g_name p; User.picture := g_picture p;
                   User.created_at := now |}).
    assert (Hf2 : filter P (users db ++ [row]) = [row]).
    { apply filter_last_only; [exact Hf|]. unfold P, opt_eqb. simpl.
      now rewrite String.eqb_refl. }
    erewrite (post_google_known_run env now2 req _ p Hc Ht Hm row []);
      [|exact Hf2|exact Htr].
    simpl. do 4 eexists. repeat split.
  - destruct (truthy (User.google_id u)) eqn:Hg.
    + rewrite (post_google_known_run env now req db p Hc Ht Hm u rest Hf Hg). simpl.
      erewrite (post_google_known_run env now2 req _ p Hc Ht Hm u rest);
        [|exact Hf|exact Hg].
      simpl. do 4 eexists. repeat split.
    + rewrite (post_google_link_run env now req db p u rest Hc Ht Hm Hf Hg). simpl.
      set (f := fun x => if has_id (User.id u) x
                         then link_google (Some (sub p)) (g_name p) (g_picture p) x else x).
      destruct (first_match_after_link P f u (users db) rest) as [rest' Hf2].
      * intros x Hne. unfold f, has_id.
        destruct (Z.eqb_spec (User.id x) (User.id u)); [contradiction|reflexivity].
      * unfold f, has_id. rewrite Z.eqb_refl. unfold P, opt_eqb. simpl.
        now rewrite String.eqb_refl.
      * exact (proj1 Hids).
      * exact Hf.
      * erewrite (post_google_known_run env now2 req _ p Hc Ht Hm (f u) rest');
          [|exact Hf2|unfold f, has_id; rewrite Z.eqb_refl; exact Htr].
        simpl. do 4 eexists. repeat split.
        -- unfold f, has_id. now rewrite Z.eqb_refl.
        -- unfold f, has_id. now rewrite Z.eqb_refl.
Qed.



(** ** The watchlist page against the server *)

Lemma filter_owns_toggle u s b ws :
  filter (owns u) (map (fun w => if matches u s w then set_favorite b w else w) ws)
  = map (fun w => if matches u s w then set_favorite b w else w) (filter (owns u) ws).
Proof.
  induction ws as [|w ws IH]; simpl; [reflexivity|].
  assert (E : owns u (if matches u s w then set_favorite b w else w) = owns u w)
    by now destruct (matches u s w).
  rewrite E. destruct (owns u w); simpl; now rewrite IH.
Qed.

(** X25.  The page's local update after [toggleFavorite] agrees with the
    server, for a symbol that the unencoded URL carries as it is
    ([url_plain]).  If the page holds what List answered, and then
    toggles such a symbol, its state afterwards (updated in place on an
    ok response, untouched otherwise) has exactly the entries List would
    answer now, up to their order. *)
Theorem page_agrees_with_server_after_toggle {L : Libs} :
  forall env now now2 token symbol currentFavorite req list_req d d2 db views,
    toggle_request token symbol currentFavorite = Some req ->
    verified_user env now req = Some d ->
    verified_user env now2 list_req = Some d2 ->
    userId (payload d2) = userId (payload d) ->
    fst (get_watchlist env now2 list_req db) = json 200 (WatchlistBody views) ->
    let r := fst (put_favorite env now req db) in
    let db' := snd (put_favorite env now req db) in
    exists views',
      fst (get_watchlist env now2 list_req db') = json 200 (WatchlistBody views') /\
      Permutation (after_toggle r symbol currentFavorite (map watched views))
                  (map watched views').
Proof.
  intros env now now2 token symbol cur req list_req d d2 db views Hreq Hv Hv2 Hu Hviews r db'.
  subst r db'.
  unfold toggle_request in Hreq. destruct (url_plain symbol); [|discriminate].
  injection Hreq as <-.
  rewrite (get_watchlist_run _ _ _ _ Hv2) in Hviews. simpl in Hviews.
  injection Hviews as <-.
  rewrite (put_favorite_run _ _ _ _ Hv (negb cur) db eq_refl). simpl.
  rewrite (get_watchlist_run _ _ _ _ Hv2). simpl. rewrite Hu.
  set (u := userId (payload d)).
  set (f := fun w => if matches u symbol w then set_favorite (negb cur) w else w).
  eexists. split; [reflexivity|].
  destruct (existsb (matches u symbol) (watchlist db)) eqn:E.
  - unfold after_toggle, response_ok. simpl.
    rewrite (order_by_perm (filter (owns u) (map f (watchlist db)))).
    rewrite (filter_owns_toggle u symbol (negb cur)). fold f.
    rewrite (order_by_perm (filter (owns u) (watchlist db))).
    rewrite !map_map. apply Permutation_refl'.
    apply map_ext_in. intros w Hin. apply filter_In in Hin. destruct Hin as [_ Ho].
    unfold f, matches. rewrite Ho. simpl.
    now destruct (WatchlistItem.symbol w =? symbol)%string.
  - unfold after_toggle, response_ok. simpl.
    unfold f. rewrite (update_none _ _ _ _ E). reflexivity.
Qed.

(** ** The chart's time ranges *)

(** X26.  The chart's time ranges nest: whatever the moment and the data,
    the points shown for 1D are among those shown for 5D, those among 1M,
    then 6M, 1Y and 5Y; a point is shown exactly when it is in the data
    and not older than the cut-off; and filtering what is shown again
    changes nothing. *)
Theorem time_ranges_nest :
  forall (A : Type) (timestamp : A -> Z) now yearStart (data : list A),
    let shown := fun r => filterDataByTimeRange timestamp now yearStart r data in
    incl (shown R1D) (shown R5D) /\
    incl (shown R5D) (shown R1M) /\
    incl (shown R1M) (shown R6M) /\
    incl (shown R6M) (shown R1Y) /\
    incl (shown R1Y) (shown R5Y) /\
    (forall r point,
       In point (shown r) <->
       In point data /\ cutoffDate now yearStart r <= timestamp point) /\
    (forall r, filterDataByTimeRange timestamp now yearStart r (shown r) = shown r).
Proof.
  intros A timestamp now yearStart data shown.
  assert (M : forall r point,
             In point (shown r) <->
             In point data /\ cutoffDate now yearStart r <= timestamp point).
  { intros r point. unfold shown, filterDataByTimeRange. rewrite filter_In.
    now rewrite Z.leb_le. }
  assert (N : forall r1 r2,
             cutoffDate now yearStart r2 <= cutoffDate now yearStart r1 ->
             incl (shown r1) (shown r2)).
  { intros r1 r2 H point Hin. apply M in Hin. apply M. split; [tauto|lia]. }
  assert (I : forall (f : A -> bool) l, filter f (filter f l) = filter f l).
  { intros f l. induction l as [|x l IH]; simpl; [reflexivity|].
    destruct (f x) eqn:E; simpl; [rewrite E; now f_equal|exact IH]. }
  split; [apply N; simpl; lia|]. split; [apply N; simpl; lia|].
  split; [apply N; simpl; lia|]. split; [apply N; simpl; lia|].
  split; [apply N; simpl; lia|]. split; [exact M|].
  intros r. apply I.
Qed.

(** ** The in-memory routers *)

Lemma find_app_none {A} (P : A -> bool) l a :
  List.find P l = None -> List.find P (l ++ [a]) = if P a then Some a else None.
Proof.
  induction l as [|x l IH]; simpl; [reflexivity|].
  destruct (P x); [discriminate|exact IH].
Qed.

Lemma in_memory_login_run {L : Libs} sign env loaded now req password :
  login_valid_json req password = true ->
  InMemory.post_login sign env loaded now req password =
  if ("admin@tinvest.com" =? normalizeEmail (field (body_email req)))%string
  then match password with
       | JStr s =>
           if bcrypt_compare s
                "$2a$10$92IXUNpkjO0rOQ5byMi.Ye4oKoEa3Ro9llC/.og/at2.uheWG/igi"
           then InMemory.json 200
                  (InMemory.Auth "Login successful"
                     (sign {| InMemory.userId := "1";
                              InMemory.email := "admin@tinvest.com";
                              InMemory.name := Absent |}
                           (jwt_secret env) seven_days now)
                     "1" "admin@tinvest.com" Absent Absent)
           else InMemory.json 401 (InMemory.Message "Invalid credentials")
       | _ => InMemory.json 500 (InMemory.Message "Server error")
       end
  else InMemory.json 401 (InMemory.Message "Invalid credentials").
Proof.
  unfold InMemory.post_login, login_valid_json. rewrite failing_two. intros ->.
  cbv [negb InMemory.find InMemory.users List.find InMemory.u_email InMemory.try_catch].
  destruct (_ =? _)%string; [|reflexivity].
  cbv [InMemory.password InMemory.id InMemory.u_email negb].
  destruct password as [| | | |s]; try reflexivity.
  now destruct (bcrypt_compare _ _).
Qed.

(** X27.  The in-memory Login knows one account only.  For any JSON value
    in the password field it answers 200 exactly when the request passes
    validation, the normalised email is admin@tinvest.com and the
    password is a string that matches the built-in hash, and then for
    user id "1".  A validated request with another email gets 401
    "Invalid credentials", as does one for admin@tinvest.com with a
    string that does not match; one for admin@tinvest.com with a password
    that is not a string gets 500 "Server error". *)
Theorem in_memory_login_knows_one_account {L : Libs} :
  forall sign env loaded now req password,
    let r := InMemory.post_login sign env loaded now req password in
    let hash := "$2a$10$92IXUNpkjO0rOQ5byMi.Ye4oKoEa3Ro9llC/.og/at2.uheWG/igi" in
    let for_admin := normalizeEmail (field (body_email req)) = "admin@tinvest.com" in
    (InMemory.status r = 200 <->
     login_valid_json req password = true /\ for_admin /\
     exists s, password = JStr s /\ bcrypt_compare s hash = true) /\
    (InMemory.status r = 200 ->
     r = InMemory.json 200
           (InMemory.Auth "Login successful"
              (sign {| InMemory.userId := "1"; InMemory.email := "admin@tinvest.com";
                       InMemory.name := Absent |}
                    (jwt_secret env) seven_days now)
              "1" "admin@tinvest.com" Absent Absent)) /\
    (login_valid_json req password = true -> ~ for_admin ->
     r = InMemory.json 401 (InMemory.Message "Invalid credentials")) /\
    (login_valid_json req password = true -> for_admin ->
     forall s, password = JStr s -> bcrypt_compare s hash = false ->
     r = InMemory.json 401 (InMemory.Message "Invalid credentials")) /\
    (login_valid_json req password = true -> for_admin ->
     is_text password = false ->
     r = InMemory.json 500 (InMemory.Message "Server error")) /\
    (login_valid_json req password = false ->
     exists fields, r = InMemory.json 400 (InMemory.Errors fields)).
Proof.
  intros sign env loaded now req password r hash for_admin. subst r hash for_admin.
  destruct (login_valid_json req password) eqn:V.
  2:{ unfold InMemory.post_login. unfold login_valid_json in V.
      rewrite failing_two, V. simpl.
      split; [split; [discriminate|intros [H _]; discriminate]|].
      split; [discriminate|].
      repeat (split; [discriminate|]). intros _. eexists. reflexivity. }
  rewrite (in_memory_login_run sign env loaded now req password V).
  destruct (String.eqb_spec "admin@tinvest.com" (normalizeEmail (field (body_email req))))
    as [E|E].
  - destruct password as [| | | |s]; simpl.
    1-4: split; [split; [discriminate|intros [_ [_ [s [H _]]]]; discriminate]|];
         split; [discriminate|]; split; [intros _ H; now symmetry in E|];
         split; [intros _ _ s H; discriminate|]; split; [reflexivity|discriminate].
    destruct (bcrypt_compare s _) eqn:C; simpl.
    + split; [split; [intros _; repeat split; eauto|reflexivity]|].
      split; [reflexivity|]. split; [intros _ H; now symmetry in E|].
      split; [intros _ _ s' H; injection H as <-; congruence|].
      split; discriminate.
    + split; [split; [discriminate|
                      intros [_ [_ [s' [H H']]]]; injection H as <-; congruence]|].
      split; [discriminate|]. split; [reflexivity|]. split; [reflexivity|].
      split; discriminate.
  - split; [split; [discriminate|intros [_ [H _]]; symmetry in H; contradiction]|].
    split; [discriminate|]. split; [reflexivity|].
    split; [intros _ H; symmetry in H; contradiction|].
    split; [intros _ H; symmetry in H; contradiction|discriminate].
Qed.

(** X28.  The in-memory Google login only ever appends: whatever the
    request, the users it had are all still there, unchanged and in
    place, followed by at most one new user, and a new user appears only
    with a 200 answer.  It never gives two users the same Google id. *)
Theorem in_memory_google_appends {L : Libs} :
  forall sign toString env now_ms req users,
    let r := fst (InMemory.post_google sign toString env now_ms req users) in
    let users' := snd (InMemory.post_google sign toString env now_ms req users) in
    exists added,
      users' = (users ++ added)%list /\
      (List.length added <= 1)%nat /\
      (InMemory.status r <> 200 -> added = []) /\
      (NoDup (map InMemory.googleId users) -> NoDup (map InMemory.googleId users')).
Proof.
  intros sign toString env now_ms req users r users'. subst r users'.
  unfold InMemory.post_google.
  assert (Same : forall st b,
            exists added, snd (InMemory.json st b, users) = (users ++ added)%list /\
              (List.length added <= 1)%nat /\
              (InMemory.status (fst (InMemory.json st b, users)) <> 200 -> added = []) /\
              (NoDup (map InMemory.googleId users) ->
               NoDup (map InMemory.googleId (snd (InMemory.json st b, users))))).
  { intros st b. exists []. simpl. rewrite app_nil_r. auto. }
  destruct (negb (truthy (body_credential req))); [apply Same|].
  destruct (verifyIdToken _ _) as [| |p]; try apply Same.
  destruct (negb (truthy (g_email p))); [apply Same|].
  unfold InMemory.find.
  destruct (List.find _ users) as [u|] eqn:F; [apply Same|].
  eexists [_]. simpl. split; [reflexivity|]. split; [lia|].
  split; [intros H; contradiction|].
  intros Hd. rewrite map_app. simpl. apply NoDup_app_one; [exact Hd|].
  intros Hin. apply in_map_iff in Hin. destruct Hin as [x [Hx Hin]].
  apply (find_none _ _ F) in Hin. simpl in Hin. rewrite Hx, String.eqb_refl in Hin.
  discriminate.
Qed.

(** X29.  The in-memory Google login goes by the Google id alone and keeps
    what it stored: once an identity has signed in, a later sign-in with
    the same subject is answered with the same user id, email and name as
    the first, even when Google now reports another email or name, and
    adds no user. *)
Theorem in_memory_google_repeat {L : Libs} :
  forall sign toString env t1 t2 req1 req2 p1 p2 users,
    truthy (body_credential req1) = true ->
    verifyIdToken (field (body_credential req1)) (GOOGLE_CLIENT_ID env) = WithPayload p1 ->
    truthy (g_email p1) = true ->
    truthy (body_credential req2) = true ->
    verifyIdToken (field (body_credential req2)) (GOOGLE_CLIENT_ID env) = WithPayload p2 ->
    truthy (g_email p2) = true ->
    sub p2 = sub p1 ->
    let users1 := snd (InMemory.post_google sign toString env t1 req1 users) in
    exists tok1 tok2 id mail nm pic,
      fst (InMemory.post_google sign toString env t1 req1 users) =
        InMemory.json 200 (InMemory.Auth "Login successful" tok1 id mail nm pic) /\
      InMemory.post_google sign toString env t2 req2 users1 =
        (InMemory.json 200 (InMemory.Auth "Login successful" tok2 id mail nm pic), users1).
Proof.
  intros sign toString env t1 t2 req1 req2 p1 p2 users Hc1 Ht1 Hm1 Hc2 Ht2 Hm2 Hs users1.
  subst users1. unfold InMemory.post_google.
  rewrite Hc1, Ht1, Hm1, Hc2, Ht2, Hm2, Hs. simpl. unfold InMemory.find.
  destruct (List.find (fun u => (InMemory.googleId u =? sub p1)%string) users)
    as [u|] eqn:F; simpl.
  - rewrite F. do 6 eexists. split; reflexivity.
  - rewrite (find_app_none _ _ _ F). simpl. rewrite String.eqb_refl.
    do 6 eexists. split; reflexivity.
Qed.

(** ** The further properties at work on the sample deployment *)

Ltac distinct :=
  repeat (constructor; [simpl; intuition (discriminate || lia)|]); constructor.

Lemma asks_for_nvda : asks_to_add More.add_nvda "NVDA" "NVIDIA Corporation".
Proof. repeat split; discriminate. Qed.

Lemma add_requires_symbol_and_name_witness :
  post_add (L := RefLibs) Sample.env 2000
    (More.add_request Sample.as_alice (Some "") (Some "Nameless")) Sample.db
  = (json 400 (Message "Symbol and name are required"), Sample.db).
Proof.
  apply (add_requires_symbol_and_name (L := RefLibs) Sample.env 2000
           (More.add_request Sample.as_alice (Some "") (Some "Nameless"))
           Sample.alice_decoded Sample.db eq_refl).
  right. left. reflexivity.
Defined.

Lemma watchlist_statuses_witness :
  let first := post_add (L := RefLibs) Sample.env 2000 More.add_nvda Sample.db in
  status (fst first) = 201 /\
  post_add_insert 3000 1 "NVDA" "Nvidia" (snd first)
  = (json 500 (Message "Server error"),
     record_stmt (InsertWatchlist 1 "NVDA" "Nvidia") (snd first)).
Proof.
  intros first.
  destruct (proj2 (watchlist_statuses (L := RefLibs) Sample.env 2000)
              More.add_nvda Sample.alice_decoded Sample.db
              "NVDA" "NVIDIA Corporation" eq_refl asks_for_nvda eq_refl)
    as [A [B _]].
  destruct (proj2 (watchlist_statuses (L := RefLibs) Sample.env 3000)
              (More.add_request Sample.as_alice (Some "NVDA") (Some "Nvidia"))
              Sample.alice_decoded Sample.db
              "NVDA" "Nvidia" eq_refl) as [_ [_ [C _]]].
  - repeat split; discriminate.
  - reflexivity.
  - split.
    + unfold first. rewrite A. exact B.
    + apply C. reflexivity.
Defined.

Lemma add_inserts_or_reports_duplicate_witness :
  status (fst (post_add (L := RefLibs) Sample.env 2000 More.add_nvda Sample.db)) = 201.
Proof.
  apply (proj1 (add_inserts_or_reports_duplicate (L := RefLibs) Sample.env 2000
                  More.add_nvda Sample.alice_decoded Sample.db
                  "NVDA" "NVIDIA Corporation" eq_refl asks_for_nvda)).
  reflexivity.
Defined.

Lemma add_then_list_witness :
  exists views,
    fst (get_watchlist (L := RefLibs) Sample.env 3000 More.list_request
           (snd (post_add (L := RefLibs) Sample.env 2000 More.add_nvda Sample.db)))
      = json 200 (WatchlistBody views) /\
    In {| v_symbol := "NVDA"; v_name := "NVIDIA Corporation";
          v_isFavorite := false; v_addedAt := 2000 |} views.
Proof.
  destruct (add_then_list (L := RefLibs) Sample.env 2000 3000 More.add_nvda
              More.list_request Sample.alice_decoded Sample.alice_decoded Sample.db
              "NVDA" "NVIDIA Corporation" eq_refl eq_refl eq_refl asks_for_nvda eq_refl)
    as [views [H1 [_ [H2 _]]]].
  exists views. split; assumption.
Defined.

Lemma add_twice_conflicts_witness :
  fst (post_add (L := RefLibs) Sample.env 3000 More.add_nvda
         (snd (post_add (L := RefLibs) Sample.env 2000 More.add_nvda Sample.db)))
  = json 400 (Message "Stock already in watchlist").
Proof.
  exact (proj1 (add_twice_conflicts (L := RefLibs) Sample.env 2000 3000
                  More.add_nvda More.add_nvda Sample.alice_decoded Sample.alice_decoded
                  Sample.db "NVDA" "NVIDIA Corporation" "NVIDIA Corporation"
                  eq_refl eq_refl eq_refl asks_for_nvda asks_for_nvda eq_refl)).
Defined.

Lemma watchlist_entries_stay_unique_witness :
  unique_entries (snd (run_op (L := RefLibs) Add Sample.env 2000 More.add_nvda Sample.db)).
Proof.
  apply (watchlist_entries_stay_unique (L := RefLibs)).
  unfold unique_entries. simpl. distinct.
Defined.

Lemma watchlist_ids_stay_fresh_witness :
  watchlist_ids_ok (snd (run_op (L := RefLibs) Add Sample.env 2000 More.add_nvda Sample.db)).
Proof.
  apply (watchlist_ids_stay_fresh (L := RefLibs) Add Sample.env 2000 More.add_nvda Sample.db).
  split; simpl; [distinct|]. repeat constructor; simpl; lia.
Defined.

Lemma add_then_remove_restores_witness :
  watchlist
    (snd (delete_remove (L := RefLibs) Sample.env 3000
            (Sample.watch_request Sample.as_alice "NVDA" JUndefined)
            (snd (post_add (L := RefLibs) Sample.env 2000 More.add_nvda Sample.db))))
  = watchlist Sample.db.
Proof.
  apply (add_then_remove_restores (L := RefLibs) Sample.env 2000 3000 More.add_nvda
           (Sample.watch_request Sample.as_alice "NVDA" JUndefined)
           Sample.alice_decoded Sample.alice_decoded Sample.db
           "NVDA" "NVIDIA Corporation" eq_refl eq_refl eq_refl asks_for_nvda
           eq_refl eq_refl).
Defined.

Lemma remove_then_toggle_or_add_witness :
  let req := Sample.watch_request Sample.as_alice "AAPL" (JBool true) in
  fst (put_favorite (L := RefLibs) Sample.env 3000 req
         (snd (delete_remove (L := RefLibs) Sample.env 2000 req Sample.db)))
  = json 404 (Message "Stock not found in watchlist").
Proof.
  intros req.
  apply (proj1 (remove_then_toggle_or_add (L := RefLibs) Sample.env 2000 3000 req req
                  Sample.alice_decoded Sample.alice_decoded Sample.db
                  eq_refl eq_refl eq_refl eq_refl) true eq_refl).
Defined.

Lemma toggle_then_list_witness :
  let req := Sample.watch_request Sample.as_alice "AAPL" (JBool true) in
  exists views,
    fst (get_watchlist (L := RefLibs) Sample.env 3000 More.list_request
           (snd (put_favorite (L := RefLibs) Sample.env 2000 req Sample.db)))
      = json 200 (WatchlistBody views) /\
    exists v rest, views = v :: rest /\ v_isFavorite v = true.
Proof.
  intros req.
  destruct (toggle_then_list (L := RefLibs) Sample.env 2000 3000 req More.list_request
              Sample.alice_decoded Sample.alice_decoded Sample.db true
              eq_refl eq_refl eq_refl eq_refl eq_refl)
    as [views [H1 [_ [_ [_ H5]]]]].
  exists views. split; [exact H1|]. apply H5. reflexivity.
Defined.

Lemma authenticated_token_is_one_word_witness :
  exists h tok,
    authorization More.list_request = Some h /\
    js_index (split " " h) 1 = Some tok /\ has_char " " tok = false.
Proof.
  destruct (authenticated_token_is_one_word (L := RefLibs) Sample.env 2000
              More.list_request Sample.alice_decoded eq_refl)
    as [h [tok [H1 [_ [H3 [_ [H5 _]]]]]]].
  exists h, tok. auto.
Defined.

Lemma double_space_header_is_rejected_witness :
  authenticateToken (L := RefLibs) Sample.env 2000
    (Sample.watch_request (Some ("Bearer  " ++ Sample.alice_token)) "" JUndefined)
    (fun r => respond (json 200 (Message "next"))) Sample.db
  = (json 401 (Message "Access token required"), Sample.db).
Proof.
  apply (double_space_header_is_rejected (L := RefLibs) Sample.env 2000 _ _ Sample.db
           "Bearer" Sample.alice_token); reflexivity.
Defined.

Lemma invalid_requests_touch_nothing_witness :
  post_register (L := RefLibs) Sample.env 1000 "salt"
    (Sample.auth_request (Some "not-an-email") (Some "short") None) Sample.db
  = (json 400 (Errors ["email"; "password"]), Sample.db).
Proof.
  apply (proj1 (invalid_requests_touch_nothing (L := RefLibs) Sample.env 1000 "salt"
                  (Sample.auth_request (Some "not-an-email") (Some "short") None)
                  Sample.db)).
  - reflexivity.
  - reflexivity.
Defined.

Lemma register_existing_email_conflicts_witness :
  fst (post_register (L := RefLibs) Sample.env 1000 "salt"
         (Sample.auth_request (Some "alice@example.com") (Some "another-password") None)
         Sample.db)
  = json 400 (Message "User already exists with this email").
Proof.
  apply (register_existing_email_conflicts (L := RefLibs) Sample.env 1000 "salt"
           (Sample.auth_request (Some "alice@example.com") (Some "another-password") None)
           Sample.db Sample.alice eq_refl (or_introl eq_refl) eq_refl).
Defined.

Lemma register_twice_conflicts_witness :
  fst (post_register (L := RefLibs) Sample.env 2000 "pepper"
         (Sample.auth_request (Some "dave@example.com") (Some "something-else") None)
         (snd (post_register (L := RefLibs) Sample.env 1000 "salt" More.dave_request
                 Sample.db)))
  = json 400 (Message "User already exists with this email").
Proof.
  refine (proj1 (proj2 (register_twice_conflicts (L := RefLibs) Sample.env 1000 2000
                          "salt" "pepper" More.dave_request
                          (Sample.auth_request (Some "dave@example.com")
                                               (Some "something-else") None)
                          Sample.db eq_refl eq_refl eq_refl _ _))).
  - intros u [<-|[<-|[]]]; discriminate.
  - intros u [<-|[<-|[]]]; simpl; lia.
Defined.

Lemma sample_user_ids_ok : user_ids_ok Sample.db.
Proof. split; simpl; [distinct|]. repeat constructor; simpl; lia. Qed.

Lemma user_ids_stay_fresh_witness :
  user_ids_ok (snd (run_auth (L := RefLibs) (Register "salt") Sample.env 1000
                      More.dave_request Sample.db)).
Proof. apply (user_ids_stay_fresh (L := RefLibs)). exact sample_user_ids_ok. Defined.

Lemma emails_stay_unique_witness :
  unique_emails (snd (run_auth (L := RefLibs) (Register "salt") Sample.env 1000
                        More.dave_request Sample.db)).
Proof.
  apply (emails_stay_unique (L := RefLibs)). unfold unique_emails. simpl. distinct.
Defined.

Lemma every_user_keeps_a_credential_witness :
  Forall has_credential
    (users (snd (run_auth (L := RefLibs) LoginWithExternalIdentity Sample.env 1000
                   More.google_request Sample.db))).
Proof.
  apply (every_user_keeps_a_credential (L := RefLibs)).
  constructor; [left; discriminate|]. constructor; [right; discriminate|]. constructor.
Defined.

Lemma failed_auth_writes_nothing_witness :
  users (snd (run_auth (L := RefLibs) Login Sample.env 1000
                (Sample.auth_request (Some "alice@example.com") (Some "wrong") None)
                Sample.db))
  = users Sample.db.
Proof.
  apply (proj2 (proj2 (failed_auth_writes_nothing (L := RefLibs) Login Sample.env 1000
                         (Sample.auth_request (Some "alice@example.com") (Some "wrong") None)
                         Sample.db))); discriminate.
Defined.

Lemma google_login_rejections_witness :
  post_google (L := RefLibs) Sample.env 1000
    (Sample.auth_request None None (Some "forged-id-token")) Sample.db
  = (json 500 (Message "Server error"), Sample.db).
Proof.
  apply (proj1 (proj2 (google_login_rejections (L := RefLibs) Sample.env 1000
                         (Sample.auth_request None None (Some "forged-id-token"))
                         Sample.db))); reflexivity.
Defined.


Lemma google_login_keeps_existing_google_id_witness :
  users (snd (post_google (L := RefLibs) Sample.env 1000 More.google_request More.db_linked))
  = users More.db_linked.
Proof.
  exact (proj1 (proj2 (google_login_keeps_existing_google_id (L := RefLibs)
                         Sample.env 1000 More.google_request More.db_linked
                         More.alice_google More.alice_linked []
                         eq_refl eq_refl eq_refl eq_refl eq_refl))).
Defined.

Lemma google_login_twice_witness :
  let db' := snd (post_google (L := RefLibs) Sample.env 1000 More.google_request Sample.db) in
  users (snd (post_google (L := RefLibs) Sample.env 2000 More.google_request db')) = users db'.
Proof.
  intros db'.
  destruct (google_login_twice (L := RefLibs) Sample.env 1000 2000 More.google_request
              Sample.db More.alice_google eq_refl eq_refl eq_refl)
    as [tok [tok2 [v [v2 [_ [_ [_ [_ [H _]]]]]]]]].
  - discriminate.
  - exact sample_user_ids_ok.
  - exact H.
Defined.


Lemma page_agrees_with_server_after_toggle_witness :
  exists req views',
    toggle_request Sample.alice_token "AAPL" false = Some req /\
    fst (get_watchlist (L := RefLibs) Sample.env 3000 More.list_request
           (snd (put_favorite (L := RefLibs) Sample.env 2000 req Sample.db)))
      = json 200 (WatchlistBody views') /\
    Permutation
      (after_toggle (fst (put_favorite (L := RefLibs) Sample.env 2000 req Sample.db))
         "AAPL" false
         (map watched [view_item Sample.msft; view_item Sample.aapl]))
      (map watched views').
Proof.
  eexists.
  destruct (page_agrees_with_server_after_toggle (L := RefLibs) Sample.env 2000 3000
              Sample.alice_token "AAPL" false _ More.list_request
              Sample.alice_decoded Sample.alice_decoded Sample.db
              [view_item Sample.msft; view_item Sample.aapl]
              eq_refl eq_refl eq_refl eq_refl eq_refl) as [views' [A B]].
  exists views'. split; [reflexivity|]. split; [exact A|exact B].
Defined.

Lemma in_memory_login_knows_one_account_witness :
  InMemory.post_login (L := RefLibs) More.sign Sample.env 0 1000
    (Sample.auth_request (Some "alice@example.com") None None) (JStr "hunter22")
    = InMemory.json 401 (InMemory.Message "Invalid credentials") /\
  InMemory.post_login (L := RefLibs) More.sign Sample.env 0 1000
    (Sample.auth_request (Some "admin@tinvest.com") None None) JNull
    = InMemory.json 500 (InMemory.Message "Server error").
Proof.
  pose proof (in_memory_login_knows_one_account (L := RefLibs) More.sign
                Sample.env 0 1000
                (Sample.auth_request (Some "alice@example.com") None None)
                (JStr "hunter22")) as [_ [_ [A _]]].
  pose proof (in_memory_login_knows_one_account (L := RefLibs) More.sign
                Sample.env 0 1000
                (Sample.auth_request (Some "admin@tinvest.com") None None)
                JNull) as [_ [_ [_ [_ [B _]]]]].
  split.
  - apply A; [reflexivity|discriminate].
  - apply B; reflexivity.
Defined.

Lemma in_memory_google_appends_witness :
  exists added,
    snd (InMemory.post_google (L := RefLibs) More.sign More.toString Sample.env 5000
           More.google_request [])
    = added /\ (List.length added <= 1)%nat.
Proof.
  destruct (in_memory_google_appends (L := RefLibs) More.sign More.toString Sample.env
              5000 More.google_request []) as [added [H1 [H2 _]]].
  exists added. split; [exact H1|exact H2].
Defined.

Lemma in_memory_google_repeat_witness :
  let users1 := snd (InMemory.post_google (L := RefLibs) More.sign More.toString
                       Sample.env 5000 More.google_request []) in
  snd (InMemory.post_google (L := RefLibs) More.sign More.toString
         Sample.env 9000 More.google_request users1) = users1.
Proof.
  intros users1.
  destruct (in_memory_google_repeat (L := RefLibs) More.sign More.toString Sample.env
              5000 9000 More.google_request More.google_request
              More.alice_google More.alice_google []
              eq_refl eq_refl eq_refl eq_refl eq_refl eq_refl eq_refl)
    as [tok1 [tok2 [id [mail [nm [pic [_ H]]]]]]].
  fold users1 in H. now rewrite H.
Defined.
